(** * spudLink packet transport: ring buffer, packet framing, connection link

    A shallow embedding of the Python package [spudLink]
    ([circularBuffer.py], [packetTool.py], [packetTypeEnum.py],
    [packetStatusEnum.py], [ethernetLink.py]) and the properties of its
    transport layer.

    Python objects are mutated in place and an exception leaves every
    mutation made before it in force, so each method is a function from the
    object's state to a result and the state after the call. *)

From stdpp Require Import base list numbers.
From Stdlib Require Import ZArith Lia.
From Stdlib Require String Ascii.

Open Scope Z_scope.

(** ** Python runtime: exceptions, results, typed arrays *)

(** The exceptions the modelled code can raise.  [NoBytesAvailable] and
    [SocketBroken] are the package's own (module [spudLinkExceptions]); the
    others are Python built-ins. *)
Inductive exn : Type :=
| NoBytesAvailable
| SocketBroken
| IndexError
| OverflowError
| ValueError
| AttributeError
| OSError.

(** Outcome of a call.  [OutOfFuel] has no Python counterpart: it marks that
    the iteration bound of a modelled [while] loop was reached. *)
Inductive result (A : Type) : Type :=
| Ok (a : A)
| Raise (e : exn)
| OutOfFuel.
Arguments Ok {A} a.
Arguments Raise {A} e.
Arguments OutOfFuel {A}.

(** A method on an object of state [St] returning an [A]. *)
Definition M (St A : Type) : Type := St -> result A * St.

Definition ret {St A : Type} (a : A) : M St A := fun s => (Ok a, s).

Definition raise {St A : Type} (e : exn) : M St A := fun s => (Raise e, s).

Definition bind {St A B : Type} (c : M St A) (k : A -> M St B) : M St B :=
  fun s =>
    match c s with
    | (Ok a, s') => k a s'
    | (Raise e, s') => (Raise e, s')
    | (OutOfFuel, s') => (OutOfFuel, s')
    end.

Definition get {St : Type} : M St St := fun s => (Ok s, s).

Definition modify {St : Type} (f : St -> St) : M St unit := fun s => (Ok tt, f s).

Notation "'do' x <- c ; k" := (bind c (fun x => k))
  (at level 10, x name, c at level 100, k at level 200).
Notation "'do_' c ; k" := (bind c (fun _ : unit => k))
  (at level 10, c at level 100, k at level 200).

(** Type codes of [array.array]: ['i'] is a signed C int (32 bits on the
    platforms the package runs on), ['B'] an unsigned byte. *)
Inductive typecode : Type := TC_i | TC_B.

Definition fits (tc : typecode) (v : Z) : bool :=
  match tc with
  | TC_i => (-2147483648 <=? v) && (v <=? 2147483647)
  | TC_B => (0 <=? v) && (v <=? 255)
  end.

(** Python subscript normalisation: a negative index counts from the end;
    anything outside [-len, len) is an [IndexError]. *)
Definition py_index (len i : Z) : option nat :=
  if (0 <=? i) && (i <? len) then Some (Z.to_nat i)
  else if (i <? 0) && (- len <=? i) then Some (Z.to_nat (len + i))
  else None.

(** [a[i]] *)
Definition getitem (a : list Z) (i : Z) : result Z :=
  match py_index (Z.of_nat (length a)) i with
  | Some n =>
      match a !! n with
      | Some v => Ok v
      | None => Raise IndexError
      end
  | None => Raise IndexError
  end.

(** [a[i] = v] on an array of type code [tc]: the index is checked first,
    then the value is converted to the item type. *)
Definition setitem (tc : typecode) (a : list Z) (i v : Z) : result (list Z) :=
  match py_index (Z.of_nat (length a)) i with
  | Some n => if fits tc v then Ok (<[n:=v]> a) else Raise OverflowError
  | None => Raise IndexError
  end.

(** [a[lo:hi]] for [0 <= lo] and [0 <= hi]. *)
Definition slice (a : list Z) (lo hi : Z) : list Z :=
  take (Z.to_nat hi - Z.to_nat lo)%nat (drop (Z.to_nat lo) a).

(** The array built by [while i <= n: a.append(0); i += 1] from [i = 0]. *)
Definition zeros_upto (n : Z) : list Z := replicate (Z.to_nat (n + 1)) 0.

(** ** circularBuffer.py *)

Module circularBuffer.

Record CircularBuffer : Type := mkCircularBuffer {
  bufferSize : Z;
  buffer : list Z;               (* arr.array('i') *)
  nextInsertIndex : Z;
  nextRetrieveIndex : Z
}.

(** [CircularBuffer.__init__] *)
Definition init (pBufferSize : Z) : CircularBuffer :=
  {| bufferSize := pBufferSize;
     buffer := zeros_upto pBufferSize;
     nextInsertIndex := 0;
     nextRetrieveIndex := 0 |}.

(** [CircularBuffer.reset] *)
Definition reset : M CircularBuffer unit :=
  fun self =>
    (Ok tt,
     {| bufferSize := bufferSize self;
        buffer := buffer self;
        nextInsertIndex := 0;
        nextRetrieveIndex := 0 |}).

(** [CircularBuffer.available] *)
Definition available (self : CircularBuffer) : Z :=
  if nextInsertIndex self >=? nextRetrieveIndex self then
    nextInsertIndex self - nextRetrieveIndex self
  else
    (bufferSize self - nextRetrieveIndex self) + nextInsertIndex self.

(** [CircularBuffer.append] *)
Definition append (pValue : Z) : M CircularBuffer unit :=
  fun self =>
    match setitem TC_i (buffer self) (nextInsertIndex self) pValue with
    | Ok buffer' =>
        let next := nextInsertIndex self + 1 in
        (Ok tt,
         {| bufferSize := bufferSize self;
            buffer := buffer';
            nextInsertIndex := if next =? bufferSize self then 0 else next;
            nextRetrieveIndex := nextRetrieveIndex self |})
    | Raise e => (Raise e, self)
    | OutOfFuel => (OutOfFuel, self)
    end.

(** [CircularBuffer.retrieve] *)
Definition retrieve : M CircularBuffer Z :=
  fun self =>
    if available self =? 0 then (Raise NoBytesAvailable, self)
    else
      match getitem (buffer self) (nextRetrieveIndex self) with
      | Ok value =>
          let next := nextRetrieveIndex self + 1 in
          (Ok value,
           {| bufferSize := bufferSize self;
              buffer := buffer self;
              nextInsertIndex := nextInsertIndex self;
              nextRetrieveIndex := if next =? bufferSize self then 0 else next |})
      | Raise e => (Raise e, self)
      | OutOfFuel => (OutOfFuel, self)
      end.

(** [CircularBuffer.peek] *)
Definition peek : M CircularBuffer Z :=
  fun self =>
    if available self =? 0 then (Raise NoBytesAvailable, self)
    else
      match getitem (buffer self) (nextRetrieveIndex self) with
      | Ok value => (Ok value, self)
      | Raise e => (Raise e, self)
      | OutOfFuel => (OutOfFuel, self)
      end.

(** The [while count <= pNumBytesToRead] loop of [CircularBuffer.read]
    inside its [try].  The state is the ring buffer paired with the
    caller's array [pBuffer] (type code ['i']).  [pBuffer[i] =
    self.retrieve()] evaluates the right-hand side first, so the value is
    already removed when the store raises.  [NoBytesAvailable] is the only
    exception the [except] clause catches; it ends the loop.  Each turn
    increments [count], so [pNumBytesToRead + 1 - count] turns suffice. *)
Fixpoint read_loop (fuel : nat) (pNumBytesToRead count i : Z)
  : M (CircularBuffer * list Z) Z :=
  fun '(self, pBuffer) =>
    if count <=? pNumBytesToRead then
      match fuel with
      | O => (OutOfFuel, (self, pBuffer))
      | S fuel' =>
          match retrieve self with
          | (Ok value, self') =>
              match setitem TC_i pBuffer i value with
              | Ok pBuffer' =>
                  read_loop fuel' pNumBytesToRead (count + 1) (i + 1) (self', pBuffer')
              | Raise e => (Raise e, (self', pBuffer))
              | OutOfFuel => (OutOfFuel, (self', pBuffer))
              end
          | (Raise NoBytesAvailable, self') => (Ok i, (self', pBuffer))
          | (Raise e, self') => (Raise e, (self', pBuffer))
          | (OutOfFuel, self') => (OutOfFuel, (self', pBuffer))
          end
      end
    else (Ok i, (self, pBuffer)).

(** [CircularBuffer.read]: returns [i], the index after the last store. *)
Definition read (pOffset pNumBytesToRead : Z) : M (CircularBuffer * list Z) Z :=
  read_loop (Z.to_nat (pNumBytesToRead + 1)) pNumBytesToRead 0 pOffset.

(** [for v in values: self.append(v)], as the link's receive pump does
    byte by byte. *)
Fixpoint append_all (values : list Z) : M CircularBuffer unit :=
  match values with
  | [] => ret tt
  | v :: rest => do_ append v; append_all rest
  end.

(** [n] successive calls of [retrieve], collecting the values. *)
Fixpoint retrieve_n (n : nat) : M CircularBuffer (list Z) :=
  match n with
  | O => ret []
  | S n' => do v <- retrieve; do vs <- retrieve_n n'; ret (v :: vs)
  end.

End circularBuffer.

(** ** packetTypeEnum.py, packetStatusEnum.py *)

Module packetTypeEnum.

Inductive PacketTypeEnum : Type :=
| NO_PKT
| ACK_PKT
| GET_DEVICE_INFO
| LOG_MESSAGE
| STOP_ALL_MOTORS
| SET_MOTOR_SPEEDS
| GET_MOTOR_SPEEDS
| GET_ENCODER_VALUES
| MOVE_BY_DISTANCE_AND_TIME
| SHUT_DOWN_OPERATING_SYSTEM.

(** [member.value] *)
Definition value (t : PacketTypeEnum) : Z :=
  match t with
  | NO_PKT => 0
  | ACK_PKT => 1
  | GET_DEVICE_INFO => 2
  | LOG_MESSAGE => 3
  | STOP_ALL_MOTORS => 11
  | SET_MOTOR_SPEEDS => 12
  | GET_MOTOR_SPEEDS => 13
  | GET_ENCODER_VALUES => 14
  | MOVE_BY_DISTANCE_AND_TIME => 15
  | SHUT_DOWN_OPERATING_SYSTEM => 16
  end.

Definition members : list PacketTypeEnum :=
  [NO_PKT; ACK_PKT; GET_DEVICE_INFO; LOG_MESSAGE; STOP_ALL_MOTORS;
   SET_MOTOR_SPEEDS; GET_MOTOR_SPEEDS; GET_ENCODER_VALUES;
   MOVE_BY_DISTANCE_AND_TIME; SHUT_DOWN_OPERATING_SYSTEM].

(** [PacketTypeEnum(code)]: lookup of a member by value; [enum.Enum]
    raises [ValueError] when no member has that value. *)
Definition of_value (code : Z) : result PacketTypeEnum :=
  match List.find (fun t => value t =? code) members with
  | Some t => Ok t
  | None => Raise ValueError
  end.

End packetTypeEnum.

Module packetStatusEnum.

Inductive PacketStatusEnum : Type :=
| PACKET_VALID
| UNKNOWN_PACKET_TYPE_ERROR
| DUPLEX_MATCH_ERROR
| LOG_MESSAGE.

Definition value (s : PacketStatusEnum) : Z :=
  match s with
  | PACKET_VALID => 0
  | UNKNOWN_PACKET_TYPE_ERROR => 1
  | DUPLEX_MATCH_ERROR => 2
  | LOG_MESSAGE => 3
  end.

End packetStatusEnum.

(** ** The socket, as far as the package uses it

    The operating system's side is scripted in the socket's state:
    [sendCounts] holds what the coming [send] calls return (when it is
    exhausted a [send] takes everything it is given), [peerConnected] and
    [closeError] decide whether [shutdown] and [close] raise [OSError]. *)

Module pysocket.

Record Socket : Type := mkSocket {
  sent : list Z;
  sendCounts : list Z;
  peerConnected : bool;
  closeError : bool;
  isClosed : bool
}.

(** [sock.send(data)] *)
Definition send (data : list Z) : M Socket Z :=
  fun s =>
    if isClosed s then (Raise OSError, s)
    else
      let len := Z.of_nat (length data) in
      let n := match sendCounts s with
               | [] => len
               | k :: _ => Z.max 0 (Z.min k len)
               end in
      (Ok n,
       {| sent := sent s ++ take (Z.to_nat n) data;
          sendCounts := tail (sendCounts s);
          peerConnected := peerConnected s;
          closeError := closeError s;
          isClosed := isClosed s |}).

(** [sock.shutdown(socket.SHUT_RDWR)] *)
Definition shutdown : M Socket unit :=
  fun s =>
    if isClosed s || negb (peerConnected s) then (Raise OSError, s)
    else
      (Ok tt,
       {| sent := sent s;
          sendCounts := sendCounts s;
          peerConnected := false;
          closeError := closeError s;
          isClosed := isClosed s |}).

(** [sock.close()]: closing a closed socket does nothing; the descriptor
    is released even when the system call reports an error. *)
Definition close : M Socket unit :=
  fun s =>
    if isClosed s then (Ok tt, s)
    else
      let s' := {| sent := sent s;
                   sendCounts := sendCounts s;
                   peerConnected := false;
                   closeError := closeError s;
                   isClosed := true |} in
      if closeError s then (Raise OSError, s') else (Ok tt, s').

End pysocket.

(** ** packetTool.py *)

Module packetTool.

Import circularBuffer.
Export packetTypeEnum.

(** What [self.byteIn] refers to: [__init__] stores the class [type(None)]
    there, [setStreams] stores the caller's argument, a [CircularBuffer]
    (the object the link appends received bytes to) or [None]. *)
Inductive InputStream : Type :=
| NoneTypeClass
| NoneObject
| Stream (b : CircularBuffer).

Definition IN_BUFFER_SIZE : Z := 1024.
Definition OUT_BUFFER_SIZE : Z := 1024.

(** The fields of a [PacketTool] that its methods read.  ([TIMEOUT],
    [timeOutProcess], [reSynced], [reSyncCount], [reSyncSkip] and
    [reSyncPktID] are only ever assigned.) *)
Record PacketTool : Type := mkPacketTool {
  inBuffer : list Z;             (* arr.array('i') *)
  outBuffer : list Z;            (* arr.array('B') *)
  thisDeviceIdentifier : Z;
  byteIn : InputStream;
  byteOut : option pysocket.Socket;
  pktType : PacketTypeEnum;
  headerValid : bool;
  numPktDataBytes : Z;
  numDataBytesPlusChecksumByte : Z;
  pktChecksum : Z;
  destDeviceIdentifierFromReceivedPkt : Z;
  sourceDeviceIdentifierFromReceivedPkt : Z;
  resyncCount : Z
}.

Definition set_inBuffer (v : list Z) (s : PacketTool) : PacketTool :=
  mkPacketTool v (outBuffer s) (thisDeviceIdentifier s) (byteIn s) (byteOut s)
    (pktType s) (headerValid s) (numPktDataBytes s) (numDataBytesPlusChecksumByte s)
    (pktChecksum s) (destDeviceIdentifierFromReceivedPkt s)
    (sourceDeviceIdentifierFromReceivedPkt s) (resyncCount s).

Definition set_outBuffer (v : list Z) (s : PacketTool) : PacketTool :=
  mkPacketTool (inBuffer s) v (thisDeviceIdentifier s) (byteIn s) (byteOut s)
    (pktType s) (headerValid s) (numPktDataBytes s) (numDataBytesPlusChecksumByte s)
    (pktChecksum s) (destDeviceIdentifierFromReceivedPkt s)
    (sourceDeviceIdentifierFromReceivedPkt s) (resyncCount s).

Definition set_byteIn (v : InputStream) (s : PacketTool) : PacketTool :=
  mkPacketTool (inBuffer s) (outBuffer s) (thisDeviceIdentifier s) v (byteOut s)
    (pktType s) (headerValid s) (numPktDataBytes s) (numDataBytesPlusChecksumByte s)
    (pktChecksum s) (destDeviceIdentifierFromReceivedPkt s)
    (sourceDeviceIdentifierFromReceivedPkt s) (resyncCount s).

Definition set_byteOut (v : option pysocket.Socket) (s : PacketTool) : PacketTool :=
  mkPacketTool (inBuffer s) (outBuffer s) (thisDeviceIdentifier s) (byteIn s) v
    (pktType s) (headerValid s) (numPktDataBytes s) (numDataBytesPlusChecksumByte s)
    (pktChecksum s) (destDeviceIdentifierFromReceivedPkt s)
    (sourceDeviceIdentifierFromReceivedPkt s) (resyncCount s).

Definition set_pktType (v : PacketTypeEnum) (s : PacketTool) : PacketTool :=
  mkPacketTool (inBuffer s) (outBuffer s) (thisDeviceIdentifier s) (byteIn s) (byteOut s)
    v (headerValid s) (numPktDataBytes s) (numDataBytesPlusChecksumByte s)
    (pktChecksum s) (destDeviceIdentifierFromReceivedPkt s)
    (sourceDeviceIdentifierFromReceivedPkt s) (resyncCount s).

Definition set_headerValid (v : bool) (s : PacketTool) : PacketTool :=
  mkPacketTool (inBuffer s) (outBuffer s) (thisDeviceIdentifier s) (byteIn s) (byteOut s)
    (pktType s) v (numPktDataBytes s) (numDataBytesPlusChecksumByte s)
    (pktChecksum s) (destDeviceIdentifierFromReceivedPkt s)
    (sourceDeviceIdentifierFromReceivedPkt s) (resyncCount s).

Definition set_numPktDataBytes (v : Z) (s : PacketTool) : PacketTool :=
  mkPacketTool (inBuffer s) (outBuffer s) (thisDeviceIdentifier s) (byteIn s) (byteOut s)
    (pktType s) (headerValid s) v (numDataBytesPlusChecksumByte s)
    (pktChecksum s) (destDeviceIdentifierFromReceivedPkt s)
    (sourceDeviceIdentifierFromReceivedPkt s) (resyncCount s).

Definition set_numDataBytesPlusChecksumByte (v : Z) (s : PacketTool) : PacketTool :=
  mkPacketTool (inBuffer s) (outBuffer s) (thisDeviceIdentifier s) (byteIn s) (byteOut s)
    (pktType s) (headerValid s) (numPktDataBytes s) v
    (pktChecksum s) (destDeviceIdentifierFromReceivedPkt s)
    (sourceDeviceIdentifierFromReceivedPkt s) (resyncCount s).

Definition set_pktChecksum (v : Z) (s : PacketTool) : PacketTool :=
  mkPacketTool (inBuffer s) (outBuffer s) (thisDeviceIdentifier s) (byteIn s) (byteOut s)
    (pktType s) (headerValid s) (numPktDataBytes s) (numDataBytesPlusChecksumByte s)
    v (destDeviceIdentifierFromReceivedPkt s)
    (sourceDeviceIdentifierFromReceivedPkt s) (resyncCount s).

Definition set_destDeviceIdentifierFromReceivedPkt (v : Z) (s : PacketTool) : PacketTool :=
  mkPacketTool (inBuffer s) (outBuffer s) (thisDeviceIdentifier s) (byteIn s) (byteOut s)
    (pktType s) (headerValid s) (numPktDataBytes s) (numDataBytesPlusChecksumByte s)
    (pktChecksum s) v
    (sourceDeviceIdentifierFromReceivedPkt s) (resyncCount s).

Definition set_sourceDeviceIdentifierFromReceivedPkt (v : Z) (s : PacketTool) : PacketTool :=
  mkPacketTool (inBuffer s) (outBuffer s) (thisDeviceIdentifier s) (byteIn s) (byteOut s)
    (pktType s) (headerValid s) (numPktDataBytes s) (numDataBytesPlusChecksumByte s)
    (pktChecksum s) (destDeviceIdentifierFromReceivedPkt s)
    v (resyncCount s).

Definition set_resyncCount (v : Z) (s : PacketTool) : PacketTool :=
  mkPacketTool (inBuffer s) (outBuffer s) (thisDeviceIdentifier s) (byteIn s) (byteOut s)
    (pktType s) (headerValid s) (numPktDataBytes s) (numDataBytesPlusChecksumByte s)
    (pktChecksum s) (destDeviceIdentifierFromReceivedPkt s)
    (sourceDeviceIdentifierFromReceivedPkt s) v.

(** [PacketTool.__init__] *)
Definition init (pThisDeviceIdentifier : Z) : PacketTool :=
  {| inBuffer := zeros_upto IN_BUFFER_SIZE;
     outBuffer := zeros_upto OUT_BUFFER_SIZE;
     thisDeviceIdentifier := pThisDeviceIdentifier;
     byteIn := NoneTypeClass;
     byteOut := None;
     pktType := NO_PKT;
     headerValid := false;
     numPktDataBytes := 0;
     numDataBytesPlusChecksumByte := 0;
     pktChecksum := 0;
     destDeviceIdentifierFromReceivedPkt := 0;
     sourceDeviceIdentifierFromReceivedPkt := 0;
     resyncCount := 0 |}.

(** [PacketTool.setStreams] *)
Definition setStreams (pInputStream : InputStream) (pOutputStream : option pysocket.Socket)
  : M PacketTool unit :=
  modify (fun self => set_byteOut pOutputStream (set_byteIn pInputStream self)).

(** [PacketTool.reset] *)
Definition reset : M PacketTool unit :=
  modify (fun self =>
    set_resyncCount 0
      (set_sourceDeviceIdentifierFromReceivedPkt 0
        (set_destDeviceIdentifierFromReceivedPkt 0
          (set_pktChecksum 0
            (set_numDataBytesPlusChecksumByte 0
              (set_numPktDataBytes 0
                (set_headerValid false
                  (set_pktType NO_PKT self)))))))).

(** [PacketTool.getPktType] *)
Definition getPktType (self : PacketTool) : PacketTypeEnum := pktType self.

(** A method call [self.byteIn.m(...)]: it runs on the stream object and
    leaves its new state there; neither [type(None)] nor [None] has the
    attribute. *)
Definition on_byteIn {A : Type} (m : M CircularBuffer A) : M PacketTool A :=
  fun self =>
    match byteIn self with
    | Stream b => let '(r, b') := m b in (r, set_byteIn (Stream b') self)
    | NoneTypeClass | NoneObject => (Raise AttributeError, self)
    end.

(** [self.byteIn.available()] *)
Definition byteIn_available : M PacketTool Z :=
  on_byteIn (fun b => (Ok (available b), b)).

(** [self.byteIn.read(self.inBuffer, pOffset, pNumBytesToRead)] *)
Definition byteIn_read (pOffset pNumBytesToRead : Z) : M PacketTool Z :=
  fun self =>
    match byteIn self with
    | Stream b =>
        let '(r, (b', inBuffer')) := read pOffset pNumBytesToRead (b, inBuffer self) in
        (r, set_inBuffer inBuffer' (set_byteIn (Stream b') self))
    | NoneTypeClass | NoneObject => (Raise AttributeError, self)
    end.

(** [PacketTool.peekForValue] *)
Definition peekForValue (pTargetValue : Z) : M PacketTool bool :=
  do peekVal <- on_byteIn peek;
  if negb (peekVal =? pTargetValue) then
    do _ <- on_byteIn retrieve;
    ret false
  else
    ret true.

(** The [while self.byteIn.available() > 0] loop of [PacketTool.resync]. *)
Fixpoint resync_loop (fuel : nat) : M PacketTool unit :=
  do numAvailable <- byteIn_available;
  if numAvailable >? 0 then
    match fuel with
    | O => fun self => (OutOfFuel, self)
    | S fuel' =>
        do found <- peekForValue 0xaa;
        if found then ret tt else resync_loop fuel'
    end
  else ret tt.

(** Iteration bound of the loop: every turn that does not return removes
    one value. *)
Definition resync_fuel (self : PacketTool) : nat :=
  match byteIn self with
  | Stream b => Z.to_nat (available b)
  | NoneTypeClass | NoneObject => O
  end.

(** [PacketTool.resync] *)
Definition resync : M PacketTool unit :=
  do_ modify (fun self => set_resyncCount (resyncCount self + 1) self);
  do self <- get;
  resync_loop (resync_fuel self).

(** [self.pktChecksum += v] *)
Definition add_pktChecksum (v : Z) : M PacketTool unit :=
  modify (fun self => set_pktChecksum (pktChecksum self + v) self).

(** [PacketTool.checkForPacketHeaderAvailable] *)
Definition checkForPacketHeaderAvailable : M PacketTool unit :=
  do numAvailable <- byteIn_available;
  if numAvailable <? 7 then ret tt else
  do_ modify (set_pktChecksum 0);
  do sync0 <- on_byteIn retrieve;
  if negb (sync0 =? 0xaa) then resync else
  do_ add_pktChecksum 0xaa;
  do sync1 <- on_byteIn retrieve;
  if negb (sync1 =? 0x55) then resync else
  do_ add_pktChecksum 0x55;
  do dest <- on_byteIn retrieve;
  do_ modify (set_destDeviceIdentifierFromReceivedPkt dest);
  do_ add_pktChecksum dest;
  do source <- on_byteIn retrieve;
  do_ modify (set_sourceDeviceIdentifierFromReceivedPkt source);
  do_ add_pktChecksum source;
  do pktTypeInt <- on_byteIn retrieve;
  do_ add_pktChecksum pktTypeInt;
  do type <- (fun self => (of_value pktTypeInt, self));
  do_ modify (set_pktType type);
  do numPktDataBytesMSB <- on_byteIn retrieve;
  do_ add_pktChecksum numPktDataBytesMSB;
  do numPktDataBytesLSB <- on_byteIn retrieve;
  do_ add_pktChecksum numPktDataBytesLSB;
  do_ modify (set_numPktDataBytes
                (Z.land (Z.shiftl numPktDataBytesMSB 8) 0xff00
                 + Z.land numPktDataBytesLSB 0xff));
  do_ modify (fun self => set_numDataBytesPlusChecksumByte (numPktDataBytes self + 1) self);
  modify (set_headerValid true).

(** The loop [while i < pStop: self.pktChecksum += self.inBuffer[i]; i = i + 1]
    of [PacketTool.checkForPacketReady]; [pStop - i] turns suffice. *)
Fixpoint checksum_loop (fuel : nat) (i pStop : Z) : M PacketTool unit :=
  if i <? pStop then
    match fuel with
    | O => fun self => (OutOfFuel, self)
    | S fuel' =>
        do v <- (fun self => (getitem (inBuffer self) i, self));
        do_ add_pktChecksum v;
        checksum_loop fuel' (i + 1) pStop
    end
  else ret tt.

(** [PacketTool.checkForPacketReady], from [numBytesAvailable: int =
    self.byteIn.available()] to the end. *)
Definition checkForPacketReady_tail : M PacketTool bool :=
  do numBytesAvailable <- byteIn_available;
  do self <- get;
  if numBytesAvailable <? numDataBytesPlusChecksumByte self then ret false else
  do_ modify (set_headerValid false);
  do _ <- byteIn_read 0 (numDataBytesPlusChecksumByte self);
  do self <- get;
  if negb (destDeviceIdentifierFromReceivedPkt self =? thisDeviceIdentifier self)
  then ret false else
  do_ checksum_loop (Z.to_nat (numDataBytesPlusChecksumByte self)) 0
        (numDataBytesPlusChecksumByte self);
  do self <- get;
  if negb (Z.land (pktChecksum self) 0xff =? 0) then ret false else
  ret true.

(** [PacketTool.checkForPacketReady] *)
Definition checkForPacketReady : M PacketTool bool :=
  do self <- get;
  match byteIn self with
  | NoneObject => ret false
  | NoneTypeClass | Stream _ =>
      if negb (headerValid self) then
        do_ checkForPacketHeaderAvailable;
        do self <- get;
        if negb (headerValid self) then ret false else checkForPacketReady_tail
      else checkForPacketReady_tail
  end.

(** [self.outBuffer[x] = v] *)
Definition outBuffer_set (x v : Z) : M PacketTool unit :=
  fun self =>
    match setitem TC_B (outBuffer self) x v with
    | Ok outBuffer' => (Ok tt, set_outBuffer outBuffer' self)
    | Raise e => (Raise e, self)
    | OutOfFuel => (OutOfFuel, self)
    end.

(** [PacketTool.prepareHeader] *)
Definition prepareHeader (pDestAddress : Z) (pPacketType : PacketTypeEnum)
    (pNumDataBytes : Z) : M PacketTool Z :=
  let x := 0 in
  do_ outBuffer_set x 0xaa;
  let x := x + 1 in
  do_ outBuffer_set x 0x55;
  let x := x + 1 in
  do_ outBuffer_set x pDestAddress;
  let x := x + 1 in
  do self <- get;
  do_ outBuffer_set x (thisDeviceIdentifier self);
  let x := x + 1 in
  do_ outBuffer_set x (value pPacketType);
  let x := x + 1 in
  do_ outBuffer_set x (Z.land (Z.shiftr pNumDataBytes 8) 0xff);
  let x := x + 1 in
  do_ outBuffer_set x (Z.land pNumDataBytes 0xff);
  let x := x + 1 in
  ret x.

(** [self.byteOut.send(data)] *)
Definition byteOut_send (data : list Z) : M PacketTool Z :=
  fun self =>
    match byteOut self with
    | Some sock =>
        let '(r, sock') := pysocket.send data sock in
        (r, set_byteOut (Some sock') self)
    | None => (Raise AttributeError, self)
    end.

(** The [while totalSent < pNumBytesToSend] loop of
    [PacketTool.sendOutBuffer]; a turn that does not raise sends at least
    one byte, so [pNumBytesToSend] turns suffice. *)
Fixpoint sendOutBuffer_loop (fuel : nat) (pNumBytesToSend totalSent : Z)
  : M PacketTool bool :=
  if totalSent <? pNumBytesToSend then
    match fuel with
    | O => fun self => (OutOfFuel, self)
    | S fuel' =>
        do self <- get;
        do sent <- byteOut_send (slice (outBuffer self) totalSent pNumBytesToSend);
        if sent =? 0 then raise SocketBroken
        else sendOutBuffer_loop fuel' pNumBytesToSend (totalSent + sent)
    end
  else ret true.

(** [PacketTool.sendOutBuffer] *)
Definition sendOutBuffer (pNumBytesToSend : Z) : M PacketTool bool :=
  sendOutBuffer_loop (Z.to_nat pNumBytesToSend) pNumBytesToSend 0.

(** The copy loop of [PacketTool.sendString], [while i < msgLength], over
    the message bytes still to copy ([msgBytes[i:]]); returns [x]. *)
Fixpoint sendString_copy (msgBytes : list Z) (x : Z) : M PacketTool Z :=
  match msgBytes with
  | [] => ret x
  | c :: rest =>
      do_ outBuffer_set x c;
      let x := x + 1 in
      if x =? OUT_BUFFER_SIZE - 2 then ret x else sendString_copy rest x
  end.

(** The loop [while j < x: checksum += self.outBuffer[j]; j += 1] of
    [PacketTool.sendString]. *)
Fixpoint sendString_sum (fuel : nat) (outBuffer : list Z) (j x checksum : Z) : result Z :=
  if j <? x then
    match fuel with
    | O => OutOfFuel
    | S fuel' =>
        match getitem outBuffer j with
        | Ok v => sendString_sum fuel' outBuffer (j + 1) x (checksum + v)
        | Raise e => Raise e
        | OutOfFuel => OutOfFuel
        end
    end
  else Ok checksum.

(** [PacketTool.sendString], from the header to the stored checksum byte:
    returns [x], the length of the frame in [outBuffer].  [msgBytes] is
    [str.encode(pString)], the UTF-8 bytes of the string. *)
Definition sendString_frame (pDestAddress : Z) (pPacketType : PacketTypeEnum)
    (msgBytes : list Z) : M PacketTool Z :=
  let msgLength := Z.of_nat (length msgBytes) in
  let msgLengthPlusNullTerminator := msgLength + 1 in
  do x <- prepareHeader pDestAddress pPacketType msgLengthPlusNullTerminator;
  do x <- sendString_copy msgBytes x;
  do x <- (if x <? OUT_BUFFER_SIZE - 1
           then do_ outBuffer_set x 0; ret (x + 1)
           else ret x);
  do self <- get;
  do checksum <- (fun s => (sendString_sum (Z.to_nat x) (outBuffer self) 0 x 0, s));
  do_ outBuffer_set x (0x100 - Z.land checksum 0xff);
  ret (x + 1).

(** [PacketTool.sendString] *)
Definition sendString (pDestAddress : Z) (pPacketType : PacketTypeEnum)
    (msgBytes : list Z) : M PacketTool bool :=
  do x <- sendString_frame pDestAddress pPacketType msgBytes;
  sendOutBuffer x.

(** [PacketTool.signExtend]; [1 << n] raises [ValueError] for a negative
    shift count. *)
Definition signExtend (pValue pBits : Z) : result Z :=
  if pBits - 1 <? 0 then Raise ValueError
  else
    let signBit := Z.shiftl 1 (pBits - 1) in
    let mask := signBit - 1 in
    Ok (Z.land pValue mask - Z.land pValue signBit).

Import packetStatusEnum.

(** Sequencing of plain results, for the parsers, which only read. *)
Definition and_then {A B : Type} (r : result A) (k : A -> result B) : result B :=
  match r with
  | Ok a => k a
  | Raise e => Raise e
  | OutOfFuel => OutOfFuel
  end.

(** [PacketTool.parseUnsignedByteFromPacket]: (status, index, value). *)
Definition parseUnsignedByteFromPacket (self : PacketTool) (pIndex : Z)
  : result (PacketStatusEnum * Z * Z) :=
  and_then (getitem (inBuffer self) pIndex) (fun value =>
  let pIndex := pIndex + 1 in
  and_then (signExtend value 8) (fun value =>
  let status := PACKET_VALID in
  Ok (status, pIndex, value))).

(** [PacketTool.parseDuplexIntegerFromPacket]: (status, index, value). *)
Definition parseDuplexIntegerFromPacket (self : PacketTool) (pIndex : Z)
  : result (PacketStatusEnum * Z * Z) :=
  and_then (getitem (inBuffer self) pIndex) (fun valueMSB =>
  let pIndex := pIndex + 1 in
  and_then (getitem (inBuffer self) pIndex) (fun valueLSB =>
  let pIndex := pIndex + 1 in
  let value := Z.land (Z.shiftl valueMSB 8) 0xff00 + Z.land valueLSB 0xff in
  and_then (signExtend value 16) (fun value =>
  and_then (getitem (inBuffer self) pIndex) (fun copyMSB =>
  let pIndex := pIndex + 1 in
  and_then (getitem (inBuffer self) pIndex) (fun copyLSB =>
  let pIndex := pIndex + 1 in
  let copy := Z.land (Z.shiftl copyMSB 8) 0xff00 + Z.land copyLSB 0xff in
  and_then (signExtend copy 16) (fun copy =>
  let status := if value =? copy then PACKET_VALID else DUPLEX_MATCH_ERROR in
  Ok (status, pIndex, value))))))).

End packetTool.

(** ** ethernetLink.py *)

Module ethernetLink.

Import circularBuffer.

Definition RECEIVE_BUFFER_SIZE : Z := 50.

(** The fields of an [EthernetLink] that [disconnect], [getConnected] and
    the receive pump use.  [clientSocket] is [None] until a connection is
    accepted. *)
Record EthernetLink : Type := mkEthernetLink {
  connected : bool;
  receiveBuf : CircularBuffer;
  clientSocket : option pysocket.Socket
}.

(** [EthernetLink.__init__] *)
Definition init : EthernetLink :=
  {| connected := false;
     receiveBuf := circularBuffer.init RECEIVE_BUFFER_SIZE;
     clientSocket := None |}.

(** The accepting branch of [connectToRemoteIfRequestPending]: [pending]
    is the socket [server_socket.accept()] returns when a request waits. *)
Definition connectToRemoteIfRequestPending (pending : option pysocket.Socket)
  : M EthernetLink Z :=
  fun self =>
    if negb (connected self) then
      match pending with
      | None => (Ok 0, self)
      | Some sock =>
          (Ok 1,
           {| connected := true;
              receiveBuf := receiveBuf self;
              clientSocket := Some sock |})
      end
    else (Ok 0, self).

(** [EthernetLink.getConnected] *)
Definition getConnected (self : EthernetLink) : bool := connected self.

(** A method call [self.clientSocket.m(...)]; [None] has no attributes. *)
Definition on_clientSocket {A : Type} (m : M pysocket.Socket A) : M EthernetLink A :=
  fun self =>
    match clientSocket self with
    | Some sock =>
        let '(r, sock') := m sock in
        (r, {| connected := connected self;
               receiveBuf := receiveBuf self;
               clientSocket := Some sock' |})
    | None => (Raise AttributeError, self)
    end.

(** [try: c  except OSError: h] *)
Definition except_OSError {St A : Type} (c : M St A) (h : M St A) : M St A :=
  fun s =>
    match c s with
    | (Raise OSError, s') => h s'
    | other => other
    end.

(** [EthernetLink.disconnect] *)
Definition disconnect : M EthernetLink Z :=
  do_ (fun self =>
         let '(r, buf') := circularBuffer.reset (receiveBuf self) in
         (r, {| connected := connected self;
                receiveBuf := buf';
                clientSocket := clientSocket self |}));
  do_ modify (fun self =>
                {| connected := false;
                   receiveBuf := receiveBuf self;
                   clientSocket := clientSocket self |});
  do_ except_OSError (on_clientSocket pysocket.shutdown) (ret tt);
  do_ except_OSError (on_clientSocket pysocket.close) (raise SocketBroken);
  ret 0.

End ethernetLink.

(** ** controllerHandler.py *)

Module controllerHandler.

Import String.

(** [str.encode(s)] for a string of ASCII characters: one byte each. *)
Definition encode (s : String.string) : list Z :=
  map (fun c => Z.of_N (Ascii.N_of_ascii c)) (String.list_ascii_of_string s).

(** The loop [for c in msgBytes: if idx > 0: cheChecksum = cheChecksum +
    int(c); idx = idx + 1] of [ControllerHandler.calcPacketChecksum];
    returns [cheChecksum]. *)
Fixpoint calcPacketChecksum_loop (msgBytes : list Z) (idx cheChecksum : Z) : Z :=
  match msgBytes with
  | [] => cheChecksum
  | c :: rest =>
      let cheChecksum := if idx >? 0 then cheChecksum + c else cheChecksum in
      calcPacketChecksum_loop rest (idx + 1) cheChecksum
  end.

(** [ControllerHandler.calcPacketChecksum] *)
Definition calcPacketChecksum (msgBytes : list Z) : Z :=
  let cheChecksum := calcPacketChecksum_loop msgBytes 0 0 in
  0xff - Z.land cheChecksum 0xff.

(** [ControllerHandler.formMagniSpeedMessage]; [speedCmd] is a Python list
    of seven items, so the subscript stores are in range. *)
Definition formMagniSpeedMessage (leftSpeed rightSpeed : Z) : list Z :=
  let speedCmd := [0x7e; 0x3b; 0x2a; 0; 0; 0; 0] in
  let speedCmd :=
    if rightSpeed <? 0 then
      let speedCmd := <[3%nat:=0xff]> speedCmd in
      <[4%nat:=Z.land (0x100 - Z.land (-1 * rightSpeed) 0xff) 0xff]> speedCmd
    else
      <[4%nat:=Z.land rightSpeed 0xff]> speedCmd in
  let speedCmd :=
    if leftSpeed <? 0 then
      let speedCmd := <[5%nat:=0xff]> speedCmd in
      <[6%nat:=Z.land (0x100 - Z.land (-1 * leftSpeed) 0xff) 0xff]> speedCmd
    else
      <[6%nat:=Z.land leftSpeed 0xff]> speedCmd in
  let pktChecksum := calcPacketChecksum speedCmd in
  speedCmd ++ [pktChecksum].

(** The greeting [handleGetDeviceInfoPacket] sends. *)
Definition greeting : String.string := "Hello from Ubiquity Magni Robot Base!"%string.

(** [ControllerHandler.handleGetDeviceInfoPacket], on the handler's
    [packetTool]; [remoteDeviceIdentifier] is the handler's field. *)
Definition handleGetDeviceInfoPacket (remoteDeviceIdentifier : Z)
  : M packetTool.PacketTool Z :=
  do _ <- packetTool.sendString remoteDeviceIdentifier packetTypeEnum.LOG_MESSAGE
            (encode greeting);
  ret 1.

End controllerHandler.

(** ** Specification-side vocabulary *)

Import circularBuffer.

(** Representation invariant of a ring buffer of positive nominal size:
    [bufferSize + 1] slots, both cursors below [bufferSize], every slot an
    item of type code ['i']. *)
Definition wf (b : CircularBuffer) : Prop :=
  1 <= bufferSize b /\
  Z.of_nat (length (buffer b)) = bufferSize b + 1 /\
  0 <= nextInsertIndex b < bufferSize b /\
  0 <= nextRetrieveIndex b < bufferSize b /\
  Forall (fun v => fits TC_i v = true) (buffer b).

(** The slot holding the [k]-th value after the retrieve cursor. *)
Definition slot_index (b : CircularBuffer) (k : nat) : Z :=
  let p := nextRetrieveIndex b + Z.of_nat k in
  if p <? bufferSize b then p else p - bufferSize b.

Definition slot (b : CircularBuffer) (k : nat) : Z :=
  default 0 (buffer b !! Z.to_nat (slot_index b k)).

(** The retrievable values, oldest first. *)
Definition contents (b : CircularBuffer) : list Z :=
  map (slot b) (seq 0 (Z.to_nat (available b))).

(** The states a [CircularBuffer(C)] can be in: any sequence of calls of its
    methods, whatever they return or raise, from the constructor's state. *)
Inductive reachable (C : Z) : CircularBuffer -> Prop :=
| reach_init : reachable C (init C)
| reach_reset b : reachable C b -> reachable C (snd (reset b))
| reach_append b v : reachable C b -> reachable C (snd (append v b))
| reach_retrieve b : reachable C b -> reachable C (snd (retrieve b))
| reach_peek b : reachable C b -> reachable C (snd (peek b))
| reach_read b pBuffer pOffset pNumBytesToRead :
    reachable C b ->
    reachable C (fst (snd (read pOffset pNumBytesToRead (b, pBuffer)))).

Definition sumZ (l : list Z) : Z := foldr Z.add 0 l.

(** The byte that makes the sum of a frame a multiple of 256. *)
Definition checksum_byte (preceding : list Z) : Z :=
  (256 - sumZ preceding mod 256) mod 256.

(** Big-endian 16-bit two's-complement value of two bytes. *)
Definition int16_be (msb lsb : Z) : Z :=
  let u := 256 * msb + lsb in
  if u <? 32768 then u else u - 65536.

Definition is_byte (v : Z) : Prop := 0 <= v <= 255.

(** The values [resync] leaves in the stream: everything from the first
    [0xAA] on. *)
Fixpoint from_sync (l : list Z) : list Z :=
  match l with
  | [] => []
  | v :: rest => if v =? 0xaa then l else from_sync rest
  end.

(** The values waiting in a tool's inbound stream, oldest first. *)
Definition inbound (self : packetTool.PacketTool) : list Z :=
  match packetTool.byteIn self with
  | packetTool.Stream b => contents b
  | packetTool.NoneTypeClass | packetTool.NoneObject => []
  end.

(** The bytes [sendString] assembles before the checksum: the header, at
    most 1015 bytes of the text, and the null terminator. *)
Definition sendString_body (pDestAddress thisDevice : Z)
    (pPacketType : packetTypeEnum.PacketTypeEnum) (msgBytes : list Z) : list Z :=
  let n := Z.of_nat (length msgBytes) + 1 in
  [0xaa; 0x55; pDestAddress; thisDevice; packetTypeEnum.value pPacketType;
   Z.land (Z.shiftr n 8) 0xff; Z.land n 0xff]
  ++ take 1015 msgBytes ++ [0].

(** ** Facts about the monad and the arrays *)

Lemma bind_Ok {St A B : Type} (c : M St A) (k : A -> M St B) s a s' :
  c s = (Ok a, s') -> bind c k s = k a s'.
Proof. intros H. unfold bind. now rewrite H. Qed.

Lemma bind_Raise {St A B : Type} (c : M St A) (k : A -> M St B) s e s' :
  c s = (Raise e, s') -> bind c k s = (Raise e, s').
Proof. intros H. unfold bind. now rewrite H. Qed.

Lemma py_index_in_range len i :
  0 <= i < len -> py_index len i = Some (Z.to_nat i).
Proof.
  intros H. unfold py_index.
  destruct (Z.leb_spec 0 i); try lia.
  destruct (Z.ltb_spec i len); try lia.
  reflexivity.
Qed.

Lemma getitem_in_range (a : list Z) i :
  0 <= i < Z.of_nat (length a) ->
  getitem a i = Ok (default 0 (a !! Z.to_nat i)).
Proof.
  intros H. unfold getitem. rewrite py_index_in_range by lia.
  destruct (lookup_lt_is_Some_2 a (Z.to_nat i)) as [v Hv]; [lia |].
  now rewrite Hv.
Qed.

Lemma getitem_lookup (a : list Z) i v :
  0 <= i -> a !! Z.to_nat i = Some v -> getitem a i = Ok v.
Proof.
  intros Hi Hv. pose proof (lookup_lt_Some _ _ _ Hv).
  rewrite getitem_in_range by lia. now rewrite Hv.
Qed.

Lemma setitem_in_range tc (a : list Z) i v :
  0 <= i < Z.of_nat (length a) -> fits tc v = true ->
  setitem tc a i v = Ok (<[Z.to_nat i:=v]> a).
Proof.
  intros H Hv. unfold setitem. rewrite py_index_in_range by lia. now rewrite Hv.
Qed.

Lemma fits_i_default (a : list Z) n :
  Forall (fun v => fits TC_i v = true) a -> fits TC_i (default 0 (a !! n)) = true.
Proof.
  intros Ha. destruct (a !! n) as [v|] eqn:E; [| reflexivity].
  simpl. exact (proj1 (Forall_lookup _ a) Ha n v E).
Qed.

Lemma Forall_fits_insert (a : list Z) n v :
  Forall (fun v => fits TC_i v = true) a -> fits TC_i v = true ->
  Forall (fun v => fits TC_i v = true) (<[n:=v]> a).
Proof. intros Ha Hv. now apply Forall_insert. Qed.

(** ** Facts about the ring buffer *)

Lemma wf_init C : 1 <= C -> wf (init C).
Proof.
  intros HC. unfold wf, init, zeros_upto. simpl.
  rewrite length_replicate.
  repeat split; try lia.
  apply Forall_replicate. reflexivity.
Qed.

Lemma available_range b : wf b -> 0 <= available b <= bufferSize b - 1.
Proof.
  intros (HC & _ & Hi & Hr & _). unfold available.
  destruct (Z.geb_spec (nextInsertIndex b) (nextRetrieveIndex b)); lia.
Qed.

Lemma length_contents b : length (contents b) = Z.to_nat (available b).
Proof. unfold contents. now rewrite length_map, length_seq. Qed.

Lemma contents_nil b : wf b -> (contents b = [] <-> available b = 0).
Proof.
  intros Hwf. pose proof (available_range b Hwf).
  pose proof (length_contents b) as HL. split; intros H0.
  - rewrite H0 in HL. simpl in HL. lia.
  - destruct (contents b); [reflexivity | simpl in HL; lia].
Qed.

Lemma slot_index_range b k :
  wf b -> (k < Z.to_nat (bufferSize b))%nat ->
  0 <= slot_index b k < bufferSize b.
Proof.
  intros (HC & _ & _ & Hr & _) Hk. unfold slot_index.
  destruct (Z.ltb_spec (nextRetrieveIndex b + Z.of_nat k) (bufferSize b)); lia.
Qed.

Lemma wf_reset b : wf b -> wf (snd (reset b)).
Proof. intros (HC & HL & _ & _ & HF). unfold wf. simpl. repeat split; (lia || assumption). Qed.

Lemma retrieve_empty b :
  available b = 0 -> retrieve b = (Raise NoBytesAvailable, b).
Proof. intros H. unfold retrieve. now rewrite H. Qed.

Lemma peek_empty b :
  available b = 0 -> peek b = (Raise NoBytesAvailable, b).
Proof. intros H. unfold peek. now rewrite H. Qed.

Lemma retrieve_nonempty b :
  wf b -> available b <> 0 ->
  exists b',
    retrieve b = (Ok (slot b 0), b') /\ wf b' /\
    bufferSize b' = bufferSize b /\
    available b' = available b - 1 /\
    contents b = slot b 0 :: contents b'.
Proof.
  intros Hwf Hne.
  pose proof (available_range b Hwf) as Hav.
  destruct Hwf as (HC & HL & Hi & Hr & HF).
  unfold retrieve.
  destruct (Z.eqb_spec (available b) 0) as [|_]; [contradiction |].
  rewrite getitem_in_range by lia.
  eexists. split.
  { unfold slot, slot_index. rewrite Z.add_0_r.
    destruct (Z.ltb_spec (nextRetrieveIndex b) (bufferSize b)); [reflexivity | lia]. }
  set (b' := mkCircularBuffer _ _ _ _).
  assert (Hav' : available b' = available b - 1).
  { unfold available, b'. simpl.
    destruct (Z.eqb_spec (nextRetrieveIndex b + 1) (bufferSize b));
      unfold available in Hne, Hav;
      destruct (Z.geb_spec (nextInsertIndex b) (nextRetrieveIndex b));
      destruct (Z.geb_spec (nextInsertIndex b) 0);
      destruct (Z.geb_spec (nextInsertIndex b) (nextRetrieveIndex b + 1)); lia. }
  split; [| split; [reflexivity | split; [exact Hav' |]]].
  { unfold wf, b'. simpl.
    destruct (Z.eqb_spec (nextRetrieveIndex b + 1) (bufferSize b));
      repeat split; (lia || assumption). }
  unfold contents. rewrite Hav'.
  replace (Z.to_nat (available b)) with (S (Z.to_nat (available b - 1))) by lia.
  simpl. f_equal.
  rewrite <- seq_shift, map_map.
  apply map_ext_in. intros k Hk. apply in_seq in Hk.
  unfold slot, slot_index, b'. simpl.
  f_equal. f_equal. f_equal.
  destruct (Z.eqb_spec (nextRetrieveIndex b + 1) (bufferSize b));
    destruct (Z.ltb_spec (nextRetrieveIndex b + Z.of_nat (S k)) (bufferSize b));
    destruct (Z.ltb_spec (0 + Z.of_nat k) (bufferSize b));
    destruct (Z.ltb_spec (nextRetrieveIndex b + 1 + Z.of_nat k) (bufferSize b)); lia.
Qed.

Lemma retrieve_cons b x xs :
  wf b -> contents b = x :: xs ->
  exists b',
    retrieve b = (Ok x, b') /\ wf b' /\
    bufferSize b' = bufferSize b /\ contents b' = xs.
Proof.
  intros Hwf Hc.
  assert (Hne : available b <> 0).
  { intros H0. apply (contents_nil b Hwf) in H0. congruence. }
  destruct (retrieve_nonempty b Hwf Hne) as (b' & Hr & Hwf' & HC & _ & Hc').
  rewrite Hc in Hc'. injection Hc' as -> ->.
  exists b'. auto.
Qed.

Lemma peek_cons b x xs :
  wf b -> contents b = x :: xs -> peek b = (Ok x, b).
Proof.
  intros Hwf Hc.
  assert (Hne : available b <> 0).
  { intros H0. apply (contents_nil b Hwf) in H0. congruence. }
  pose proof (available_range b Hwf) as Hav.
  destruct (retrieve_nonempty b Hwf Hne) as (b' & _ & _ & _ & _ & Hc').
  rewrite Hc in Hc'. injection Hc' as -> _.
  destruct Hwf as (HC & HL & Hi & Hr & HF).
  unfold peek.
  destruct (Z.eqb_spec (available b) 0) as [|_]; [contradiction |].
  rewrite getitem_in_range by lia.
  unfold slot, slot_index. rewrite Z.add_0_r.
  destruct (Z.ltb_spec (nextRetrieveIndex b) (bufferSize b)); [reflexivity | lia].
Qed.

Lemma append_step b v :
  wf b -> fits TC_i v = true ->
  exists b',
    append v b = (Ok tt, b') /\ wf b' /\
    bufferSize b' = bufferSize b /\
    nextRetrieveIndex b' = nextRetrieveIndex b /\
    nextInsertIndex b' = (nextInsertIndex b + 1) mod bufferSize b /\
    buffer b' = <[Z.to_nat (nextInsertIndex b):=v]> (buffer b).
Proof.
  intros (HC & HL & Hi & Hr & HF) Hv.
  unfold append. rewrite setitem_in_range by (assumption || lia).
  eexists. split; [reflexivity |].
  simpl. split; [| split; [reflexivity | split; [reflexivity | split; [| reflexivity]]]].
  - unfold wf. simpl. rewrite length_insert.
    destruct (Z.eqb_spec (nextInsertIndex b + 1) (bufferSize b));
      repeat split; try (lia || assumption); now apply Forall_fits_insert.
  - destruct (Z.eqb_spec (nextInsertIndex b + 1) (bufferSize b)) as [E|E].
    + rewrite E. now rewrite Z.mod_same by lia.
    + now rewrite Z.mod_small by lia.
Qed.

Lemma append_snoc b v :
  wf b -> fits TC_i v = true -> available b < bufferSize b - 1 ->
  exists b',
    append v b = (Ok tt, b') /\ wf b' /\
    bufferSize b' = bufferSize b /\
    contents b' = contents b ++ [v].
Proof.
  intros Hwf Hv Hroom.
  destruct (append_step b v Hwf Hv) as (b' & Ha & Hwf' & HC' & Hr' & Hi' & Hb').
  exists b'. split; [exact Ha |]. split; [exact Hwf' |]. split; [exact HC' |].
  pose proof (available_range b Hwf) as Hav.
  destruct Hwf as (HC & HL & Hi & Hr & HF).
  assert (Hins : nextInsertIndex b' =
                 if nextInsertIndex b + 1 =? bufferSize b then 0 else nextInsertIndex b + 1).
  { rewrite Hi'. destruct (Z.eqb_spec (nextInsertIndex b + 1) (bufferSize b)) as [E|E].
    - rewrite E. now rewrite Z.mod_same by lia.
    - now rewrite Z.mod_small by lia. }
  assert (Hav' : available b' = available b + 1).
  { unfold available in *. rewrite Hins, Hr'. rewrite HC'.
    destruct (Z.eqb_spec (nextInsertIndex b + 1) (bufferSize b));
      destruct (Z.geb_spec (nextInsertIndex b) (nextRetrieveIndex b));
      destruct (Z.geb_spec 0 (nextRetrieveIndex b));
      destruct (Z.geb_spec (nextInsertIndex b + 1) (nextRetrieveIndex b)); lia. }
  unfold contents. rewrite Hav'.
  replace (Z.to_nat (available b + 1)) with (Z.to_nat (available b) + 1)%nat by lia.
  rewrite seq_app, map_app. simpl. f_equal.
  - apply map_ext_in. intros k Hk. apply in_seq in Hk.
    unfold slot, slot_index. rewrite Hb', Hr', HC'.
    rewrite list_lookup_insert_ne; [reflexivity |].
    unfold available in Hk, Hroom.
    destruct (Z.geb_spec (nextInsertIndex b) (nextRetrieveIndex b));
      destruct (Z.ltb_spec (nextRetrieveIndex b + Z.of_nat k) (bufferSize b)); lia.
  - f_equal. unfold slot, slot_index. rewrite Hb', Hr', HC'.
    replace (Z.to_nat _) with (Z.to_nat (nextInsertIndex b)).
    + rewrite list_lookup_insert_eq by lia. reflexivity.
    + unfold available.
      destruct (Z.geb_spec (nextInsertIndex b) (nextRetrieveIndex b));
        match goal with |- context [?a <? ?c] => destruct (Z.ltb_spec a c) end; lia.
Qed.

Lemma append_all_contents vs : forall b,
  wf b -> Forall (fun v => fits TC_i v = true) vs ->
  available b + Z.of_nat (length vs) <= bufferSize b - 1 ->
  exists b',
    append_all vs b = (Ok tt, b') /\ wf b' /\
    bufferSize b' = bufferSize b /\
    contents b' = contents b ++ vs.
Proof.
  induction vs as [| v vs IH]; intros b Hwf Hfits Hroom.
  - exists b. simpl. rewrite app_nil_r. auto.
  - inversion Hfits as [| ? ? Hv Hvs]; subst. simpl in Hroom.
    destruct (append_snoc b v Hwf Hv) as (b1 & Ha & Hwf1 & HC1 & Hc1); [lia |].
    assert (Hav1 : available b1 = available b + 1).
    { pose proof (length_contents b1) as L1. pose proof (length_contents b) as L0.
      rewrite Hc1, length_app in L1. simpl in L1.
      pose proof (available_range b Hwf). pose proof (available_range b1 Hwf1). lia. }
    destruct (IH b1 Hwf1 Hvs) as (b' & Ha' & Hwf' & HC' & Hc'); [lia |].
    exists b'. simpl. rewrite (bind_Ok _ _ _ _ _ Ha).
    split; [exact Ha' |]. split; [exact Hwf' |]. split; [congruence |].
    rewrite Hc', Hc1, <- app_assoc. reflexivity.
Qed.

Lemma append_all_cursor vs : forall b,
  wf b -> Forall (fun v => fits TC_i v = true) vs ->
  exists b',
    append_all vs b = (Ok tt, b') /\ wf b' /\
    bufferSize b' = bufferSize b /\
    nextRetrieveIndex b' = nextRetrieveIndex b /\
    nextInsertIndex b' = (nextInsertIndex b + Z.of_nat (length vs)) mod bufferSize b.
Proof.
  induction vs as [| v vs IH]; intros b Hwf Hfits.
  - exists b. simpl. pose proof Hwf as (HC & HL & Hi & Hr & HF).
    rewrite Z.add_0_r, Z.mod_small by lia. auto.
  - inversion Hfits as [| ? ? Hv Hvs]; subst.
    destruct (append_step b v Hwf Hv) as (b1 & Ha & Hwf1 & HC1 & Hr1 & Hi1 & _).
    destruct (IH b1 Hwf1 Hvs) as (b' & Ha' & Hwf' & HC' & Hr' & Hi').
    exists b'. simpl append_all. rewrite (bind_Ok _ _ _ _ _ Ha).
    split; [exact Ha' |]. split; [exact Hwf' |]. split; [congruence |].
    split; [congruence |].
    rewrite Hi', Hi1, HC1. destruct Hwf as (HC & _).
    rewrite Zplus_mod_idemp_l. f_equal. simpl length. lia.
Qed.

Lemma wf_append v b : wf b -> wf (snd (append v b)).
Proof.
  intros Hwf. destruct (fits TC_i v) eqn:Hv.
  - destruct (append_step b v Hwf Hv) as (b' & Ha & Hwf' & _). now rewrite Ha.
  - destruct Hwf as (HC & HL & Hi & Hr & HF).
    unfold append, setitem. rewrite py_index_in_range by lia. rewrite Hv.
    simpl. unfold wf. auto.
Qed.

Lemma wf_retrieve b : wf b -> wf (snd (retrieve b)).
Proof.
  intros Hwf. destruct (Z.eq_dec (available b) 0) as [E|E].
  - now rewrite retrieve_empty.
  - destruct (retrieve_nonempty b Hwf E) as (b' & Hr & Hwf' & _). now rewrite Hr.
Qed.

Lemma wf_peek b : wf b -> wf (snd (peek b)).
Proof.
  intros Hwf. unfold peek.
  destruct (available b =? 0); [assumption |].
  destruct (getitem _ _) as [?|?|]; assumption.
Qed.

Lemma wf_read_loop fuel n : forall count i b pBuffer,
  wf b -> wf (fst (snd (read_loop fuel n count i (b, pBuffer)))).
Proof.
  induction fuel as [| fuel IH]; intros count i b pBuffer Hwf; simpl.
  - destruct (count <=? n); assumption.
  - destruct (count <=? n); [| assumption].
    pose proof (wf_retrieve b Hwf) as Hwf'.
    destruct (retrieve b) as [[v | e |] b']; simpl in Hwf'.
    + destruct (setitem TC_i pBuffer i v) as [pBuffer' | e |]; try assumption.
      now apply IH.
    + destruct e; assumption.
    + assumption.
Qed.

Lemma bufferSize_append v b : bufferSize (snd (append v b)) = bufferSize b.
Proof. unfold append. destruct (setitem _ _ _ _) as [?|?|]; reflexivity. Qed.

Lemma bufferSize_retrieve b : bufferSize (snd (retrieve b)) = bufferSize b.
Proof.
  unfold retrieve. destruct (available b =? 0); [reflexivity |].
  destruct (getitem _ _) as [?|?|]; reflexivity.
Qed.

Lemma bufferSize_peek b : bufferSize (snd (peek b)) = bufferSize b.
Proof.
  unfold peek. destruct (available b =? 0); [reflexivity |].
  destruct (getitem _ _) as [?|?|]; reflexivity.
Qed.

Lemma bufferSize_read_loop fuel n : forall count i b pBuffer,
  bufferSize (fst (snd (read_loop fuel n count i (b, pBuffer)))) = bufferSize b.
Proof.
  induction fuel as [| fuel IH]; intros count i b pBuffer; simpl.
  - destruct (count <=? n); reflexivity.
  - destruct (count <=? n); [| reflexivity].
    pose proof (bufferSize_retrieve b) as HR.
    destruct (retrieve b) as [[v | e |] b']; simpl in HR.
    + destruct (setitem TC_i pBuffer i v) as [pBuffer' | e |]; try exact HR.
      rewrite IH. exact HR.
    + destruct e; exact HR.
    + exact HR.
Qed.

(** Every state a [CircularBuffer(C)] reaches satisfies the invariant. *)
Lemma reachable_wf C b : 1 <= C -> reachable C b -> wf b /\ bufferSize b = C.
Proof.
  intros HC Hreach. induction Hreach as
    [| b _ [IH IHC] | b v _ [IH IHC] | b _ [IH IHC] | b _ [IH IHC]
     | b pBuffer pOffset n _ [IH IHC]].
  - split; [now apply wf_init | reflexivity].
  - split; [now apply wf_reset | exact IHC].
  - split; [now apply wf_append | now rewrite bufferSize_append].
  - split; [now apply wf_retrieve | now rewrite bufferSize_retrieve].
  - split; [now apply wf_peek | now rewrite bufferSize_peek].
  - split; [now apply wf_read_loop | unfold read; now rewrite bufferSize_read_loop].
Qed.

(** What [read] does on a well-formed buffer when the caller's array is long
    enough: it moves [min (available, pNumBytesToRead + 1 - count)] values. *)
Lemma read_loop_spec n fuel : forall count i b pBuffer,
  wf b -> 0 <= i ->
  (Z.to_nat (n + 1 - count) <= fuel)%nat ->
  let m := Z.min (available b) (Z.max 0 (n + 1 - count)) in
  i + m <= Z.of_nat (length pBuffer) ->
  exists b',
    read_loop fuel n count i (b, pBuffer) =
      (Ok (i + m),
       (b', take (Z.to_nat i) pBuffer ++ take (Z.to_nat m) (contents b)
              ++ drop (Z.to_nat (i + m)) pBuffer)) /\
    wf b' /\ bufferSize b' = bufferSize b /\
    contents b' = drop (Z.to_nat m) (contents b).
Proof.
  induction fuel as [| fuel IH]; intros count i b pBuffer Hwf Hi Hfuel m Hlen;
    pose proof (available_range b Hwf) as Hav; simpl.
  - destruct (Z.leb_spec count n) as [Hc|Hc]; [lia |].
    assert (Hm : m = 0) by (unfold m; lia). rewrite Hm in *.
    exists b. rewrite Z.add_0_r. simpl. rewrite take_drop. auto.
  - destruct (Z.leb_spec count n) as [Hc|Hc].
    2:{ assert (Hm : m = 0) by (unfold m; lia). rewrite Hm in *.
        exists b. rewrite Z.add_0_r. simpl. rewrite take_drop. auto. }
    destruct (Z.eq_dec (available b) 0) as [E|E].
    { rewrite (retrieve_empty b E).
      assert (Hm : m = 0) by (unfold m; lia). rewrite Hm in *.
      exists b. rewrite Z.add_0_r. simpl. rewrite take_drop. auto. }
    destruct (retrieve_nonempty b Hwf E) as (b1 & Hr & Hwf1 & HC1 & Hav1 & Hc1).
    rewrite Hr.
    assert (Hm : 1 <= m) by (unfold m; lia).
    rewrite setitem_in_range; [| lia | apply fits_i_default; apply Hwf].
    set (pBuffer1 := <[Z.to_nat i:=slot b 0]> pBuffer).
    destruct (IH (count + 1) (i + 1) b1 pBuffer1 Hwf1) as (b' & Hl & Hwf' & HC' & Hc');
      [lia | lia | unfold pBuffer1; rewrite length_insert, Hav1; lia |].
    assert (Hm1 : Z.min (available b1) (Z.max 0 (n + 1 - (count + 1))) = m - 1)
      by (rewrite Hav1; unfold m; lia).
    rewrite Hm1 in Hl, Hc'.
    exists b'. split; [| split; [exact Hwf' | split; [congruence |]]].
    + rewrite Hl. f_equal; [f_equal; lia |]. f_equal.
      rewrite Hc1. unfold pBuffer1.
      replace (Z.to_nat (i + 1)) with (S (Z.to_nat i)) by lia.
      replace (Z.to_nat m) with (S (Z.to_nat (m - 1))) by lia.
      replace (Z.to_nat (i + 1 + (m - 1))) with (Z.to_nat (i + m)) by lia.
      rewrite (take_S_r _ _ (slot b 0)) by (apply list_lookup_insert_eq; lia).
      rewrite take_insert_ge by lia.
      rewrite drop_insert_lt by lia.
      simpl. rewrite <- app_assoc. reflexivity.
    + rewrite Hc', Hc1.
      replace (Z.to_nat m) with (S (Z.to_nat (m - 1))) by lia. reflexivity.
Qed.

Lemma read_spec pOffset n b pBuffer :
  wf b -> 0 <= pOffset -> 0 <= n ->
  let m := Z.min (available b) (n + 1) in
  pOffset + m <= Z.of_nat (length pBuffer) ->
  exists b',
    read pOffset n (b, pBuffer) =
      (Ok (pOffset + m),
       (b', take (Z.to_nat pOffset) pBuffer ++ take (Z.to_nat m) (contents b)
              ++ drop (Z.to_nat (pOffset + m)) pBuffer)) /\
    wf b' /\ bufferSize b' = bufferSize b /\
    contents b' = drop (Z.to_nat m) (contents b).
Proof.
  intros Hwf Hoff Hn m Hlen. unfold read.
  destruct (read_loop_spec n (Z.to_nat (n + 1)) 0 pOffset b pBuffer Hwf Hoff)
    as (b' & Hl & Hrest).
  - lia.
  - replace (Z.max 0 (n + 1 - 0)) with (n + 1) by lia. exact Hlen.
  - replace (Z.max 0 (n + 1 - 0)) with (n + 1) in Hl, Hrest by lia.
    exists b'. split; [exact Hl | exact Hrest].
Qed.

(** ** Facts about the framing engine *)

Import packetTool.

Lemma on_byteIn_Stream {A : Type} (m : M CircularBuffer A) pt b r b' :
  byteIn pt = Stream b -> m b = (r, b') ->
  on_byteIn m pt = (r, set_byteIn (Stream b') pt).
Proof. intros Hb Hm. unfold on_byteIn. now rewrite Hb, Hm. Qed.

Lemma byteIn_available_Stream pt b :
  byteIn pt = Stream b ->
  byteIn_available pt = (Ok (available b), set_byteIn (Stream b) pt).
Proof. intros Hb. unfold byteIn_available. now apply (on_byteIn_Stream _ pt b). Qed.

Lemma set_byteIn_twice s1 s2 pt :
  set_byteIn s2 (set_byteIn s1 pt) = set_byteIn s2 pt.
Proof. reflexivity. Qed.

Lemma from_sync_split l :
  exists dropped,
    l = dropped ++ from_sync l /\
    Forall (fun v => v <> 0xaa) dropped /\
    (from_sync l = [] \/ exists rest, from_sync l = 0xaa :: rest).
Proof.
  induction l as [| v l (dropped & Hl & Hd & Hhead)].
  - exists []. simpl. auto.
  - simpl. destruct (Z.eqb_spec v 0xaa) as [-> | Hne].
    + exists []. simpl. split; [reflexivity |]. split; [constructor |]. right. eauto.
    + exists (v :: dropped). simpl. split; [now f_equal |]. split; [| exact Hhead].
      now constructor.
Qed.

Lemma peekForValue_spec pt b x xs :
  byteIn pt = Stream b -> wf b -> contents b = x :: xs ->
  if x =? 0xaa then peekForValue 0xaa pt = (Ok true, set_byteIn (Stream b) pt)
  else exists b',
      peekForValue 0xaa pt = (Ok false, set_byteIn (Stream b') pt) /\
      wf b' /\ bufferSize b' = bufferSize b /\ contents b' = xs.
Proof.
  intros Hb Hwf Hc. unfold peekForValue.
  rewrite (bind_Ok _ _ _ _ _ (on_byteIn_Stream peek pt b _ _ Hb (peek_cons b x xs Hwf Hc))).
  destruct (x =? 0xaa); simpl; [reflexivity |].
  destruct (retrieve_cons b x xs Hwf Hc) as (b' & Hr & Hwf' & HC & Hc').
  exists b'. split; [| auto].
  rewrite (bind_Ok _ _ _ _ _
             (on_byteIn_Stream retrieve (set_byteIn (Stream b) pt) b _ _ eq_refl Hr)).
  reflexivity.
Qed.

Lemma resync_loop_spec fuel : forall pt b,
  byteIn pt = Stream b -> wf b ->
  (Z.to_nat (available b) <= fuel)%nat ->
  exists b',
    resync_loop fuel pt = (Ok tt, set_byteIn (Stream b') pt) /\
    wf b' /\ bufferSize b' = bufferSize b /\
    contents b' = from_sync (contents b).
Proof.
  induction fuel as [| fuel IH]; intros pt b Hb Hwf Hfuel;
    pose proof (available_range b Hwf) as Hav;
    pose proof (length_contents b) as Hlen.
  - assert (E : available b = 0) by lia.
    exists b. simpl.
    rewrite (bind_Ok _ _ _ _ _ (byteIn_available_Stream pt b Hb)).
    rewrite E. simpl. rewrite (proj2 (contents_nil b Hwf) E). auto.
  - simpl.
    rewrite (bind_Ok _ _ _ _ _ (byteIn_available_Stream pt b Hb)).
    destruct (Z.gtb_spec (available b) 0) as [Hpos | Hzero].
    2:{ assert (E : available b = 0) by lia.
        exists b. simpl. rewrite (proj2 (contents_nil b Hwf) E). auto. }
    destruct (contents b) as [| x xs] eqn:Hc; [simpl in Hlen; lia |].
    pose proof (peekForValue_spec (set_byteIn (Stream b) pt) b x xs eq_refl Hwf Hc) as Hp.
    simpl from_sync. destruct (x =? 0xaa).
    + rewrite (bind_Ok _ _ _ _ _ Hp). exists b. rewrite <- Hc. auto.
    + destruct Hp as (b1 & Hp & Hwf1 & HC1 & Hc1).
      rewrite (bind_Ok _ _ _ _ _ Hp).
      destruct (IH (set_byteIn (Stream b1) (set_byteIn (Stream b) pt)) b1 eq_refl Hwf1)
        as (b' & Hl & Hwf' & HC' & Hc').
      { pose proof (length_contents b1) as Hlen1. rewrite Hc1 in Hlen1.
        simpl in Hlen. lia. }
      exists b'. rewrite Hl. split; [reflexivity |].
      split; [exact Hwf' |]. split; [congruence |]. congruence.
Qed.

(** ** Facts about the bit operations *)

Lemma land_ff v : Z.land v 0xff = v mod 256.
Proof. change 0xff with (Z.ones 8). now rewrite Z.land_ones by lia. Qed.

Lemma be16_combine msb lsb :
  Z.land (Z.shiftl msb 8) 0xff00 + Z.land lsb 0xff
  = 256 * (msb mod 256) + lsb mod 256.
Proof.
  change 0xff00 with (Z.shiftl 0xff 8).
  rewrite <- Z.shiftl_land, !land_ff, Z.shiftl_mul_pow2 by lia.
  change (2 ^ 8) with 256. lia.
Qed.

Lemma be16_split n :
  0 <= n < 65536 ->
  Z.land (Z.shiftl (Z.land (Z.shiftr n 8) 0xff) 8) 0xff00
  + Z.land (Z.land n 0xff) 0xff = n.
Proof.
  intros Hn. rewrite be16_combine, !land_ff, Z.shiftr_div_pow2 by lia.
  change (2 ^ 8) with 256.
  rewrite !Z.mod_mod by lia.
  rewrite (Z.mod_small (n / 256)) by (split; [apply Z.div_pos | apply Z.div_lt_upper_bound]; lia).
  pose proof (Z.div_mod n 256). lia.
Qed.

Lemma land_sign_bit v :
  0 <= v < 65536 -> Z.land v 32768 = if v <? 32768 then 0 else 32768.
Proof.
  intros Hv.
  assert (Hbit : Z.testbit v 15 = negb (v <? 32768)).
  { destruct (Z.ltb_spec v 32768); cbn [negb].
    - apply (proj2 (Z.testbit_false v 15 ltac:(lia))). change (2 ^ 15) with 32768.
      now rewrite Z.div_small by lia.
    - apply (proj2 (Z.testbit_true v 15 ltac:(lia))). change (2 ^ 15) with 32768.
      assert (E : v / 32768 = 1) by (symmetry; apply Z.div_unique with (r := v - 32768); lia).
      now rewrite E. }
  apply Z.bits_inj'. intros m Hm.
  rewrite Z.land_spec. change 32768 with (2 ^ 15) at 1.
  rewrite Z.pow2_bits_eqb by lia.
  destruct (Z.eqb_spec 15 m) as [<- | Hne].
  - rewrite Hbit. destruct (v <? 32768); reflexivity.
  - rewrite andb_false_r. destruct (v <? 32768).
    + symmetry. apply Z.bits_0.
    + change 32768 with (2 ^ 15). rewrite Z.pow2_bits_eqb by lia.
      symmetry. now apply Z.eqb_neq.
Qed.

Lemma signExtend_16 v :
  0 <= v < 65536 ->
  signExtend v 16 = Ok (if v <? 32768 then v else v - 65536).
Proof.
  intros Hv. unfold signExtend. simpl Z.ltb. cbv iota.
  change (Z.shiftl 1 (16 - 1)) with 32768.
  change (32768 - 1) with (Z.ones 15).
  rewrite Z.land_ones by lia. change (2 ^ 15) with 32768.
  rewrite land_sign_bit by exact Hv.
  destruct (Z.ltb_spec v 32768).
  - rewrite Z.mod_small by lia. f_equal. lia.
  - f_equal. assert (v mod 32768 = v - 32768).
    { symmetry. apply Z.mod_unique with (q := 1); lia. }
    lia.
Qed.

Lemma int16_of_bytes msb lsb :
  is_byte msb -> is_byte lsb ->
  signExtend (Z.land (Z.shiftl msb 8) 0xff00 + Z.land lsb 0xff) 16
  = Ok (int16_be msb lsb).
Proof.
  unfold is_byte. intros Hm Hl.
  rewrite be16_combine, !Z.mod_small by lia.
  rewrite signExtend_16 by lia. reflexivity.
Qed.

Lemma sumZ_app l1 l2 : sumZ (l1 ++ l2) = sumZ l1 + sumZ l2.
Proof. unfold sumZ. induction l1 as [| x l1 IH]; simpl; lia. Qed.

Lemma checksum_byte_closes preceding :
  (sumZ (preceding ++ [checksum_byte preceding])) mod 256 = 0.
Proof.
  rewrite sumZ_app. unfold checksum_byte. simpl.
  rewrite Z.add_0_r, Zplus_mod_idemp_r.
  replace (sumZ preceding + (256 - sumZ preceding mod 256))
    with (256 + (sumZ preceding - sumZ preceding mod 256)) by lia.
  rewrite <- Zplus_mod_idemp_l, Z.mod_same, Z.add_0_l by lia.
  rewrite Zminus_mod_idemp_r, Z.sub_diag. reflexivity.
Qed.

Lemma checksum_byte_is_byte preceding : is_byte (checksum_byte preceding).
Proof.
  unfold is_byte, checksum_byte.
  pose proof (Z.mod_pos_bound (256 - sumZ preceding mod 256) 256). lia.
Qed.

(** ** Header recognition and packet acceptance *)

Lemma bind_modify {St B : Type} (f : St -> St) (k : unit -> M St B) s :
  bind (modify f) k s = k tt (f s).
Proof. reflexivity. Qed.

Lemma bind_get {St B : Type} (k : St -> M St B) s : bind get k s = k s s.
Proof. reflexivity. Qed.

(** Normalisation of a tool state written with setters to a plain record. *)
Ltac flat :=
  cbn [set_inBuffer set_outBuffer set_byteIn set_byteOut set_pktType
       set_headerValid set_numPktDataBytes set_numDataBytesPlusChecksumByte
       set_pktChecksum set_destDeviceIdentifierFromReceivedPkt
       set_sourceDeviceIdentifierFromReceivedPkt set_resyncCount
       inBuffer outBuffer thisDeviceIdentifier byteIn byteOut pktType
       headerValid numPktDataBytes numDataBytesPlusChecksumByte pktChecksum
       destDeviceIdentifierFromReceivedPkt sourceDeviceIdentifierFromReceivedPkt
       resyncCount].

Ltac step_modify :=
  match goal with
  | |- context [bind (modify ?f) ?k ?s] =>
      rewrite (bind_modify f k s); cbv beta; flat
  end.

Ltac step_get :=
  match goal with
  | |- context [bind get ?k ?s] =>
      rewrite (bind_get k s); cbv beta; flat
  end.

Ltac step_retrieve H :=
  match goal with
  | |- context [bind (on_byteIn retrieve) ?k ?s] =>
      rewrite (bind_Ok (on_byteIn retrieve) k s _ _
                 (on_byteIn_Stream retrieve s _ _ _ eq_refl H));
      cbv beta; flat
  end.

Ltac step_available :=
  match goal with
  | |- context [bind byteIn_available ?k ?s] =>
      rewrite (bind_Ok byteIn_available k s _ _ (byteIn_available_Stream s _ eq_refl));
      cbv beta; flat
  end.

(** A header with a defined type code is taken in whole. *)
Lemma checkForPacketHeaderAvailable_header pt b dest source code msb lsb rest t :
  byteIn pt = Stream b -> wf b ->
  contents b = 0xaa :: 0x55 :: dest :: source :: code :: msb :: lsb :: rest ->
  of_value code = Ok t ->
  exists b',
    checkForPacketHeaderAvailable pt =
      (Ok tt,
       {| inBuffer := inBuffer pt;
          outBuffer := outBuffer pt;
          thisDeviceIdentifier := thisDeviceIdentifier pt;
          byteIn := Stream b';
          byteOut := byteOut pt;
          pktType := t;
          headerValid := true;
          numPktDataBytes := Z.land (Z.shiftl msb 8) 0xff00 + Z.land lsb 0xff;
          numDataBytesPlusChecksumByte :=
            Z.land (Z.shiftl msb 8) 0xff00 + Z.land lsb 0xff + 1;
          pktChecksum := 0 + 0xaa + 0x55 + dest + source + code + msb + lsb;
          destDeviceIdentifierFromReceivedPkt := dest;
          sourceDeviceIdentifierFromReceivedPkt := source;
          resyncCount := resyncCount pt |}) /\
    wf b' /\ bufferSize b' = bufferSize b /\ contents b' = rest.
Proof.
  intros Hb Hwf Hc Ht.
  pose proof (length_contents b) as Hlen. rewrite Hc in Hlen. simpl in Hlen.
  destruct (retrieve_cons _ _ _ Hwf Hc) as (b1 & Hr1 & Hwf1 & HC1 & Hc1).
  destruct (retrieve_cons _ _ _ Hwf1 Hc1) as (b2 & Hr2 & Hwf2 & HC2 & Hc2).
  destruct (retrieve_cons _ _ _ Hwf2 Hc2) as (b3 & Hr3 & Hwf3 & HC3 & Hc3).
  destruct (retrieve_cons _ _ _ Hwf3 Hc3) as (b4 & Hr4 & Hwf4 & HC4 & Hc4).
  destruct (retrieve_cons _ _ _ Hwf4 Hc4) as (b5 & Hr5 & Hwf5 & HC5 & Hc5).
  destruct (retrieve_cons _ _ _ Hwf5 Hc5) as (b6 & Hr6 & Hwf6 & HC6 & Hc6).
  destruct (retrieve_cons _ _ _ Hwf6 Hc6) as (b7 & Hr7 & Hwf7 & HC7 & Hc7).
  exists b7. split; [| split; [exact Hwf7 | split; [congruence | exact Hc7]]].
  destruct pt as [inB outB dev bIn bOut ty hv n n1 ck d s rc].
  simpl in Hb. subst bIn.
  unfold checkForPacketHeaderAvailable, add_pktChecksum.
  step_available.
  destruct (Z.ltb_spec (available b) 7) as [Hlt | _]; [lia |].
  step_modify. step_retrieve Hr1. rewrite Z.eqb_refl; cbn [negb].
  step_modify. step_retrieve Hr2. rewrite Z.eqb_refl; cbn [negb].
  step_modify. step_retrieve Hr3. do 2 step_modify.
  step_retrieve Hr4. do 2 step_modify.
  step_retrieve Hr5. step_modify.
  unfold bind at 1. rewrite Ht.
  step_modify.
  step_retrieve Hr6. step_modify.
  step_retrieve Hr7. do 3 step_modify.
  reflexivity.
Qed.

Lemma fits_B_byte v : is_byte v -> fits TC_B v = true.
Proof.
  unfold is_byte, fits. intros Hv.
  destruct (Z.leb_spec 0 v); destruct (Z.leb_spec v 255); (reflexivity || lia).
Qed.

Lemma fits_i_byte v : is_byte v -> fits TC_i v = true.
Proof.
  unfold is_byte, fits. intros Hv.
  destruct (Z.leb_spec (-2147483648) v); destruct (Z.leb_spec v 2147483647);
    (reflexivity || lia).
Qed.

Lemma is_byte_land_ff v : is_byte (Z.land v 0xff).
Proof.
  unfold is_byte. rewrite land_ff. pose proof (Z.mod_pos_bound v 256). lia.
Qed.

Lemma is_byte_value t : is_byte (value t).
Proof. unfold is_byte. destruct t; simpl; lia. Qed.

Lemma of_value_value t : of_value (value t) = Ok t.
Proof. destruct t; reflexivity. Qed.

Lemma outBuffer_set_ok x v s :
  0 <= x < Z.of_nat (length (outBuffer s)) -> fits TC_B v = true ->
  outBuffer_set x v s = (Ok tt, set_outBuffer (<[Z.to_nat x:=v]> (outBuffer s)) s).
Proof.
  intros Hx Hv. unfold outBuffer_set. now rewrite setitem_in_range.
Qed.

Ltac step_outBuffer_set :=
  match goal with
  | |- context [bind (outBuffer_set ?x ?v) ?k ?s] =>
      rewrite (bind_Ok (outBuffer_set x v) k s _ _ (outBuffer_set_ok x v s
                 ltac:(flat; rewrite ?length_insert; cbn [length]; lia)
                 ltac:(first [ apply fits_B_byte; assumption
                             | apply fits_B_byte, is_byte_land_ff
                             | apply fits_B_byte, is_byte_value
                             | reflexivity ])));
      cbv beta; flat
  end.

(** [prepareHeader] writes the seven header bytes and returns 7. *)
Lemma prepareHeader_spec pDestAddress pPacketType pNumDataBytes self :
  is_byte pDestAddress -> is_byte (thisDeviceIdentifier self) ->
  (7 <= length (outBuffer self))%nat ->
  prepareHeader pDestAddress pPacketType pNumDataBytes self =
    (Ok 7,
     set_outBuffer
       ([0xaa; 0x55; pDestAddress; thisDeviceIdentifier self; value pPacketType;
         Z.land (Z.shiftr pNumDataBytes 8) 0xff; Z.land pNumDataBytes 0xff]
        ++ drop 7 (outBuffer self)) self).
Proof.
  intros Hd Hs Hlen.
  destruct self as [inB outB dev bIn bOut ty hv n n1 ck d s rc].
  simpl in Hs, Hlen.
  destruct outB as [| o0 [| o1 [| o2 [| o3 [| o4 [| o5 [| o6 outB]]]]]]];
    simpl in Hlen; try lia.
  unfold prepareHeader. cbv zeta.
  change (0 + 1) with 1. change (1 + 1) with 2. change (2 + 1) with 3.
  change (3 + 1) with 4. change (4 + 1) with 5. change (5 + 1) with 6.
  change (6 + 1) with 7.
  do 3 step_outBuffer_set.
  step_get.
  do 4 step_outBuffer_set.
  reflexivity.
Qed.

(** The checksum loop adds the array items from [i] up to [pStop]. *)
Lemma checksum_loop_spec fuel : forall i pStop self,
  0 <= i -> pStop <= Z.of_nat (length (inBuffer self)) ->
  (Z.to_nat (pStop - i) <= fuel)%nat ->
  checksum_loop fuel i pStop self =
    (Ok tt,
     set_pktChecksum (pktChecksum self + sumZ (slice (inBuffer self) i pStop)) self).
Proof.
  induction fuel as [| fuel IH]; intros i pStop self Hi Hstop Hfuel.
  - simpl. destruct (Z.ltb_spec i pStop); [lia |].
    unfold slice. replace (Z.to_nat pStop - Z.to_nat i)%nat with O by lia.
    simpl. rewrite Z.add_0_r. destruct self; reflexivity.
  - simpl. destruct (Z.ltb_spec i pStop) as [Hlt | Hge].
    + unfold bind at 1. rewrite getitem_in_range by lia.
      unfold add_pktChecksum. rewrite bind_modify.
      rewrite IH by (destruct self; simpl in *; lia).
      destruct (lookup_lt_is_Some_2 (inBuffer self) (Z.to_nat i)) as [v Hv]; [lia |].
      rewrite Hv. simpl default.
      unfold slice.
      replace (Z.to_nat pStop - Z.to_nat i)%nat
        with (S (Z.to_nat pStop - Z.to_nat (i + 1)))%nat by lia.
      rewrite (drop_S _ _ _ Hv).
      replace (Z.to_nat (i + 1)) with (S (Z.to_nat i)) by lia.
      destruct self; simpl. unfold set_pktChecksum; simpl. rewrite Z.add_assoc. reflexivity.
    + unfold slice. replace (Z.to_nat pStop - Z.to_nat i)%nat with O by lia.
      simpl. rewrite Z.add_0_r. destruct self; reflexivity.
Qed.

Lemma byteIn_read_Stream pOffset n self b r b' inBuffer' :
  byteIn self = Stream b ->
  read pOffset n (b, inBuffer self) = (r, (b', inBuffer')) ->
  byteIn_read pOffset n self = (r, set_inBuffer inBuffer' (set_byteIn (Stream b') self)).
Proof. intros Hb Hr. unfold byteIn_read. now rewrite Hb, Hr. Qed.

(** What the second half of [checkForPacketReady] does once the trailing
    bytes are there: [read] takes [min (available, n + 1)] values, the first
    [n] of them are summed, and the packet is accepted when it is addressed
    to this device and the sum ends in a zero byte. *)
Lemma checkForPacketReady_tail_spec self b :
  byteIn self = Stream b -> wf b ->
  let n := numDataBytesPlusChecksumByte self in
  let m := Z.min (available b) (n + 1) in
  0 <= n -> n <= available b ->
  m <= Z.of_nat (length (inBuffer self)) ->
  exists b',
    wf b' /\ bufferSize b' = bufferSize b /\
    contents b' = drop (Z.to_nat m) (contents b) /\
    let addressed :=
      destDeviceIdentifierFromReceivedPkt self =? thisDeviceIdentifier self in
    let total := pktChecksum self + sumZ (take (Z.to_nat n) (contents b)) in
    let taken :=
      set_inBuffer (take (Z.to_nat m) (contents b) ++ drop (Z.to_nat m) (inBuffer self))
        (set_byteIn (Stream b') (set_headerValid false self)) in
    checkForPacketReady_tail self =
      (Ok (addressed && (Z.land total 0xff =? 0)),
       if addressed then set_pktChecksum total taken else taken).
Proof.
  intros Hb Hwf n m Hn Havail Hlen.
  destruct self as [inB outB dev bIn bOut ty hv np n1 ck d s rc].
  simpl in Hb, n, Hlen. subst bIn. subst n.
  pose proof (length_contents b) as Hlc.
  destruct (read_spec 0 n1 b inB Hwf ltac:(lia) Hn) as (b' & Hread & Hwf' & HC' & Hc').
  { fold m. lia. }
  fold m in Hread, Hc'. rewrite Z.add_0_l in Hread.
  change (Z.to_nat 0) with O in Hread. rewrite take_0, app_nil_l in Hread.
  exists b'. split; [exact Hwf' |]. split; [exact HC' |]. split; [exact Hc' |].
  cbv zeta. flat.
  unfold checkForPacketReady_tail.
  step_available. step_get.
  destruct (Z.ltb_spec (available b) n1) as [Hlt | _]; [lia |].
  step_modify.
  match goal with
  | |- context [bind (byteIn_read 0 n1) ?k ?s] =>
      rewrite (bind_Ok (byteIn_read 0 n1) k s _ _
                 (byteIn_read_Stream 0 n1 s b _ _ _ eq_refl Hread));
      cbv beta; flat
  end.
  step_get.
  destruct (d =? dev); cbn [negb andb]; [| reflexivity].
  match goal with
  | |- context [bind (checksum_loop ?f ?i ?stop) ?k ?s] =>
      rewrite (bind_Ok (checksum_loop f i stop) k s _ _
                 (checksum_loop_spec f i stop s ltac:(lia)
                    ltac:(flat; rewrite length_app, length_take, length_drop; lia)
                    ltac:(lia)));
      cbv beta; flat
  end.
  step_get.
  assert (Hslice : slice (take (Z.to_nat m) (contents b) ++ drop (Z.to_nat m) inB) 0 n1
                   = take (Z.to_nat n1) (contents b)).
  { unfold slice. change (Z.to_nat 0) with O. rewrite drop_0, Nat.sub_0_r.
    rewrite take_app_le by (rewrite length_take; lia).
    rewrite take_take. f_equal. lia. }
  rewrite Hslice.
  destruct (Z.land (ck + sumZ (take (Z.to_nat n1) (contents b))) 255 =? 0);
    reflexivity.
Qed.

(** ** The round trip of a frame *)

(** X25.  A frame made of the seven header bytes [prepareHeader] writes, a
    payload and the checksum byte that closes the byte sum to a multiple of
    256, appended to the receiver's empty inbound ring buffer, is accepted
    by one call of [checkForPacketReady] when it is addressed to the
    receiver: the call returns [True] and the receiver then holds the
    packet type, the payload length, the destination and the source the
    header was prepared with.  This holds for frames that leave one value
    of the ring buffer free, [L + 8 <= bufferSize - 1], with the payload
    and its checksum within the receiver's [inBuffer]. *)
Theorem frame_round_trip (sender receiver : PacketTool) (b : CircularBuffer)
    (pDestAddress : Z) (pPacketType : PacketTypeEnum) (payload : list Z) :
  let L := Z.of_nat (length payload) in
  is_byte pDestAddress ->
  is_byte (thisDeviceIdentifier sender) ->
  (7 <= length (outBuffer sender))%nat ->
  Forall is_byte payload ->
  byteIn receiver = Stream b ->
  wf b -> available b = 0 ->
  L + 8 <= bufferSize b - 1 ->
  length (inBuffer receiver) = Z.to_nat (IN_BUFFER_SIZE + 1) ->
  L <= IN_BUFFER_SIZE ->
  thisDeviceIdentifier receiver = pDestAddress ->
  headerValid receiver = false ->
  exists sender' receiver1 receiver2,
    prepareHeader pDestAddress pPacketType L sender = (Ok 7, sender') /\
    let header := take 7 (outBuffer sender') in
    let frame := header ++ payload ++ [checksum_byte (header ++ payload)] in
    on_byteIn (append_all frame) receiver = (Ok tt, receiver1) /\
    checkForPacketReady receiver1 = (Ok true, receiver2) /\
    getPktType receiver2 = pPacketType /\
    numPktDataBytes receiver2 = L /\
    destDeviceIdentifierFromReceivedPkt receiver2 = pDestAddress /\
    sourceDeviceIdentifierFromReceivedPkt receiver2 = thisDeviceIdentifier sender.
Proof.
  intros L Hdest Hsrc Hout Hpayload Hb Hwf Hempty Hroom Hin HL Hdev Hhv.
  unfold IN_BUFFER_SIZE in *.
  destruct receiver as [inB outB dev bIn bOut ty hv np n1 ck d s rc].
  simpl in Hb, Hin, Hdev, Hhv. subst bIn dev hv.
  (* the sender's header *)
  eexists. rewrite (prepareHeader_spec _ _ _ _ Hdest Hsrc Hout).
  set (src := thisDeviceIdentifier sender) in *.
  set (hi := Z.land (Z.shiftr L 8) 0xff).
  set (lo := Z.land L 0xff).
  set (hdr := [0xaa; 0x55; pDestAddress; src; value pPacketType; hi; lo]).
  assert (Htake : take 7 (outBuffer (set_outBuffer (hdr ++ drop 7 (outBuffer sender)) sender))
                  = hdr) by (destruct sender; reflexivity).
  cbv zeta. rewrite Htake.
  set (chk := checksum_byte (hdr ++ payload)).
  (* the bytes reach the ring buffer *)
  assert (Hfits : Forall (fun v => fits TC_i v = true) (hdr ++ payload ++ [chk])).
  { apply Forall_app. split.
    - unfold hdr. repeat constructor; apply fits_i_byte;
        first [ assumption | apply is_byte_land_ff | apply is_byte_value
              | unfold is_byte; lia ].
    - apply Forall_app. split.
      + revert Hpayload. apply Forall_impl. intros v Hv. now apply fits_i_byte.
      + repeat constructor. apply fits_i_byte, checksum_byte_is_byte. }
  destruct (append_all_contents _ b Hwf Hfits) as (b1 & Happ & Hwf1 & HC1 & Hc1).
  { rewrite !length_app. simpl length. lia. }
  rewrite (proj2 (contents_nil b Hwf) Hempty) in Hc1. simpl in Hc1.
  match goal with
  | |- context [on_byteIn _ ?r = _] => exists (set_byteIn (Stream b1) r)
  end.
  (* the receiver's header search *)
  destruct (checkForPacketHeaderAvailable_header
              (mkPacketTool inB outB pDestAddress (Stream b1) bOut ty false np n1 ck d s rc)
              b1 pDestAddress src
              (value pPacketType) hi lo (payload ++ [chk]) pPacketType
              eq_refl Hwf1 Hc1 (of_value_value _))
    as (b2 & Hheader & Hwf2 & HC2 & Hc2).
  assert (Hlen : Z.land (Z.shiftl hi 8) 0xff00 + Z.land lo 0xff = L)
    by (apply be16_split; lia).
  rewrite Hlen in Hheader. cbn [inBuffer outBuffer thisDeviceIdentifier byteOut resyncCount] in Hheader.
  match type of Hheader with _ = (_, ?s) => set (held := s) in * end.
  (* the trailing bytes *)
  assert (Hav2 : available b2 = L + 1).
  { pose proof (length_contents b2) as Hl2. rewrite Hc2, length_app in Hl2.
    simpl in Hl2. pose proof (available_range b2 Hwf2). lia. }
  destruct (checkForPacketReady_tail_spec held b2 eq_refl Hwf2)
    as (b3 & Hwf3 & HC3 & Hc3 & Htail).
  { unfold held; flat; lia. }
  { unfold held; flat; lia. }
  { unfold held; flat. lia. }
  cbv zeta in Htail.
  assert (Haddr : (destDeviceIdentifierFromReceivedPkt held =? thisDeviceIdentifier held) = true).
  { unfold held; flat. apply Z.eqb_refl. }
  rewrite Haddr in Htail. cbn [andb] in Htail.
  assert (Hsum : (Z.land (pktChecksum held
                          + sumZ (take (Z.to_nat (numDataBytesPlusChecksumByte held))
                                    (contents b2))) 0xff =? 0) = true).
  { apply Z.eqb_eq. rewrite land_ff.
    replace (Z.to_nat (numDataBytesPlusChecksumByte held)) with (length (payload ++ [chk]))
      by (unfold held; flat; rewrite length_app; simpl; lia).
    rewrite Hc2, firstn_all.
    replace (pktChecksum held + sumZ (payload ++ [chk]))
      with (sumZ ((hdr ++ payload) ++ [chk])).
    - apply checksum_byte_closes.
    - rewrite <- app_assoc, (sumZ_app hdr). unfold held, hdr, sumZ; flat.
      simpl foldr. lia. }
  rewrite Hsum in Htail.
  eexists.
  split; [reflexivity |].
  split; [unfold on_byteIn; flat; rewrite Happ; reflexivity |].
  split.
  - unfold checkForPacketReady.
    step_get. cbn [negb].
    rewrite (bind_Ok _ _ _ _ _ Hheader).
    rewrite bind_get.
    replace (headerValid held) with true by reflexivity.
    cbn [negb].
    exact Htail.
  - unfold held, getPktType; flat. auto.
Qed.

Lemma frame_round_trip_witness :
  exists sender' receiver1 receiver2,
    prepareHeader 0 GET_DEVICE_INFO 3 (packetTool.init 2) = (Ok 7, sender') /\
    on_byteIn (append_all (take 7 (outBuffer sender') ++ [1; 2; 3]
                           ++ [checksum_byte (take 7 (outBuffer sender') ++ [1; 2; 3])]))
      (snd (setStreams (Stream (circularBuffer.init 50)) None (packetTool.init 0)))
      = (Ok tt, receiver1) /\
    checkForPacketReady receiver1 = (Ok true, receiver2) /\
    getPktType receiver2 = GET_DEVICE_INFO /\
    numPktDataBytes receiver2 = 3 /\
    destDeviceIdentifierFromReceivedPkt receiver2 = 0 /\
    sourceDeviceIdentifierFromReceivedPkt receiver2 = 2.
Proof.
  apply (frame_round_trip (packetTool.init 2)
           (snd (setStreams (Stream (circularBuffer.init 50)) None (packetTool.init 0)))
           (circularBuffer.init 50) 0 GET_DEVICE_INFO [1; 2; 3]).
  - unfold is_byte. lia.
  - unfold is_byte. simpl. lia.
  - vm_compute. lia.
  - repeat constructor; unfold is_byte; lia.
  - reflexivity.
  - apply wf_init. lia.
  - reflexivity.
  - simpl. lia.
  - reflexivity.
  - simpl. unfold IN_BUFFER_SIZE. lia.
  - reflexivity.
  - reflexivity.
Defined.

(** C5 (the code departs from it).  The frame [AA 55 00 02 02 00 00 FD] is
    the header [prepareHeader(0, GET_DEVICE_INFO, 0)] writes on device 2,
    no payload, and the checksum byte that closes the sum: eight bytes for
    device 0.  Appended to the empty [CircularBuffer(8)] of device 0 every
    append succeeds and the bytes are in the storage, but the insert
    cursor has wrapped onto the retrieve cursor: nothing is available and
    [checkForPacketReady] returns [False] and changes nothing, so the frame
    is never received.  The same frame in a [CircularBuffer(9)] is accepted
    with the type, length, destination and source of the header. *)
Theorem frame_of_bufferSize_bytes_is_lost :
  let prepared := prepareHeader 0 GET_DEVICE_INFO 0 (packetTool.init 2) in
  let header := take 7 (outBuffer (snd prepared)) in
  let frame := header ++ [] ++ [checksum_byte (header ++ [])] in
  let receiver C :=
    snd (setStreams (Stream (circularBuffer.init C)) None (packetTool.init 0)) in
  let fed C := on_byteIn (append_all frame) (receiver C) in
  let polled := checkForPacketReady (snd (fed 9)) in
  fst prepared = Ok 7 /\
  frame = [0xaa; 0x55; 0; 2; 2; 0; 0; 0xfd] /\
  Z.of_nat (length frame) = bufferSize (circularBuffer.init 8) /\
  sumZ frame mod 256 = 0 /\
  fst (fed 8) = Ok tt /\
  (exists b, byteIn (snd (fed 8)) = Stream b /\
             take 8 (buffer b) = frame /\
             nextInsertIndex b = nextRetrieveIndex b /\
             available b = 0) /\
  checkForPacketReady (snd (fed 8)) = (Ok false, snd (fed 8)) /\
  fst (fed 9) = Ok tt /\
  inbound (snd (fed 9)) = frame /\
  fst polled = Ok true /\
  getPktType (snd polled) = GET_DEVICE_INFO /\
  numPktDataBytes (snd polled) = 0 /\
  destDeviceIdentifierFromReceivedPkt (snd polled) = 0 /\
  sourceDeviceIdentifierFromReceivedPkt (snd polled) = 2.
Proof.
  vm_compute.
  repeat (split; [reflexivity |]).
  split; [eexists; repeat split |].
  repeat split.
Qed.

(** ** Resynchronisation *)

(** C7.  [resync] adds exactly one to [resyncCount] and then removes values
    from the front of the inbound buffer until the buffer is empty or its
    next value is [0xAA]: the removed values [dropped] are all different
    from [0xAA], what stays is the rest of the stream in order, and a
    leading [0xAA] is left in place, so that it is what the next
    [retrieve] returns.  Nothing else in the tool changes. *)
Theorem resync_stops_at_sync_byte (self : PacketTool) (b : CircularBuffer) :
  byteIn self = Stream b -> wf b ->
  exists b' dropped,
    resync self =
      (Ok tt, set_byteIn (Stream b') (set_resyncCount (resyncCount self + 1) self)) /\
    wf b' /\
    contents b = dropped ++ contents b' /\
    Forall (fun v => v <> 0xaa) dropped /\
    (contents b' = [] \/
     exists rest b'',
       contents b' = 0xaa :: rest /\ retrieve b' = (Ok 0xaa, b'') /\ contents b'' = rest).
Proof.
  intros Hb Hwf.
  set (counted := set_resyncCount (resyncCount self + 1) self).
  assert (Hb' : byteIn counted = Stream b) by (destruct self; exact Hb).
  destruct (resync_loop_spec (resync_fuel counted) counted b Hb' Hwf)
    as (b' & Hloop & Hwf' & HC' & Hc').
  { unfold resync_fuel. rewrite Hb'. lia. }
  destruct (from_sync_split (contents b)) as (dropped & Hsplit & Hdropped & Hhead).
  rewrite <- Hc' in Hsplit, Hhead.
  exists b', dropped.
  split; [| split; [exact Hwf' | split; [exact Hsplit | split; [exact Hdropped |]]]].
  - unfold resync. rewrite bind_modify, bind_get. exact Hloop.
  - destruct Hhead as [Hnil | (rest & Hrest)]; [now left | right].
    destruct (retrieve_cons b' _ _ Hwf' Hrest) as (b'' & Hr & _ & _ & Hc'').
    exists rest, b''. auto.
Qed.

Lemma resync_stops_at_sync_byte_witness :
  exists b' dropped,
    resync (snd (setStreams
                   (Stream (snd (append_all [3; 0xaa; 0x55] (circularBuffer.init 8))))
                   None (packetTool.init 0)))
    = (Ok tt,
       set_byteIn (Stream b')
         (set_resyncCount 1
            (snd (setStreams
                    (Stream (snd (append_all [3; 0xaa; 0x55] (circularBuffer.init 8))))
                    None (packetTool.init 0))))) /\
    wf b' /\
    contents (snd (append_all [3; 0xaa; 0x55] (circularBuffer.init 8)))
      = dropped ++ contents b' /\
    Forall (fun v => v <> 0xaa) dropped /\
    (contents b' = [] \/
     exists rest b'',
       contents b' = 0xaa :: rest /\ retrieve b' = (Ok 0xaa, b'') /\ contents b'' = rest).
Proof.
  apply (resync_stops_at_sync_byte
           (snd (setStreams
                   (Stream (snd (append_all [3; 0xaa; 0x55] (circularBuffer.init 8))))
                   None (packetTool.init 0)))
           (snd (append_all [3; 0xaa; 0x55] (circularBuffer.init 8)))).
  - reflexivity.
  - unfold wf. simpl. repeat split; try lia. repeat constructor.
Defined.

(** ** Field parsers *)

Import packetStatusEnum.

(** C9.  With four payload bytes [b0 b1 b2 b3] at the cursor,
    [parseDuplexIntegerFromPacket] returns the cursor advanced by 4 and the
    big-endian 16-bit two's-complement value of [b0 b1] in every case; the
    status is [DUPLEX_MATCH_ERROR] exactly when that value differs from the
    value of the copy [b2 b3], and [PACKET_VALID] otherwise. *)
Theorem parseDuplexIntegerFromPacket_spec (self : PacketTool) (pIndex b0 b1 b2 b3 : Z) :
  0 <= pIndex ->
  take 4 (drop (Z.to_nat pIndex) (inBuffer self)) = [b0; b1; b2; b3] ->
  is_byte b0 -> is_byte b1 -> is_byte b2 -> is_byte b3 ->
  exists status,
    parseDuplexIntegerFromPacket self pIndex
      = Ok (status, pIndex + 4, int16_be b0 b1) /\
    (status = DUPLEX_MATCH_ERROR <-> int16_be b0 b1 <> int16_be b2 b3) /\
    (status = PACKET_VALID <-> int16_be b0 b1 = int16_be b2 b3).
Proof.
  intros Hi Hbytes H0 H1 H2 H3.
  assert (Hlook : forall k v, ([b0; b1; b2; b3] : list Z) !! k = Some v ->
                    getitem (inBuffer self) (pIndex + Z.of_nat k) = Ok v).
  { intros k v Hk. apply getitem_lookup; [lia |].
    rewrite <- Hbytes in Hk.
    pose proof (lookup_lt_Some _ _ _ Hk) as Hlt. rewrite length_take in Hlt.
    rewrite lookup_take_lt, lookup_drop in Hk by lia.
    rewrite <- Hk. f_equal. lia. }
  pose proof (Hlook 0%nat b0 eq_refl) as G0. rewrite Z.add_0_r in G0.
  pose proof (Hlook 1%nat b1 eq_refl) as G1.
  pose proof (Hlook 2%nat b2 eq_refl) as G2.
  pose proof (Hlook 3%nat b3 eq_refl) as G3.
  change (Z.of_nat 1) with 1 in G1.
  replace (pIndex + Z.of_nat 2) with (pIndex + 1 + 1) in G2 by lia.
  replace (pIndex + Z.of_nat 3) with (pIndex + 1 + 1 + 1) in G3 by lia.
  unfold parseDuplexIntegerFromPacket.
  rewrite G0. cbn [and_then]. rewrite G1. cbn [and_then].
  rewrite (int16_of_bytes b0 b1 H0 H1). cbn [and_then].
  rewrite G2. cbn [and_then]. rewrite G3. cbn [and_then].
  rewrite (int16_of_bytes b2 b3 H2 H3). cbn [and_then].
  eexists. split; [f_equal; f_equal; f_equal; lia |].
  destruct (Z.eqb_spec (int16_be b0 b1) (int16_be b2 b3)); split; split;
    (congruence || discriminate || tauto).
Qed.

Lemma parseDuplexIntegerFromPacket_spec_witness :
  exists status,
    parseDuplexIntegerFromPacket
      (set_inBuffer [0; 100; 0; 101; 7] (packetTool.init 0)) 0
      = Ok (status, 0 + 4, int16_be 0 100) /\
    (status = DUPLEX_MATCH_ERROR <-> int16_be 0 100 <> int16_be 0 101) /\
    (status = PACKET_VALID <-> int16_be 0 100 = int16_be 0 101).
Proof.
  apply (parseDuplexIntegerFromPacket_spec
           (set_inBuffer [0; 100; 0; 101; 7] (packetTool.init 0)) 0 0 100 0 101).
  - lia.
  - reflexivity.
  - unfold is_byte. lia.
  - unfold is_byte. lia.
  - unfold is_byte. lia.
  - unfold is_byte. lia.
Defined.

(** ** The ring buffer's capacity *)

(** C10.  A [CircularBuffer(C)] allocates [C + 1] slots, yet in every state
    it can reach [available] lies between 0 and [C - 1].  In particular,
    [C] appends to a buffer that reports nothing available bring the insert
    cursor back onto the retrieve cursor: [available] is 0 again, and
    [retrieve] and [peek] raise [NoBytesAvailable], so none of the [C]
    values can be retrieved. *)
Theorem available_below_bufferSize (C : Z) (b : CircularBuffer) :
  1 <= C -> reachable C b ->
  Z.of_nat (length (buffer b)) = C + 1 /\
  0 <= available b <= C - 1 /\
  forall vs : list Z,
    available b = 0 ->
    Z.of_nat (length vs) = C ->
    Forall (fun v => fits TC_i v = true) vs ->
    exists b',
      append_all vs b = (Ok tt, b') /\
      nextInsertIndex b' = nextRetrieveIndex b' /\
      available b' = 0 /\
      retrieve b' = (Raise NoBytesAvailable, b') /\
      peek b' = (Raise NoBytesAvailable, b').
Proof.
  intros HC Hreach.
  destruct (reachable_wf C b HC Hreach) as [Hwf HCb].
  pose proof (available_range b Hwf) as Hav. rewrite HCb in Hav.
  split; [destruct Hwf as (_ & HL & _); lia |].
  split; [exact Hav |].
  intros vs Hempty Hlen Hfits.
  destruct (append_all_cursor vs b Hwf Hfits) as (b' & Happ & Hwf' & HC' & Hr' & Hi').
  assert (Hcursors : nextInsertIndex b = nextRetrieveIndex b).
  { destruct Hwf as (_ & _ & Hi & Hr & _). unfold available in Hempty.
    destruct (Z.geb_spec (nextInsertIndex b) (nextRetrieveIndex b)); lia. }
  assert (Hback : nextInsertIndex b' = nextRetrieveIndex b').
  { rewrite Hi', Hr', Hlen, HCb, <- Hcursors.
    destruct Hwf as (_ & _ & Hi & _).
    rewrite <- (Z.mul_1_l C) at 1. rewrite Z.mod_add by lia.
    apply Z.mod_small. lia. }
  assert (Hav' : available b' = 0).
  { unfold available. rewrite Hback.
    destruct (Z.geb_spec (nextRetrieveIndex b') (nextRetrieveIndex b')); lia. }
  exists b'. split; [exact Happ |]. split; [exact Hback |]. split; [exact Hav' |].
  split; [now apply retrieve_empty | now apply peek_empty].
Qed.

Lemma available_below_bufferSize_witness :
  (Z.of_nat (length (buffer (circularBuffer.init 2))) = 2 + 1 /\
   0 <= available (circularBuffer.init 2) <= 2 - 1) /\
  exists b',
    append_all [7; 8] (circularBuffer.init 2) = (Ok tt, b') /\
    nextInsertIndex b' = nextRetrieveIndex b' /\
    available b' = 0 /\
    retrieve b' = (Raise NoBytesAvailable, b') /\
    peek b' = (Raise NoBytesAvailable, b').
Proof.
  destruct (available_below_bufferSize 2 (circularBuffer.init 2)
              ltac:(lia) (reach_init 2)) as (Hslots & Hrange & Hfull).
  split; [split; [exact Hslots | exact Hrange] |].
  apply (Hfull [7; 8]).
  - reflexivity.
  - reflexivity.
  - repeat constructor.
Defined.

(** C1 (the code departs from it).  A [CircularBuffer(2)] after two
    appends and no retrieve reports [available() = 0], not 2, and
    [retrieve] raises [NoBytesAvailable]; after three appends it reports 1
    and yields the single value 3, not the two most recent values 2, 3. *)
Theorem buffer_filled_to_bufferSize_reads_empty :
  let two := snd (append_all [1; 2] (circularBuffer.init 2)) in
  let three := snd (append_all [1; 2; 3] (circularBuffer.init 2)) in
  fst (append_all [1; 2] (circularBuffer.init 2)) = Ok tt /\
  available two = 0 /\
  fst (retrieve two) = Raise NoBytesAvailable /\
  fst (append_all [1; 2; 3] (circularBuffer.init 2)) = Ok tt /\
  available three = 1 /\
  fst (retrieve_n 1 three) = Ok [3] /\
  fst (retrieve_n 2 three) = Raise NoBytesAvailable.
Proof. vm_compute. repeat split. Qed.

(** C6 (the code departs from it).  With the values 10, 20, 30 buffered,
    [read(pBuffer, 0, 1)] removes and stores two values, one more than
    [pNumBytesToRead]; on an empty buffer [read(pBuffer, 3, 0)] stores
    nothing and returns 3, the offset, not the count 0; and
    [read(pBuffer, 0, 5)] into an array of two items raises [IndexError]
    after removing the third value as well. *)
Theorem read_takes_one_value_more :
  let filled := snd (append_all [10; 20; 30] (circularBuffer.init 8)) in
  contents filled = [10; 20; 30] /\
  fst (read 0 1 (filled, [0; 0; 0; 0])) = Ok 2 /\
  snd (snd (read 0 1 (filled, [0; 0; 0; 0]))) = [10; 20; 0; 0] /\
  contents (fst (snd (read 0 1 (filled, [0; 0; 0; 0])))) = [30] /\
  read 3 0 (circularBuffer.init 8, [0; 0; 0; 0])
    = (Ok 3, (circularBuffer.init 8, [0; 0; 0; 0])) /\
  fst (read 0 5 (filled, [0; 0])) = Raise IndexError /\
  contents (fst (snd (read 0 5 (filled, [0; 0])))) = [].
Proof. vm_compute. repeat split. Qed.

(** ** Packets on the wire *)

(** C2 (the code departs from it).  A tool of device 0 holds the valid
    header [AA 55 00 02 02 00 00] (payload length 0, so
    [numDataBytesPlusChecksumByte = 1]); the checksum byte [FD] and a whole
    second frame [AA 55 00 02 02 00 00 FD] arrive.  [checkForPacketReady]
    returns [True] and takes two values from the stream, the checksum and
    the first sync byte of the second frame; the second frame, valid as it
    is, is then thrown away by [resync] and never reported. *)
Theorem checkForPacketReady_takes_next_sync_byte :
  let b := snd (append_all [0xaa; 0x55; 0; 2; 2; 0; 0] (circularBuffer.init 50)) in
  let waiting :=
    snd (checkForPacketReady (snd (setStreams (Stream b) None (packetTool.init 0)))) in
  let fed :=
    snd (on_byteIn (append_all [0xfd; 0xaa; 0x55; 0; 2; 2; 0; 0; 0xfd]) waiting) in
  let first := checkForPacketReady fed in
  let second := checkForPacketReady (snd first) in
  headerValid waiting = true /\
  numDataBytesPlusChecksumByte waiting = 1 /\
  inbound fed = [0xfd; 0xaa; 0x55; 0; 2; 2; 0; 0; 0xfd] /\
  fst first = Ok true /\
  inbound (snd first) = [0x55; 0; 2; 2; 0; 0; 0xfd] /\
  fst second = Ok false /\
  inbound (snd second) = [] /\
  resyncCount (snd second) = 1.
Proof. vm_compute. repeat split. Qed.

(** C3 (the code departs from it).  The type code 4 is not a member of
    [PacketTypeEnum].  On the frame [AA 55 00 02 04 00 00 FB], whose
    checksum is right, [checkForPacketReady] raises [ValueError] out of the
    header search, with five values taken from the stream and no header
    held; no status value is returned. *)
Theorem undefined_type_code_raises :
  let b := snd (append_all [0xaa; 0x55; 0; 2; 4; 0; 0; 0xfb] (circularBuffer.init 50)) in
  let polled := checkForPacketReady (snd (setStreams (Stream b) None (packetTool.init 0))) in
  sumZ [0xaa; 0x55; 0; 2; 4; 0; 0; 0xfb] mod 256 = 0 /\
  of_value 4 = Raise ValueError /\
  fst polled = Raise ValueError /\
  inbound (snd polled) = [0; 0; 0xfb] /\
  headerValid (snd polled) = false.
Proof. vm_compute. repeat split. Qed.

(** C4 (the code departs from it).  On device 0, [sendString(0, NO_PKT, "")]
    builds the bytes [AA 55 00 00 00 00 01 00], whose sum is 256.  The claim
    asks for the final byte [(256 - 0) mod 256 = 0]; the code stores
    [0x100 - 0 = 256] into the byte array, which raises [OverflowError], and
    nothing is sent. *)
Theorem sendString_zero_sum_overflows :
  let sock := pysocket.mkSocket [] [] true false false in
  let tool := snd (setStreams NoneObject (Some sock) (packetTool.init 0)) in
  let sending := sendString 0 NO_PKT [] tool in
  take 8 (outBuffer (snd sending)) = [0xaa; 0x55; 0; 0; 0; 0; 1; 0] /\
  sumZ [0xaa; 0x55; 0; 0; 0; 0; 1; 0] mod 256 = 0 /\
  checksum_byte [0xaa; 0x55; 0; 0; 0; 0; 1; 0] = 0 /\
  fst sending = Raise OverflowError /\
  byteOut (snd sending) = Some sock.
Proof. vm_compute. repeat split. Qed.

(** ** Disconnecting *)

(** C8 (the code departs from it).  On a link that never accepted a
    connection [clientSocket] is [None]: [disconnect] resets the receive
    buffer and the flag and then raises [AttributeError] at
    [self.clientSocket.shutdown], which is neither tolerated nor the
    transport-broken error. *)
Theorem disconnect_before_connection_raises :
  ethernetLink.clientSocket ethernetLink.init = None /\
  ethernetLink.getConnected ethernetLink.init = false /\
  ethernetLink.disconnect ethernetLink.init = (Raise AttributeError, ethernetLink.init).
Proof. vm_compute. repeat split. Qed.

(** ** Further properties of the ring buffer *)

Lemma retrieve_n_contents xs : forall b,
  wf b -> contents b = xs ->
  exists b',
    retrieve_n (length xs) b = (Ok xs, b') /\ wf b' /\
    bufferSize b' = bufferSize b /\ contents b' = [].
Proof.
  induction xs as [| x xs IH]; intros b Hwf Hc.
  - exists b. simpl. auto.
  - destruct (retrieve_cons b x xs Hwf Hc) as (b1 & Hr & Hwf1 & HC1 & Hc1).
    destruct (IH b1 Hwf1 Hc1) as (b' & Hn & Hwf' & HC' & Hc').
    exists b'. simpl. rewrite (bind_Ok _ _ _ _ _ Hr), (bind_Ok _ _ _ _ _ Hn).
    split; [reflexivity |]. split; [exact Hwf' |]. split; [congruence | exact Hc'].
Qed.

Lemma available_length_contents b :
  wf b -> available b = Z.of_nat (length (contents b)).
Proof.
  intros Hwf. pose proof (available_range b Hwf). rewrite length_contents. lia.
Qed.

(** X1.  First in, first out: values appended to a buffer with room for them come
    out of [retrieve] after the values already waiting, in the order of the
    appends, and then the buffer is empty. *)
Theorem append_then_retrieve_is_fifo (C : Z) (b : CircularBuffer) (vs : list Z) :
  1 <= C -> reachable C b ->
  Forall (fun v => fits TC_i v = true) vs ->
  available b + Z.of_nat (length vs) <= C - 1 ->
  exists b1 b2,
    append_all vs b = (Ok tt, b1) /\
    available b1 = available b + Z.of_nat (length vs) /\
    retrieve_n (Z.to_nat (available b1)) b1 = (Ok (contents b ++ vs), b2) /\
    available b2 = 0.
Proof.
  intros HC Hreach Hfits Hroom.
  destruct (reachable_wf C b HC Hreach) as [Hwf HCb].
  destruct (append_all_contents vs b Hwf Hfits) as (b1 & Happ & Hwf1 & HC1 & Hc1);
    [lia |].
  destruct (retrieve_n_contents (contents b ++ vs) b1 Hwf1 Hc1)
    as (b2 & Hn & Hwf2 & HC2 & Hc2).
  exists b1, b2. split; [exact Happ |].
  assert (Hav1 : available b1 = available b + Z.of_nat (length vs)).
  { rewrite (available_length_contents b1 Hwf1), Hc1, length_app,
      (available_length_contents b Hwf). lia. }
  split; [exact Hav1 |]. split.
  - rewrite <- Hn. f_equal.
    rewrite (available_length_contents b1 Hwf1), Hc1. lia.
  - now apply (contents_nil b2 Hwf2).
Qed.

Lemma append_then_retrieve_is_fifo_witness :
  exists b1 b2,
    append_all [5; 6; 7] (circularBuffer.init 4) = (Ok tt, b1) /\
    available b1 = available (circularBuffer.init 4) + Z.of_nat (length [5; 6; 7]) /\
    retrieve_n (Z.to_nat (available b1)) b1
      = (Ok (contents (circularBuffer.init 4) ++ [5; 6; 7]), b2) /\
    available b2 = 0.
Proof.
  apply (append_then_retrieve_is_fifo 4 (circularBuffer.init 4) [5; 6; 7]).
  - lia.
  - apply reach_init.
  - repeat constructor.
  - vm_compute. discriminate.
Defined.

(** X2.  [retrieve] on a buffer with nothing available raises [NoBytesAvailable]
    and changes nothing; otherwise it returns the oldest value, leaves the
    others in order and lowers [available] by exactly one. *)
Theorem retrieve_takes_the_oldest (C : Z) (b : CircularBuffer) :
  1 <= C -> reachable C b ->
  (available b = 0 -> retrieve b = (Raise NoBytesAvailable, b)) /\
  (available b <> 0 ->
   exists x rest b',
     contents b = x :: rest /\
     retrieve b = (Ok x, b') /\
     contents b' = rest /\
     available b' = available b - 1).
Proof.
  intros HC Hreach.
  destruct (reachable_wf C b HC Hreach) as [Hwf HCb].
  split; [apply retrieve_empty |].
  intros Hne.
  destruct (retrieve_nonempty b Hwf Hne) as (b' & Hr & Hwf' & _ & Hav' & Hc).
  exists (slot b 0), (contents b'), b'. auto.
Qed.

Lemma retrieve_takes_the_oldest_witness :
  (available (snd (append_all [5; 6] (circularBuffer.init 4))) = 0 ->
   retrieve (snd (append_all [5; 6] (circularBuffer.init 4)))
     = (Raise NoBytesAvailable, snd (append_all [5; 6] (circularBuffer.init 4)))) /\
  (available (snd (append_all [5; 6] (circularBuffer.init 4))) <> 0 ->
   exists x rest b',
     contents (snd (append_all [5; 6] (circularBuffer.init 4))) = x :: rest /\
     retrieve (snd (append_all [5; 6] (circularBuffer.init 4))) = (Ok x, b') /\
     contents b' = rest /\
     available b' = available (snd (append_all [5; 6] (circularBuffer.init 4))) - 1).
Proof.
  apply (retrieve_takes_the_oldest 4 (snd (append_all [5; 6] (circularBuffer.init 4)))).
  - lia.
  - change (snd (append_all [5; 6] (circularBuffer.init 4)))
      with (snd (append 6 (snd (append 5 (circularBuffer.init 4))))).
    apply reach_append, reach_append, reach_init.
Defined.

(** X3.  [peek] returns the value the next [retrieve] returns and leaves the
    buffer as it is, so repeated peeks agree. *)
Theorem peek_shows_next_retrieve (C : Z) (b : CircularBuffer) :
  1 <= C -> reachable C b -> available b <> 0 ->
  exists x b',
    peek b = (Ok x, b) /\ retrieve b = (Ok x, b') /\
    available b' = available b - 1.
Proof.
  intros HC Hreach Hne.
  destruct (reachable_wf C b HC Hreach) as [Hwf HCb].
  destruct (retrieve_nonempty b Hwf Hne) as (b' & Hr & _ & _ & Hav' & Hc).
  exists (slot b 0), b'. split; [| auto].
  exact (peek_cons b _ _ Hwf Hc).
Qed.

Lemma peek_shows_next_retrieve_witness :
  exists x b',
    peek (snd (append 9 (circularBuffer.init 4)))
      = (Ok x, snd (append 9 (circularBuffer.init 4))) /\
    retrieve (snd (append 9 (circularBuffer.init 4))) = (Ok x, b') /\
    available b' = available (snd (append 9 (circularBuffer.init 4))) - 1.
Proof.
  apply (peek_shows_next_retrieve 4 (snd (append 9 (circularBuffer.init 4)))).
  - lia.
  - apply reach_append, reach_init.
  - vm_compute. discriminate.
Defined.

(** X4.  One append moves [available] one step round the ring of [C] positions:
    it adds the value behind those waiting while fewer than [C - 1] wait,
    and with [C - 1] waiting it makes the cursors meet, after which nothing
    is available and all [C] values are out of reach.  A value that is not
    a C int raises [OverflowError] and changes nothing. *)
Theorem append_advances_available (C : Z) (b : CircularBuffer) (v : Z) :
  1 <= C -> reachable C b ->
  (fits TC_i v = false -> append v b = (Raise OverflowError, b)) /\
  (fits TC_i v = true ->
   exists b',
     append v b = (Ok tt, b') /\
     available b' = (available b + 1) mod C /\
     (available b < C - 1 -> contents b' = contents b ++ [v]) /\
     (available b = C - 1 -> contents b' = [])).
Proof.
  intros HC Hreach.
  destruct (reachable_wf C b HC Hreach) as [Hwf HCb].
  pose proof (available_range b Hwf) as Hav. rewrite HCb in Hav.
  split.
  - intros Hv. destruct Hwf as (_ & HL & Hi & _).
    unfold append, setitem. rewrite py_index_in_range by lia. now rewrite Hv.
  - intros Hv.
    destruct (append_step b v Hwf Hv) as (b' & Happ & Hwf' & HC' & Hr' & Hi' & Hb').
    exists b'. split; [exact Happ |].
    assert (Hav' : available b' = (available b + 1) mod C).
    { assert (Hmod : (available b + 1) mod C
                     = if available b + 1 =? C then 0 else available b + 1).
      { destruct (Z.eqb_spec (available b + 1) C) as [E | E].
        - rewrite E. apply Z.mod_same. lia.
        - apply Z.mod_small. lia. }
      assert (Hins : nextInsertIndex b'
                     = if nextInsertIndex b + 1 =? C then 0 else nextInsertIndex b + 1).
      { rewrite Hi', HCb. destruct Hwf as (_ & _ & Hi & _). rewrite HCb in Hi.
        destruct (Z.eqb_spec (nextInsertIndex b + 1) C) as [E | E].
        - rewrite E. apply Z.mod_same. lia.
        - apply Z.mod_small. lia. }
      rewrite Hmod. destruct Hwf as (_ & _ & Hi & Hr & _). rewrite HCb in *.
      unfold available in *. rewrite Hins, Hr', HC', HCb.
      destruct (Z.eqb_spec (nextInsertIndex b + 1) C);
        destruct (Z.geb_spec (nextInsertIndex b) (nextRetrieveIndex b));
        destruct (Z.geb_spec 0 (nextRetrieveIndex b));
        destruct (Z.geb_spec (nextInsertIndex b + 1) (nextRetrieveIndex b));
        match goal with |- context [?x =? C] => destruct (Z.eqb_spec x C) end; lia. }
    split; [exact Hav' |]. split.
    + intros Hroom.
      destruct (append_snoc b v Hwf Hv) as (b2 & Happ2 & _ & _ & Hc2); [lia |].
      rewrite Happ in Happ2. now injection Happ2 as ->.
    + intros Hfull. apply (contents_nil b' Hwf').
      rewrite Hav', Hfull. replace (C - 1 + 1) with C by lia.
      apply Z.mod_same. lia.
Qed.

Lemma append_advances_available_witness :
  (fits TC_i 9 = false ->
   append 9 (snd (append 8 (circularBuffer.init 2)))
     = (Raise OverflowError, snd (append 8 (circularBuffer.init 2)))) /\
  (fits TC_i 9 = true ->
   exists b',
     append 9 (snd (append 8 (circularBuffer.init 2))) = (Ok tt, b') /\
     available b' = (available (snd (append 8 (circularBuffer.init 2))) + 1) mod 2 /\
     (available (snd (append 8 (circularBuffer.init 2))) < 2 - 1 ->
      contents b' = contents (snd (append 8 (circularBuffer.init 2))) ++ [9]) /\
     (available (snd (append 8 (circularBuffer.init 2))) = 2 - 1 -> contents b' = [])).
Proof.
  apply (append_advances_available 2 (snd (append 8 (circularBuffer.init 2))) 9).
  - lia.
  - apply reach_append, reach_init.
Defined.

(** X5.  What [read] does when the caller's array has room: with [m] the
    smaller of [available()] and [pNumBytesToRead + 1], it moves the [m]
    oldest values to [pBuffer[pOffset .. pOffset + m - 1]], leaves the rest
    of the array and of the buffer as they were, and returns
    [pOffset + m]. *)
Theorem read_moves_oldest_values (C : Z) (b : CircularBuffer)
    (pBuffer : list Z) (pOffset pNumBytesToRead : Z) :
  1 <= C -> reachable C b ->
  0 <= pOffset -> 0 <= pNumBytesToRead ->
  let m := Z.min (available b) (pNumBytesToRead + 1) in
  pOffset + m <= Z.of_nat (length pBuffer) ->
  exists b',
    read pOffset pNumBytesToRead (b, pBuffer) =
      (Ok (pOffset + m),
       (b', take (Z.to_nat pOffset) pBuffer ++ take (Z.to_nat m) (contents b)
              ++ drop (Z.to_nat (pOffset + m)) pBuffer)) /\
    contents b' = drop (Z.to_nat m) (contents b) /\
    available b' = available b - m.
Proof.
  intros HC Hreach Hoff Hn m Hlen.
  destruct (reachable_wf C b HC Hreach) as [Hwf HCb].
  destruct (read_spec pOffset pNumBytesToRead b pBuffer Hwf Hoff Hn Hlen)
    as (b' & Hread & Hwf' & HC' & Hc').
  exists b'. split; [exact Hread |]. split; [exact Hc' |].
  rewrite (available_length_contents b' Hwf'), Hc', length_drop,
    <- (Nat2Z.id (length (contents b))), <- (available_length_contents b Hwf).
  pose proof (available_range b Hwf). fold m. lia.
Qed.

Lemma read_moves_oldest_values_witness :
  exists b',
    read 1 0 (snd (append_all [5; 6] (circularBuffer.init 4)), [0; 0; 0]) =
      (Ok (1 + Z.min (available (snd (append_all [5; 6] (circularBuffer.init 4)))) (0 + 1)),
       (b', take (Z.to_nat 1) [0; 0; 0]
              ++ take (Z.to_nat (Z.min (available (snd (append_all [5; 6]
                                                         (circularBuffer.init 4)))) (0 + 1)))
                   (contents (snd (append_all [5; 6] (circularBuffer.init 4))))
              ++ drop (Z.to_nat (1 + Z.min (available (snd (append_all [5; 6]
                                                            (circularBuffer.init 4))))
                                     (0 + 1))) [0; 0; 0])) /\
    contents b' = drop (Z.to_nat (Z.min (available (snd (append_all [5; 6]
                                                         (circularBuffer.init 4)))) (0 + 1)))
                    (contents (snd (append_all [5; 6] (circularBuffer.init 4)))) /\
    available b' = available (snd (append_all [5; 6] (circularBuffer.init 4)))
                   - Z.min (available (snd (append_all [5; 6] (circularBuffer.init 4))))
                       (0 + 1).
Proof.
  apply (read_moves_oldest_values 4 (snd (append_all [5; 6] (circularBuffer.init 4)))
           [0; 0; 0] 1 0).
  - lia.
  - change (snd (append_all [5; 6] (circularBuffer.init 4)))
      with (snd (append 6 (snd (append 5 (circularBuffer.init 4))))).
    apply reach_append, reach_append, reach_init.
  - lia.
  - lia.
  - vm_compute. discriminate.
Defined.

Lemma buffer_retrieve b : buffer (snd (retrieve b)) = buffer b.
Proof.
  unfold retrieve. destruct (available b =? 0); [reflexivity |].
  destruct (getitem _ _) as [?|?|]; reflexivity.
Qed.

Lemma buffer_read_loop fuel n : forall count i b pBuffer,
  buffer (fst (snd (read_loop fuel n count i (b, pBuffer)))) = buffer b.
Proof.
  induction fuel as [| fuel IH]; intros count i b pBuffer; simpl.
  - destruct (count <=? n); reflexivity.
  - destruct (count <=? n); [| reflexivity].
    pose proof (buffer_retrieve b) as HR.
    destruct (retrieve b) as [[v | e |] b']; simpl in HR.
    + destruct (setitem TC_i pBuffer i v) as [pBuffer' | e |]; try exact HR.
      rewrite IH. exact HR.
    + destruct e; exact HR.
    + exact HR.
Qed.

(** X6.  The constructor allocates [C + 1] slots, but the last one is never
    used: in every reachable state [buffer[C]] still holds the 0 it was
    created with, and the storage never changes length. *)
Theorem spare_slot_is_never_written (C : Z) (b : CircularBuffer) :
  1 <= C -> reachable C b ->
  length (buffer b) = Z.to_nat (C + 1) /\
  buffer b !! Z.to_nat C = Some 0.
Proof.
  intros HC Hreach.
  induction Hreach as
    [| b Hr IH | b v Hr IH | b Hr IH | b Hr IH | b pBuffer pOffset n Hr IH].
  - unfold circularBuffer.init, zeros_upto. simpl. rewrite length_replicate.
    split; [reflexivity |]. apply lookup_replicate. split; [reflexivity | lia].
  - exact IH.
  - destruct (reachable_wf C b HC Hr) as [Hwf HCb].
    destruct (fits TC_i v) eqn:Hv.
    + destruct (append_step b v Hwf Hv) as (b' & Ha & _ & _ & _ & _ & Hb').
      rewrite Ha. simpl. rewrite Hb', length_insert.
      split; [apply IH |].
      rewrite list_lookup_insert_ne; [apply IH |].
      destruct Hwf as (_ & _ & Hi & _). lia.
    + destruct Hwf as (_ & HL & Hi & _).
      unfold append, setitem. rewrite py_index_in_range by lia. rewrite Hv. exact IH.
  - rewrite buffer_retrieve. exact IH.
  - unfold peek. destruct (available b =? 0); [exact IH |].
    destruct (getitem _ _) as [?|?|]; exact IH.
  - unfold read. rewrite buffer_read_loop. exact IH.
Qed.

Lemma spare_slot_is_never_written_witness :
  length (buffer (snd (append 7 (circularBuffer.init 1)))) = Z.to_nat (1 + 1) /\
  buffer (snd (append 7 (circularBuffer.init 1))) !! Z.to_nat 1 = Some 0.
Proof.
  apply (spare_slot_is_never_written 1 (snd (append 7 (circularBuffer.init 1)))).
  - lia.
  - apply reach_append, reach_init.
Defined.

(** ** Further properties of the field parsers and the type codes *)

Lemma land_pow2 v k :
  0 <= k -> Z.land v (2 ^ k) = if Z.testbit v k then 2 ^ k else 0.
Proof.
  intros Hk. apply Z.bits_inj'. intros m Hm.
  rewrite Z.land_spec, Z.pow2_bits_eqb by lia.
  destruct (Z.eqb_spec k m) as [<- | Hne].
  - rewrite andb_true_r. destruct (Z.testbit v k) eqn:E.
    + rewrite Z.pow2_bits_eqb by lia. symmetry. apply Z.eqb_refl.
    + symmetry. apply Z.bits_0.
  - rewrite andb_false_r. destruct (Z.testbit v k).
    + rewrite Z.pow2_bits_eqb by lia. symmetry. now apply Z.eqb_neq.
    + symmetry. apply Z.bits_0.
Qed.

Lemma mod_pow2_succ v k :
  0 <= k ->
  v mod 2 ^ (k + 1) = v mod 2 ^ k + (if Z.testbit v k then 2 ^ k else 0).
Proof.
  intros Hk.
  assert (Hp : 0 < 2 ^ k) by (apply Z.pow_pos_nonneg; lia).
  rewrite Z.pow_add_r, Z.pow_1_r by lia.
  rewrite Z.rem_mul_r by lia.
  f_equal.
  destruct (Z.testbit v k) eqn:E.
  - apply (proj1 (Z.testbit_true v k Hk)) in E. rewrite E. lia.
  - apply (proj1 (Z.testbit_false v k Hk)) in E. rewrite E. lia.
Qed.

Lemma signExtend_value (pValue pBits : Z) :
  (pBits <= 0 -> signExtend pValue pBits = Raise ValueError) /\
  (1 <= pBits ->
   let low := pValue mod 2 ^ pBits in
   signExtend pValue pBits
     = Ok (if low <? 2 ^ (pBits - 1) then low else low - 2 ^ pBits) /\
   exists r,
     signExtend pValue pBits = Ok r /\
     - 2 ^ (pBits - 1) <= r < 2 ^ (pBits - 1) /\
     (r - pValue) mod 2 ^ pBits = 0).
Proof.
  split.
  - intros Hle. unfold signExtend.
    destruct (Z.ltb_spec (pBits - 1) 0); [reflexivity | lia].
  - intros Hge low.
    set (k := pBits - 1).
    assert (Hk : 0 <= k) by (unfold k; lia).
    assert (Hp : 0 < 2 ^ k) by (apply Z.pow_pos_nonneg; lia).
    assert (Hpow : 2 ^ pBits = 2 * 2 ^ k).
    { replace pBits with (k + 1) by (unfold k; lia).
      rewrite Z.pow_add_r, Z.pow_1_r by lia. lia. }
    assert (Hlow : low = pValue mod 2 ^ k + (if Z.testbit pValue k then 2 ^ k else 0)).
    { unfold low. replace pBits with (k + 1) by (unfold k; lia).
      now apply mod_pow2_succ. }
    pose proof (Z.mod_pos_bound pValue (2 ^ k) Hp) as Hbound.
    assert (Hval : signExtend pValue pBits
                   = Ok (if low <? 2 ^ k then low else low - 2 ^ pBits)).
    { unfold signExtend. fold k.
      destruct (Z.ltb_spec k 0); [lia |].
      rewrite Z.shiftl_1_l.
      replace (2 ^ k - 1) with (Z.ones k) by (rewrite Z.ones_equiv; lia).
      rewrite Z.land_ones by lia. rewrite land_pow2 by lia.
      f_equal. rewrite Hlow, Hpow.
      destruct (Z.testbit pValue k);
        match goal with |- context [?a <? ?c] => destruct (Z.ltb_spec a c) end; lia. }
    split; [exact Hval |].
    eexists. split; [exact Hval |].
    pose proof (Z.mod_pos_bound pValue (2 ^ pBits) ltac:(lia)) as Hlb. fold low in Hlb.
    split.
    + destruct (Z.ltb_spec low (2 ^ k)); lia.
    + destruct (Z.ltb_spec low (2 ^ k)).
      * unfold low. rewrite Zminus_mod_idemp_l, Z.sub_diag. reflexivity.
      * unfold low.
        replace (pValue mod 2 ^ pBits - 2 ^ pBits - pValue)
          with (pValue mod 2 ^ pBits - pValue + (-1) * 2 ^ pBits) by lia.
        rewrite Z.mod_add by lia.
        rewrite Zminus_mod_idemp_l, Z.sub_diag. reflexivity.
Qed.

(** X7.  [signExtend] reads the low [pBits] bits of [pValue] as a two's-complement
    number, whatever the other bits and the sign of [pValue] are; with
    [pBits <= 0] the shift count is negative and Python raises
    [ValueError]. *)
Theorem signExtend_is_twos_complement (pValue pBits : Z) :
  (pBits <= 0 -> signExtend pValue pBits = Raise ValueError) /\
  (1 <= pBits ->
   let low := pValue mod 2 ^ pBits in
   signExtend pValue pBits
     = Ok (if low <? 2 ^ (pBits - 1) then low else low - 2 ^ pBits) /\
   exists r,
     signExtend pValue pBits = Ok r /\
     - 2 ^ (pBits - 1) <= r < 2 ^ (pBits - 1) /\
     (r - pValue) mod 2 ^ pBits = 0).
Proof. exact (signExtend_value pValue pBits). Qed.

Lemma signExtend_is_twos_complement_witness :
  signExtend 0x1ff80 8
    = Ok (if 0x1ff80 mod 2 ^ 8 <? 2 ^ (8 - 1)
          then 0x1ff80 mod 2 ^ 8 else 0x1ff80 mod 2 ^ 8 - 2 ^ 8) /\
  exists r,
    signExtend 0x1ff80 8 = Ok r /\
    - 2 ^ (8 - 1) <= r < 2 ^ (8 - 1) /\
    (r - 0x1ff80) mod 2 ^ 8 = 0.
Proof.
  apply (proj2 (signExtend_is_twos_complement 0x1ff80 8)). lia.
Defined.

(** X8.  [parseUnsignedByteFromPacket], for all its name, returns the byte at the
    cursor as a signed value between -128 and 127, advances the cursor by
    one and always reports [PACKET_VALID]; a cursor at or past the end of
    [inBuffer] raises [IndexError]. *)
Theorem parseUnsignedByteFromPacket_is_signed (self : PacketTool) (pIndex : Z) :
  0 <= pIndex ->
  (forall b : Z,
     inBuffer self !! Z.to_nat pIndex = Some b -> is_byte b ->
     parseUnsignedByteFromPacket self pIndex
       = Ok (PACKET_VALID, pIndex + 1, if b <? 128 then b else b - 256)) /\
  (Z.of_nat (length (inBuffer self)) <= pIndex ->
   parseUnsignedByteFromPacket self pIndex = Raise IndexError).
Proof.
  intros Hi. split.
  - intros b Hb Hbyte. unfold parseUnsignedByteFromPacket.
    rewrite (getitem_lookup _ _ _ Hi Hb). cbn [and_then].
    destruct (proj2 (signExtend_value b 8) ltac:(lia)) as [Hval _].
    cbv zeta in Hval. rewrite Hval. cbn [and_then].
    unfold is_byte in Hbyte.
    change (2 ^ 8) with 256. change (2 ^ (8 - 1)) with 128.
    rewrite Z.mod_small by lia. reflexivity.
  - intros Hout. unfold parseUnsignedByteFromPacket, getitem, py_index.
    destruct (Z.leb_spec 0 pIndex); [| lia].
    destruct (Z.ltb_spec pIndex (Z.of_nat (length (inBuffer self)))); [lia |].
    destruct (Z.ltb_spec pIndex 0); [lia |].
    reflexivity.
Qed.

Lemma parseUnsignedByteFromPacket_is_signed_witness :
  (forall b : Z,
     inBuffer (set_inBuffer [200; 1] (packetTool.init 0)) !! Z.to_nat 0 = Some b ->
     is_byte b ->
     parseUnsignedByteFromPacket (set_inBuffer [200; 1] (packetTool.init 0)) 0
       = Ok (PACKET_VALID, 0 + 1, if b <? 128 then b else b - 256)) /\
  (Z.of_nat (length (inBuffer (set_inBuffer [200; 1] (packetTool.init 0)))) <= 0 ->
   parseUnsignedByteFromPacket (set_inBuffer [200; 1] (packetTool.init 0)) 0
     = Raise IndexError).
Proof.
  apply (parseUnsignedByteFromPacket_is_signed
           (set_inBuffer [200; 1] (packetTool.init 0)) 0).
  lia.
Defined.

(** X9.  [PacketTypeEnum(code)] inverts [.value]: it returns the member whose
    value is [code], and raises [ValueError] exactly for the codes no
    member has, that is, all but 0..3 and 11..16. *)
Theorem PacketTypeEnum_lookup (code : Z) :
  (forall t, of_value code = Ok t <-> packetTypeEnum.value t = code) /\
  (of_value code = Raise ValueError <->
   ~ (0 <= code <= 3 \/ 11 <= code <= 16)).
Proof.
  assert (Hcases :
    (exists t, of_value code = Ok t /\ packetTypeEnum.value t = code /\
               (0 <= code <= 3 \/ 11 <= code <= 16)) \/
    (of_value code = Raise ValueError /\ ~ (0 <= code <= 3 \/ 11 <= code <= 16))).
  { unfold of_value, members. cbn [List.find packetTypeEnum.value].
    repeat match goal with
           | |- context [?a =? code] =>
               destruct (Z.eqb_spec a code);
               [ left; eexists; split; [reflexivity | split; [subst; reflexivity | lia]] |]
           end.
    right. split; [reflexivity | lia]. }
  split.
  - intros t. split.
    + intros Hok. destruct Hcases as [(t' & Hok' & Hv & _) | [Hraise _]];
        [| congruence].
      rewrite Hok in Hok'. now injection Hok' as ->.
    + intros <-. apply of_value_value.
  - split.
    + intros Hraise. destruct Hcases as [(t' & Hok' & _) | [_ Hout]];
        [congruence | exact Hout].
    + intros Hout. destruct Hcases as [(t' & _ & _ & Hin) | [Hraise _]];
        [contradiction | exact Hraise].
Qed.

(** ** Sending *)

Lemma take_add_drop {A : Type} (l : list A) (c d : nat) :
  take (c + d) l = take c l ++ take d (drop c l).
Proof.
  revert l. induction c as [| c IH]; intros l; simpl.
  - now rewrite drop_0.
  - destruct l as [| x l]; simpl.
    + now rewrite take_nil.
    + now rewrite IH.
Qed.

Lemma length_slice (a : list Z) lo hi :
  0 <= lo <= hi -> hi <= Z.of_nat (length a) ->
  Z.of_nat (length (slice a lo hi)) = hi - lo.
Proof.
  intros H1 H2. unfold slice. rewrite length_take, length_drop. lia.
Qed.

Lemma slice_split (a : list Z) lo mid hi :
  0 <= lo <= mid -> mid <= hi ->
  slice a lo hi = take (Z.to_nat (mid - lo)) (slice a lo hi) ++ slice a mid hi.
Proof.
  intros H1 H2. unfold slice.
  rewrite take_take.
  replace (Z.to_nat (mid - lo) `min` (Z.to_nat hi - Z.to_nat lo))%nat
    with (Z.to_nat (mid - lo)) by lia.
  replace (Z.to_nat hi - Z.to_nat lo)%nat
    with (Z.to_nat (mid - lo) + (Z.to_nat hi - Z.to_nat mid))%nat at 1 by lia.
  rewrite take_add_drop. f_equal. rewrite drop_drop. do 2 f_equal. lia.
Qed.

Lemma set_byteOut_twice s1 s2 (self : PacketTool) :
  set_byteOut s2 (set_byteOut s1 self) = set_byteOut s2 self.
Proof. reflexivity. Qed.

Lemma sendOutBuffer_loop_spec n fuel : forall totalSent self sock,
  byteOut self = Some sock ->
  pysocket.isClosed sock = false ->
  Forall (fun k => 1 <= k) (pysocket.sendCounts sock) ->
  0 <= totalSent <= n -> n <= Z.of_nat (length (outBuffer self)) ->
  (Z.to_nat (n - totalSent) <= fuel)%nat ->
  exists sock',
    sendOutBuffer_loop fuel n totalSent self = (Ok true, set_byteOut (Some sock') self) /\
    pysocket.sent sock' = pysocket.sent sock ++ slice (outBuffer self) totalSent n /\
    pysocket.isClosed sock' = false /\
    Forall (fun k => 1 <= k) (pysocket.sendCounts sock').
Proof.
  induction fuel as [| fuel IH]; intros totalSent self sock Hout Hopen Hpos Hts Hn Hfuel.
  - simpl. destruct (Z.ltb_spec totalSent n); [lia |].
    exists sock. split.
    + destruct self; simpl in *; now subst.
    + unfold slice. replace (Z.to_nat n - Z.to_nat totalSent)%nat with O by lia.
      simpl. rewrite app_nil_r. auto.
  - simpl. destruct (Z.ltb_spec totalSent n) as [Hlt | Hge].
    2:{ exists sock. split.
        + destruct self; simpl in *; now subst.
        + unfold slice. replace (Z.to_nat n - Z.to_nat totalSent)%nat with O by lia.
          simpl. rewrite app_nil_r. auto. }
    rewrite bind_get.
    set (data := slice (outBuffer self) totalSent n).
    assert (Hlen : Z.of_nat (length data) = n - totalSent)
      by (apply length_slice; lia).
    set (cnt := match pysocket.sendCounts sock with
                | [] => Z.of_nat (length data)
                | k :: _ => Z.max 0 (Z.min k (Z.of_nat (length data)))
                end).
    assert (Hcnt : 1 <= cnt <= n - totalSent).
    { unfold cnt. destruct (pysocket.sendCounts sock) as [| k rest]; [lia |].
      inversion Hpos; subst. lia. }
    set (sock1 := pysocket.mkSocket
                    (pysocket.sent sock ++ take (Z.to_nat cnt) data)
                    (tail (pysocket.sendCounts sock))
                    (pysocket.peerConnected sock) (pysocket.closeError sock) false).
    assert (Hsend : byteOut_send data self = (Ok cnt, set_byteOut (Some sock1) self)).
    { unfold byteOut_send, pysocket.send. rewrite Hout, Hopen. reflexivity. }
    rewrite (bind_Ok _ _ _ _ _ Hsend).
    destruct (Z.eqb_spec cnt 0) as [E | _]; [lia |].
    destruct (IH (totalSent + cnt) (set_byteOut (Some sock1) self) sock1)
      as (sock' & Hloop & Hsent & Hopen' & Hpos').
    + destruct self; reflexivity.
    + reflexivity.
    + unfold sock1. simpl. destruct (pysocket.sendCounts sock); [constructor |].
      now inversion Hpos.
    + lia.
    + destruct self; simpl in *; lia.
    + lia.
    + exists sock'. rewrite Hloop, set_byteOut_twice.
      split; [reflexivity |]. split; [| auto].
      rewrite Hsent. unfold sock1. simpl pysocket.sent.
      replace (outBuffer (set_byteOut (Some sock1) self)) with (outBuffer self)
        by (destruct self; reflexivity).
      rewrite <- app_assoc. f_equal.
      replace (Z.to_nat cnt) with (Z.to_nat (totalSent + cnt - totalSent)) by lia.
      symmetry. apply slice_split; lia.
Qed.

Lemma sendOutBuffer_prefix_core (self : PacketTool) (sock : pysocket.Socket)
    (pNumBytesToSend : Z) :
  byteOut self = Some sock ->
  pysocket.isClosed sock = false ->
  Forall (fun k => 1 <= k) (pysocket.sendCounts sock) ->
  0 <= pNumBytesToSend <= Z.of_nat (length (outBuffer self)) ->
  exists sock',
    sendOutBuffer pNumBytesToSend self = (Ok true, set_byteOut (Some sock') self) /\
    pysocket.sent sock'
      = pysocket.sent sock ++ take (Z.to_nat pNumBytesToSend) (outBuffer self).
Proof.
  intros Hout Hopen Hpos Hn.
  destruct (sendOutBuffer_loop_spec pNumBytesToSend (Z.to_nat pNumBytesToSend)
              0 self sock Hout Hopen Hpos) as (sock' & Hloop & Hsent & _); try lia.
  exists sock'. split; [exact Hloop |].
  rewrite Hsent. unfold slice. change (Z.to_nat 0) with O.
  now rewrite drop_0, Nat.sub_0_r.
Qed.

(** X10.  [sendOutBuffer] puts exactly the first [pNumBytesToSend] bytes of
    [outBuffer] on the wire, in order, however the socket splits the
    writes, as long as every [send] takes at least one byte; it returns
    [True]. *)
Theorem sendOutBuffer_sends_whole_prefix (self : PacketTool) (sock : pysocket.Socket)
    (pNumBytesToSend : Z) :
  byteOut self = Some sock ->
  pysocket.isClosed sock = false ->
  Forall (fun k => 1 <= k) (pysocket.sendCounts sock) ->
  0 <= pNumBytesToSend <= Z.of_nat (length (outBuffer self)) ->
  exists sock',
    sendOutBuffer pNumBytesToSend self = (Ok true, set_byteOut (Some sock') self) /\
    pysocket.sent sock'
      = pysocket.sent sock ++ take (Z.to_nat pNumBytesToSend) (outBuffer self).
Proof. exact (sendOutBuffer_prefix_core self sock pNumBytesToSend). Qed.

Lemma sendOutBuffer_sends_whole_prefix_witness :
  exists sock',
    sendOutBuffer 3
      (set_byteOut (Some (pysocket.mkSocket [9] [1; 5] true false false))
         (set_outBuffer [1; 2; 3; 4] (packetTool.init 0)))
    = (Ok true,
       set_byteOut (Some sock')
         (set_byteOut (Some (pysocket.mkSocket [9] [1; 5] true false false))
            (set_outBuffer [1; 2; 3; 4] (packetTool.init 0)))) /\
    pysocket.sent sock'
      = pysocket.sent (pysocket.mkSocket [9] [1; 5] true false false)
        ++ take (Z.to_nat 3)
             (outBuffer
                (set_byteOut (Some (pysocket.mkSocket [9] [1; 5] true false false))
                   (set_outBuffer [1; 2; 3; 4] (packetTool.init 0)))).
Proof.
  apply (sendOutBuffer_sends_whole_prefix
           (set_byteOut (Some (pysocket.mkSocket [9] [1; 5] true false false))
              (set_outBuffer [1; 2; 3; 4] (packetTool.init 0)))
           (pysocket.mkSocket [9] [1; 5] true false false) 3).
  - reflexivity.
  - reflexivity.
  - simpl. repeat constructor; lia.
  - simpl. lia.
Defined.

(** X11.  When a [send] makes no progress (returns 0) while bytes are left,
    [sendOutBuffer] raises [SocketBroken]; nothing has been added to the
    wire by that call. *)
Theorem sendOutBuffer_zero_progress_breaks (self : PacketTool) (sock : pysocket.Socket)
    (pNumBytesToSend k : Z) (rest : list Z) :
  byteOut self = Some sock ->
  pysocket.isClosed sock = false ->
  pysocket.sendCounts sock = k :: rest -> k <= 0 ->
  0 < pNumBytesToSend ->
  exists sock',
    sendOutBuffer pNumBytesToSend self
      = (Raise SocketBroken, set_byteOut (Some sock') self) /\
    pysocket.sent sock' = pysocket.sent sock /\
    pysocket.sendCounts sock' = rest.
Proof.
  intros Hout Hopen Hscript Hk Hn.
  unfold sendOutBuffer.
  destruct (Z.to_nat pNumBytesToSend) as [| fuel] eqn:Hfuel; [lia |].
  simpl. destruct (Z.ltb_spec 0 pNumBytesToSend); [| lia].
  rewrite bind_get.
  unfold bind, byteOut_send, pysocket.send. rewrite Hout, Hopen, Hscript.
  replace (Z.max 0 (Z.min k _)) with 0 by lia.
  simpl. eexists. split; [reflexivity |]. simpl. split; [apply app_nil_r | reflexivity].
Qed.

Lemma sendOutBuffer_zero_progress_breaks_witness :
  exists sock',
    sendOutBuffer 3
      (set_byteOut (Some (pysocket.mkSocket [9] [0; 5] true false false))
         (set_outBuffer [1; 2; 3; 4] (packetTool.init 0)))
    = (Raise SocketBroken,
       set_byteOut (Some sock')
         (set_byteOut (Some (pysocket.mkSocket [9] [0; 5] true false false))
            (set_outBuffer [1; 2; 3; 4] (packetTool.init 0)))) /\
    pysocket.sent sock' = pysocket.sent (pysocket.mkSocket [9] [0; 5] true false false) /\
    pysocket.sendCounts sock' = [5].
Proof.
  apply (sendOutBuffer_zero_progress_breaks
           (set_byteOut (Some (pysocket.mkSocket [9] [0; 5] true false false))
              (set_outBuffer [1; 2; 3; 4] (packetTool.init 0)))
           (pysocket.mkSocket [9] [0; 5] true false false) 3 0 [5]).
  - reflexivity.
  - reflexivity.
  - reflexivity.
  - lia.
  - lia.
Defined.

Lemma sendString_copy_spec msgBytes : forall x self,
  0 <= x < OUT_BUFFER_SIZE - 2 ->
  Forall is_byte msgBytes ->
  let k := Z.min (Z.of_nat (length msgBytes)) (OUT_BUFFER_SIZE - 2 - x) in
  x + k <= Z.of_nat (length (outBuffer self)) ->
  sendString_copy msgBytes x self =
    (Ok (x + k),
     set_outBuffer (take (Z.to_nat x) (outBuffer self) ++ take (Z.to_nat k) msgBytes
                    ++ drop (Z.to_nat (x + k)) (outBuffer self)) self).
Proof.
  unfold OUT_BUFFER_SIZE.
  induction msgBytes as [| c rest IH]; intros x self Hx Hbytes; cbv zeta;
    match goal with |- context [Z.min ?a ?b] => set (k := Z.min a b) end; intros Hlen.
  - simpl in k. assert (Hk : k = 0) by (unfold k; lia). rewrite Hk, Z.add_0_r.
    simpl. rewrite take_drop. destruct self; reflexivity.
  - inversion Hbytes as [| ? ? Hc Hrest]; subst.
    assert (Hk : 1 <= k) by (unfold k; simpl length; lia).
    simpl sendString_copy.
    rewrite (bind_Ok _ _ _ _ _ (outBuffer_set_ok x c self ltac:(lia)
                                  (fits_B_byte c Hc))).
    cbv zeta.
    assert (Hins : <[Z.to_nat x:=c]> (outBuffer self)
                   = take (Z.to_nat x) (outBuffer self) ++ c
                     :: drop (S (Z.to_nat x)) (outBuffer self))
      by (apply insert_take_drop; lia).
    destruct (Z.eqb_spec (x + 1) (OUT_BUFFER_SIZE - 2)) as [E | E];
      unfold OUT_BUFFER_SIZE in E.
    + assert (Hk1 : k = 1) by (unfold k; simpl length; lia).
      rewrite Hk1. unfold ret. f_equal. rewrite Hins.
      replace (Z.to_nat (x + 1)) with (S (Z.to_nat x)) by lia.
      destruct self; reflexivity.
    + set (self1 := set_outBuffer (<[Z.to_nat x:=c]> (outBuffer self)) self).
      assert (Hout1 : outBuffer self1 = <[Z.to_nat x:=c]> (outBuffer self))
        by (destruct self; reflexivity).
      specialize (IH (x + 1) self1 ltac:(lia) Hrest).
      cbv zeta in IH. rewrite Hout1, length_insert in IH.
      assert (Hk' : Z.min (Z.of_nat (length rest)) (1024 - 2 - (x + 1)) = k - 1)
        by (unfold k; simpl length; lia).
      rewrite Hk' in IH. rewrite IH by lia.
      f_equal; [f_equal; lia |].
      replace (Z.to_nat (x + 1)) with (S (Z.to_nat x)) by lia.
      replace (Z.to_nat (x + 1 + (k - 1))) with (Z.to_nat (x + k)) by lia.
      replace (Z.to_nat k) with (S (Z.to_nat (k - 1))) by lia.
      rewrite (take_S_r _ _ c) by (apply list_lookup_insert_eq; lia).
      rewrite take_insert_ge by lia.
      rewrite drop_insert_lt by lia.
      simpl. rewrite <- app_assoc. destruct self; reflexivity.
Qed.

Lemma sendString_sum_spec outBuffer fuel : forall j x checksum,
  0 <= j -> x <= Z.of_nat (length outBuffer) ->
  (Z.to_nat (x - j) <= fuel)%nat ->
  sendString_sum fuel outBuffer j x checksum = Ok (checksum + sumZ (slice outBuffer j x)).
Proof.
  induction fuel as [| fuel IH]; intros j x checksum Hj Hx Hfuel; simpl.
  - destruct (Z.ltb_spec j x); [lia |].
    unfold slice. replace (Z.to_nat x - Z.to_nat j)%nat with O by lia.
    simpl. now rewrite Z.add_0_r.
  - destruct (Z.ltb_spec j x) as [Hlt | Hge].
    + rewrite getitem_in_range by lia.
      destruct (lookup_lt_is_Some_2 outBuffer (Z.to_nat j)) as [v Hv]; [lia |].
      rewrite Hv. simpl default. rewrite IH by lia.
      unfold slice.
      replace (Z.to_nat x - Z.to_nat j)%nat
        with (S (Z.to_nat x - Z.to_nat (j + 1)))%nat by lia.
      rewrite (drop_S _ _ _ Hv).
      replace (Z.to_nat (j + 1)) with (S (Z.to_nat j)) by lia.
      simpl. f_equal. lia.
    + unfold slice. replace (Z.to_nat x - Z.to_nat j)%nat with O by lia.
      simpl. now rewrite Z.add_0_r.
Qed.


Lemma insert_after_prefix (p l : list Z) v :
  (length p < length l)%nat ->
  <[length p:=v]> (p ++ drop (length p) l) = (p ++ [v]) ++ drop (S (length p)) l.
Proof.
  intros Hlt.
  destruct (lookup_lt_is_Some_2 l (length p) Hlt) as [o Ho].
  rewrite (drop_S _ _ _ Ho).
  rewrite insert_app_r_alt by lia. rewrite Nat.sub_diag. simpl.
  now rewrite <- app_assoc.
Qed.

Lemma length_sendString_body dest dev t msgBytes :
  Z.of_nat (length (sendString_body dest dev t msgBytes))
  = 8 + Z.min (Z.of_nat (length msgBytes)) 1015.
Proof.
  unfold sendString_body. cbv zeta.
  rewrite length_app, length_app, length_take. simpl length. lia.
Qed.

(** [sendString] up to the store of the checksum byte: [outBuffer] then
    starts with the header, the text cut to 1015 bytes and the terminator,
    and the byte [0x100 - (sum & 0xff)] is about to be stored behind
    them. *)
Lemma sendString_frame_reduces pDestAddress pPacketType msgBytes self :
  is_byte pDestAddress -> is_byte (thisDeviceIdentifier self) ->
  length (outBuffer self) = Z.to_nat (OUT_BUFFER_SIZE + 1) ->
  Forall is_byte msgBytes ->
  let body := sendString_body pDestAddress (thisDeviceIdentifier self)
                pPacketType msgBytes in
  let x := Z.of_nat (length body) in
  sendString_frame pDestAddress pPacketType msgBytes self =
    bind (outBuffer_set x (0x100 - Z.land (sumZ body) 0xff)) (fun _ => ret (x + 1))
      (set_outBuffer (body ++ drop (length body) (outBuffer self)) self).
Proof.
  intros Hdest Hsrc Hlen Hbytes body x.
  pose proof (length_sendString_body pDestAddress (thisDeviceIdentifier self)
                pPacketType msgBytes) as Hbody. fold body in Hbody.
  unfold OUT_BUFFER_SIZE in Hlen.
  destruct self as [inB out dev bIn bOut ty hv np n1 ck d s rc].
  cbn [outBuffer thisDeviceIdentifier] in *.
  set (n := Z.of_nat (length msgBytes) + 1).
  set (h := [0xaa; 0x55; pDestAddress; dev; packetTypeEnum.value pPacketType;
             Z.land (Z.shiftr n 8) 0xff; Z.land n 0xff]).
  set (k := Z.min (Z.of_nat (length msgBytes)) 1015).
  assert (Htake : take 1015 msgBytes = take (Z.to_nat k) msgBytes).
  { unfold k. destruct (Z.min_spec (Z.of_nat (length msgBytes)) 1015) as [[? ->] | [? ->]].
    - rewrite !take_ge by lia. reflexivity.
    - reflexivity. }
  assert (Hbody_eq : body = (h ++ take (Z.to_nat k) msgBytes) ++ [0]).
  { unfold body, sendString_body. cbv zeta. fold n. fold h.
    now rewrite Htake, app_assoc. }
  set (p1 := h ++ take (Z.to_nat k) msgBytes) in *.
  assert (Hp1 : length p1 = Z.to_nat (7 + k)).
  { unfold p1. rewrite length_app, length_take. simpl length. unfold k. lia. }
  unfold sendString_frame. cbv zeta. fold n.
  (* header *)
  match goal with
  | |- context [bind (prepareHeader pDestAddress pPacketType n) ?kk ?st] =>
      rewrite (bind_Ok _ kk st _ _
                 (prepareHeader_spec pDestAddress pPacketType n st
                    Hdest Hsrc ltac:(cbn [outBuffer]; lia)));
      cbv beta
  end.
  flat. fold h.
  (* text *)
  match goal with
  | |- context [bind (sendString_copy msgBytes 7) ?kk ?st] =>
      rewrite (bind_Ok _ kk st _ _
                 (sendString_copy_spec msgBytes 7 st ltac:(unfold OUT_BUFFER_SIZE; lia)
                    Hbytes
                    ltac:(unfold OUT_BUFFER_SIZE; flat;
                          rewrite length_app, length_drop; simpl length; lia)));
      cbv beta
  end.
  unfold OUT_BUFFER_SIZE. flat.
  replace (Z.min (Z.of_nat (length msgBytes)) (1024 - 2 - 7)) with k by (unfold k; lia).
  assert (Hout1 : take (Z.to_nat 7) (h ++ drop 7 out) ++ take (Z.to_nat k) msgBytes
                  ++ drop (Z.to_nat (7 + k)) (h ++ drop 7 out)
                  = p1 ++ drop (length p1) out).
  { change (Z.to_nat 7) with (length h).
    rewrite take_app_length.
    replace (Z.to_nat (7 + k)) with (length h + Z.to_nat k)%nat
      by (simpl length; unfold k; lia).
    rewrite drop_app_add, drop_drop. unfold p1. rewrite <- app_assoc.
    do 3 f_equal. fold p1. rewrite Hp1. unfold k. lia. }
  rewrite Hout1.
  (* terminator *)
  destruct (Z.ltb_spec (7 + k) (1024 - 1)) as [_ | Hge]; [| unfold k in Hge; lia].
  match goal with
  | |- context [bind (bind (outBuffer_set ?i 0) ?k1) ?k2 ?st] =>
      assert (Hterm : bind (outBuffer_set i 0) k1 st
                      = (Ok (7 + k + 1),
                         mkPacketTool inB (body ++ drop (length body) out) dev bIn bOut
                           ty hv np n1 ck d s rc))
  end.
  { match goal with
    | |- context [bind (outBuffer_set ?i 0) ?kk ?st] =>
        rewrite (bind_Ok _ kk st _ _ (outBuffer_set_ok i 0 st
                   ltac:(flat; rewrite length_app, length_drop; unfold k; lia) eq_refl))
    end.
    unfold ret. f_equal. flat.
    replace (Z.to_nat (7 + k)) with (length p1) by lia.
    rewrite insert_after_prefix by lia.
    rewrite Hbody_eq. rewrite (length_app p1 [0]). simpl length.
    rewrite Nat.add_1_r. reflexivity. }
  rewrite (bind_Ok _ _ _ _ _ Hterm).
  (* sum *)
  rewrite bind_get. flat.
  unfold bind at 1.
  rewrite sendString_sum_spec;
    [| lia | rewrite length_app, length_drop; lia | lia].
  assert (Hslice : slice (body ++ drop (length body) out) 0 (7 + k + 1) = body).
  { unfold slice. change (Z.to_nat 0) with O. rewrite drop_0, Nat.sub_0_r.
    replace (Z.to_nat (7 + k + 1)) with (length body) by lia.
    apply take_app_length. }
  rewrite Hslice, Z.add_0_l.
  unfold x. replace (Z.of_nat (length body)) with (7 + k + 1) by lia.
  reflexivity.
Qed.

Lemma sendString_transmits_closed_frame_core (self : PacketTool) (sock : pysocket.Socket)
    (pDestAddress : Z) (pPacketType : PacketTypeEnum) (msgBytes : list Z) :
  is_byte pDestAddress -> is_byte (thisDeviceIdentifier self) ->
  length (outBuffer self) = Z.to_nat (OUT_BUFFER_SIZE + 1) ->
  Forall is_byte msgBytes ->
  byteOut self = Some sock ->
  pysocket.isClosed sock = false ->
  Forall (fun k => 1 <= k) (pysocket.sendCounts sock) ->
  let body := sendString_body pDestAddress (thisDeviceIdentifier self)
                pPacketType msgBytes in
  sumZ body mod 256 <> 0 ->
  exists self' sock',
    sendString pDestAddress pPacketType msgBytes self = (Ok true, self') /\
    byteOut self' = Some sock' /\
    pysocket.sent sock' = pysocket.sent sock ++ body ++ [checksum_byte body] /\
    sumZ (body ++ [checksum_byte body]) mod 256 = 0.
Proof.
  intros Hdest Hsrc Hlen Hbytes Hout Hopen Hpos body Hsum.
  pose proof (length_sendString_body pDestAddress (thisDeviceIdentifier self)
                pPacketType msgBytes) as Hbody. fold body in Hbody.
  pose proof (sendString_frame_reduces pDestAddress pPacketType msgBytes self
                Hdest Hsrc Hlen Hbytes) as Hframe.
  cbv zeta in Hframe. fold body in Hframe.
  unfold OUT_BUFFER_SIZE in Hlen.
  assert (Hchk : 0x100 - Z.land (sumZ body) 0xff = checksum_byte body).
  { rewrite land_ff. unfold checksum_byte.
    pose proof (Z.mod_pos_bound (sumZ body) 256 ltac:(lia)).
    symmetry. apply Z.mod_small. lia. }
  rewrite Hchk in Hframe.
  set (held := set_outBuffer (body ++ drop (length body) (outBuffer self)) self) in *.
  assert (Hstore : outBuffer_set (Z.of_nat (length body)) (checksum_byte body) held
                   = (Ok tt,
                      set_outBuffer ((body ++ [checksum_byte body])
                                     ++ drop (S (length body)) (outBuffer self)) self)).
  { rewrite outBuffer_set_ok.
    - f_equal. unfold held. destruct self; cbn [outBuffer set_outBuffer].
      rewrite Nat2Z.id. rewrite insert_after_prefix; [reflexivity |].
      cbn [outBuffer] in Hlen. lia.
    - unfold held. destruct self; cbn [outBuffer set_outBuffer] in *.
      rewrite length_app, length_drop. lia.
    - apply fits_B_byte, checksum_byte_is_byte. }
  rewrite (bind_Ok _ _ _ _ _ Hstore) in Hframe. unfold ret in Hframe.
  set (framed := set_outBuffer ((body ++ [checksum_byte body])
                                ++ drop (S (length body)) (outBuffer self)) self) in *.
  destruct (sendOutBuffer_prefix_core framed sock
              (Z.of_nat (length body) + 1)) as (sock' & Hsend & Hsent).
  - unfold framed. destruct self; exact Hout.
  - exact Hopen.
  - exact Hpos.
  - unfold framed. destruct self; cbn [outBuffer set_outBuffer] in *.
    rewrite !length_app, length_drop. simpl length. lia.
  - exists (set_byteOut (Some sock') framed), sock'.
    split; [| split; [destruct self; reflexivity | split]].
    + unfold sendString. rewrite (bind_Ok _ _ _ _ _ Hframe). exact Hsend.
    + rewrite Hsent. f_equal. unfold framed. destruct self; cbn [outBuffer set_outBuffer].
      replace (Z.to_nat (Z.of_nat (length body) + 1))
        with (length (body ++ [checksum_byte body]))
        by (rewrite length_app; simpl length; lia).
      apply take_app_length.
    + apply checksum_byte_closes.
Qed.

(** X12.  When the bytes before the checksum do not add up to a multiple of 256,
    [sendString] transmits the header, the text, a null terminator and one
    checksum byte, and the sum of all transmitted bytes is a multiple of
    256; it returns [True].  The text is cut to its first 1015 bytes, while
    the length field of the header still announces the whole text plus the
    terminator. *)
Theorem sendString_transmits_closed_frame (self : PacketTool) (sock : pysocket.Socket)
    (pDestAddress : Z) (pPacketType : PacketTypeEnum) (msgBytes : list Z) :
  is_byte pDestAddress -> is_byte (thisDeviceIdentifier self) ->
  length (outBuffer self) = Z.to_nat (OUT_BUFFER_SIZE + 1) ->
  Forall is_byte msgBytes ->
  byteOut self = Some sock ->
  pysocket.isClosed sock = false ->
  Forall (fun k => 1 <= k) (pysocket.sendCounts sock) ->
  let body := sendString_body pDestAddress (thisDeviceIdentifier self)
                pPacketType msgBytes in
  sumZ body mod 256 <> 0 ->
  exists self' sock',
    sendString pDestAddress pPacketType msgBytes self = (Ok true, self') /\
    byteOut self' = Some sock' /\
    pysocket.sent sock' = pysocket.sent sock ++ body ++ [checksum_byte body] /\
    sumZ (body ++ [checksum_byte body]) mod 256 = 0.
Proof. exact (sendString_transmits_closed_frame_core self sock pDestAddress pPacketType msgBytes). Qed.

Lemma sendString_transmits_closed_frame_witness :
  exists self' sock',
    sendString 2 packetTypeEnum.LOG_MESSAGE [72; 105]
      (snd (setStreams NoneObject (Some (pysocket.mkSocket [] [4] true false false))
              (packetTool.init 0)))
    = (Ok true, self') /\
    byteOut self' = Some sock' /\
    pysocket.sent sock'
    = pysocket.sent (pysocket.mkSocket [] [4] true false false)
      ++ sendString_body 2 0 packetTypeEnum.LOG_MESSAGE [72; 105]
      ++ [checksum_byte (sendString_body 2 0 packetTypeEnum.LOG_MESSAGE [72; 105])] /\
    sumZ (sendString_body 2 0 packetTypeEnum.LOG_MESSAGE [72; 105]
          ++ [checksum_byte (sendString_body 2 0 packetTypeEnum.LOG_MESSAGE [72; 105])])
      mod 256 = 0.
Proof.
  apply (sendString_transmits_closed_frame
           (snd (setStreams NoneObject (Some (pysocket.mkSocket [] [4] true false false))
                   (packetTool.init 0)))
           (pysocket.mkSocket [] [4] true false false)
           2 packetTypeEnum.LOG_MESSAGE [72; 105]).
  - unfold is_byte. lia.
  - unfold is_byte. simpl. lia.
  - reflexivity.
  - repeat constructor; unfold is_byte; lia.
  - reflexivity.
  - reflexivity.
  - simpl. repeat constructor. lia.
  - vm_compute. discriminate.
Defined.

Lemma sendString_overflow_core (self : PacketTool)
    (pDestAddress : Z) (pPacketType : PacketTypeEnum) (msgBytes : list Z) :
  is_byte pDestAddress -> is_byte (thisDeviceIdentifier self) ->
  length (outBuffer self) = Z.to_nat (OUT_BUFFER_SIZE + 1) ->
  Forall is_byte msgBytes ->
  let body := sendString_body pDestAddress (thisDeviceIdentifier self)
                pPacketType msgBytes in
  sumZ body mod 256 = 0 ->
  exists self',
    sendString pDestAddress pPacketType msgBytes self = (Raise OverflowError, self') /\
    byteOut self' = byteOut self /\
    take (length body) (outBuffer self') = body.
Proof.
  intros Hdest Hsrc Hlen Hbytes body Hsum.
  pose proof (length_sendString_body pDestAddress (thisDeviceIdentifier self)
                pPacketType msgBytes) as Hbody. fold body in Hbody.
  pose proof (sendString_frame_reduces pDestAddress pPacketType msgBytes self
                Hdest Hsrc Hlen Hbytes) as Hframe.
  cbv zeta in Hframe. fold body in Hframe.
  unfold OUT_BUFFER_SIZE in Hlen.
  rewrite land_ff, Hsum in Hframe.
  set (held := set_outBuffer (body ++ drop (length body) (outBuffer self)) self) in *.
  assert (Hstore : outBuffer_set (Z.of_nat (length body)) (0x100 - 0) held
                   = (Raise OverflowError, held)).
  { unfold outBuffer_set, setitem. rewrite py_index_in_range; [reflexivity |].
    unfold held. destruct self; cbn [outBuffer set_outBuffer] in *.
    rewrite length_app, length_drop. lia. }
  rewrite (bind_Raise _ _ _ _ _ Hstore) in Hframe.
  exists held. split; [| split].
  - unfold sendString. now rewrite (bind_Raise _ _ _ _ _ Hframe).
  - unfold held. destruct self; reflexivity.
  - unfold held. destruct self; cbn [outBuffer set_outBuffer]. apply take_app_length.
Qed.

(** X13.  When the header, the text and the terminator add up to a multiple of
    256, [sendString] raises [OverflowError] at the store of the checksum
    byte, for every destination, type and text: the value stored is 256.
    Nothing is sent. *)
Theorem sendString_overflows_on_zero_sum (self : PacketTool)
    (pDestAddress : Z) (pPacketType : PacketTypeEnum) (msgBytes : list Z) :
  is_byte pDestAddress -> is_byte (thisDeviceIdentifier self) ->
  length (outBuffer self) = Z.to_nat (OUT_BUFFER_SIZE + 1) ->
  Forall is_byte msgBytes ->
  let body := sendString_body pDestAddress (thisDeviceIdentifier self)
                pPacketType msgBytes in
  sumZ body mod 256 = 0 ->
  exists self',
    sendString pDestAddress pPacketType msgBytes self = (Raise OverflowError, self') /\
    byteOut self' = byteOut self /\
    take (length body) (outBuffer self') = body.
Proof. exact (sendString_overflow_core self pDestAddress pPacketType msgBytes). Qed.

Lemma sendString_overflows_on_zero_sum_witness :
  exists self',
    sendString 0 NO_PKT [] (packetTool.init 0) = (Raise OverflowError, self') /\
    byteOut self' = byteOut (packetTool.init 0) /\
    take (length (sendString_body 0 0 NO_PKT [])) (outBuffer self')
      = sendString_body 0 0 NO_PKT [].
Proof.
  apply (sendString_overflows_on_zero_sum (packetTool.init 0) 0 NO_PKT []).
  - unfold is_byte. lia.
  - unfold is_byte. simpl. lia.
  - reflexivity.
  - constructor.
  - reflexivity.
Defined.

(** X14.  [handleGetDeviceInfoPacket] answers with a [LOG_MESSAGE] frame carrying
    the greeting and returns 1, for every pair of device identifiers whose
    sum plus 90 is not a multiple of 256; for the other pairs the checksum
    store overflows and the call raises [OverflowError]. *)
Theorem handleGetDeviceInfoPacket_replies (self : PacketTool) (sock : pysocket.Socket)
    (remoteDeviceIdentifier : Z) :
  is_byte remoteDeviceIdentifier -> is_byte (thisDeviceIdentifier self) ->
  length (outBuffer self) = Z.to_nat (OUT_BUFFER_SIZE + 1) ->
  byteOut self = Some sock ->
  pysocket.isClosed sock = false ->
  Forall (fun k => 1 <= k) (pysocket.sendCounts sock) ->
  let body :=
    [0xaa; 0x55; remoteDeviceIdentifier; thisDeviceIdentifier self; 3; 0; 38]
    ++ controllerHandler.encode controllerHandler.greeting ++ [0] in
  ((remoteDeviceIdentifier + thisDeviceIdentifier self + 90) mod 256 <> 0 ->
   exists self' sock',
     controllerHandler.handleGetDeviceInfoPacket remoteDeviceIdentifier self
       = (Ok 1, self') /\
     byteOut self' = Some sock' /\
     pysocket.sent sock' = pysocket.sent sock ++ body ++ [checksum_byte body]) /\
  ((remoteDeviceIdentifier + thisDeviceIdentifier self + 90) mod 256 = 0 ->
   fst (controllerHandler.handleGetDeviceInfoPacket remoteDeviceIdentifier self)
     = Raise OverflowError).
Proof.
  intros Hremote Hdev Hlen Hout Hopen Hpos body.
  assert (Hbody : sendString_body remoteDeviceIdentifier (thisDeviceIdentifier self)
                    packetTypeEnum.LOG_MESSAGE
                    (controllerHandler.encode controllerHandler.greeting) = body)
    by reflexivity.
  assert (Hbytes : Forall is_byte (controllerHandler.encode controllerHandler.greeting))
    by (vm_compute; repeat constructor; discriminate).
  assert (Hsum : sumZ body mod 256
                 = (remoteDeviceIdentifier + thisDeviceIdentifier self + 90) mod 256).
  { replace (sumZ body)
      with (remoteDeviceIdentifier + thisDeviceIdentifier self + 90 + 14 * 256)
      by (unfold body, sumZ; simpl; lia).
    apply Z.mod_add. lia. }
  split; intros Hmod.
  - destruct (sendString_transmits_closed_frame_core self sock remoteDeviceIdentifier
                packetTypeEnum.LOG_MESSAGE
                (controllerHandler.encode controllerHandler.greeting)
                Hremote Hdev Hlen Hbytes Hout Hopen Hpos)
      as (self' & sock' & Hsend & Hout' & Hsent & _).
    { rewrite Hbody, Hsum. exact Hmod. }
    rewrite Hbody in Hsent.
    exists self', sock'. split; [| auto].
    unfold controllerHandler.handleGetDeviceInfoPacket.
    now rewrite (bind_Ok _ _ _ _ _ Hsend).
  - destruct (sendString_overflow_core self remoteDeviceIdentifier
                packetTypeEnum.LOG_MESSAGE
                (controllerHandler.encode controllerHandler.greeting)
                Hremote Hdev Hlen Hbytes)
      as (self' & Hsend & _).
    { rewrite Hbody, Hsum. exact Hmod. }
    unfold controllerHandler.handleGetDeviceInfoPacket.
    now rewrite (bind_Raise _ _ _ _ _ Hsend).
Qed.

Lemma handleGetDeviceInfoPacket_replies_witness :
  let sock := pysocket.mkSocket [] [] true false false in
  let self := snd (setStreams NoneObject (Some sock) (packetTool.init 0)) in
  let body :=
    [0xaa; 0x55; 2; thisDeviceIdentifier self; 3; 0; 38]
    ++ controllerHandler.encode controllerHandler.greeting ++ [0] in
  ((2 + thisDeviceIdentifier self + 90) mod 256 <> 0 ->
   exists self' sock',
     controllerHandler.handleGetDeviceInfoPacket 2 self = (Ok 1, self') /\
     byteOut self' = Some sock' /\
     pysocket.sent sock' = pysocket.sent sock ++ body ++ [checksum_byte body]) /\
  ((2 + thisDeviceIdentifier self + 90) mod 256 = 0 ->
   fst (controllerHandler.handleGetDeviceInfoPacket 2 self) = Raise OverflowError).
Proof.
  apply (handleGetDeviceInfoPacket_replies
           (snd (setStreams NoneObject (Some (pysocket.mkSocket [] [] true false false))
                   (packetTool.init 0)))
           (pysocket.mkSocket [] [] true false false) 2).
  - unfold is_byte. lia.
  - unfold is_byte. simpl. lia.
  - reflexivity.
  - reflexivity.
  - reflexivity.
  - constructor.
Defined.

(** ** Further properties of the framing engine *)

Lemma resync_spec (self : PacketTool) (b : CircularBuffer) :
  byteIn self = Stream b -> wf b ->
  exists b',
    resync self =
      (Ok tt, set_byteIn (Stream b') (set_resyncCount (resyncCount self + 1) self)) /\
    wf b' /\ bufferSize b' = bufferSize b /\
    contents b' = from_sync (contents b).
Proof.
  intros Hb Hwf.
  set (counted := set_resyncCount (resyncCount self + 1) self).
  assert (Hb' : byteIn counted = Stream b) by (destruct self; exact Hb).
  destruct (resync_loop_spec (resync_fuel counted) counted b Hb' Hwf)
    as (b' & Hloop & Hrest).
  { unfold resync_fuel. rewrite Hb'. lia. }
  exists b'. split; [| exact Hrest].
  unfold resync. rewrite bind_modify, bind_get. exact Hloop.
Qed.

Lemma wf_append_all vs : forall b, wf b -> wf (snd (append_all vs b)).
Proof.
  induction vs as [| v vs IH]; intros b Hwf; [exact Hwf |].
  simpl. unfold bind. pose proof (wf_append v b Hwf) as Hwf1.
  destruct (append v b) as [[[] | e |] b1]; simpl in Hwf1.
  - now apply IH.
  - exact Hwf1.
  - exact Hwf1.
Qed.

Lemma set_byteIn_same (self : PacketTool) s :
  byteIn self = s -> set_byteIn s self = self.
Proof. intros <-. destruct self; reflexivity. Qed.

Lemma checkForPacketReady_waits (self : PacketTool)
    (b : CircularBuffer) :
  byteIn self = Stream b ->
  (if headerValid self
   then available b < numDataBytesPlusChecksumByte self
   else available b < 7) ->
  checkForPacketReady self = (Ok false, self).
Proof.
  intros Hb Hwait.
  unfold checkForPacketReady. rewrite bind_get, Hb.
  destruct (headerValid self) eqn:Hhv; cbn [negb].
  - unfold checkForPacketReady_tail.
    rewrite (bind_Ok _ _ _ _ _ (byteIn_available_Stream self b Hb)).
    rewrite (set_byteIn_same self _ Hb), bind_get.
    destruct (Z.ltb_spec (available b) (numDataBytesPlusChecksumByte self)); [| lia].
    reflexivity.
  - assert (Hheader : checkForPacketHeaderAvailable self = (Ok tt, self)).
    { unfold checkForPacketHeaderAvailable.
      rewrite (bind_Ok _ _ _ _ _ (byteIn_available_Stream self b Hb)).
      rewrite (set_byteIn_same self _ Hb).
      destruct (Z.ltb_spec (available b) 7); [reflexivity | lia]. }
    rewrite (bind_Ok _ _ _ _ _ Hheader), bind_get, Hhv. reflexivity.
Qed.

(** X15.  While it waits, [checkForPacketReady] takes nothing from the stream and
    changes nothing: with no header held and fewer than 7 values
    available, and with a header held and fewer values available than the
    payload and its checksum need, it returns [False] and leaves the tool
    and the stream as they were. *)
Theorem checkForPacketReady_waits_without_consuming (self : PacketTool)
    (b : CircularBuffer) :
  byteIn self = Stream b ->
  (if headerValid self
   then available b < numDataBytesPlusChecksumByte self
   else available b < 7) ->
  checkForPacketReady self = (Ok false, self).
Proof. exact (checkForPacketReady_waits self b). Qed.

Lemma checkForPacketReady_waits_without_consuming_witness :
  checkForPacketReady
    (snd (setStreams (Stream (snd (append_all [0xaa; 0x55; 0] (circularBuffer.init 50))))
            None (packetTool.init 0)))
  = (Ok false,
     snd (setStreams (Stream (snd (append_all [0xaa; 0x55; 0] (circularBuffer.init 50))))
            None (packetTool.init 0))).
Proof.
  apply (checkForPacketReady_waits_without_consuming
           (snd (setStreams
                   (Stream (snd (append_all [0xaa; 0x55; 0] (circularBuffer.init 50))))
                   None (packetTool.init 0)))
           (snd (append_all [0xaa; 0x55; 0] (circularBuffer.init 50)))).
  - reflexivity.
  - vm_compute. reflexivity.
Defined.

(** X16.  A header search that meets a wrong sync byte resynchronises: when the
    first value is not [0xAA] it is dropped and [resync] runs on what
    follows; when the first is [0xAA] and the second is not [0x55] both are
    dropped first, so a second [0xAA] right behind the first is lost too.
    Either way [resyncCount] grows by one, no header is held, and the
    stream is left at its next [0xAA] or empty. *)
Theorem header_search_resyncs_on_bad_sync (self : PacketTool) (b : CircularBuffer)
    (first second : Z) (rest : list Z) :
  byteIn self = Stream b -> wf b ->
  headerValid self = false ->
  contents b = first :: second :: rest ->
  (5 <= length rest)%nat ->
  first <> 0xaa \/ second <> 0x55 ->
  exists self',
    checkForPacketHeaderAvailable self = (Ok tt, self') /\
    checkForPacketReady self = (Ok false, self') /\
    inbound self' = (if first =? 0xaa then from_sync rest else from_sync (second :: rest)) /\
    resyncCount self' = resyncCount self + 1 /\
    headerValid self' = false.
Proof.
  intros Hb Hwf Hhv Hc Hlen Hbad.
  pose proof (length_contents b) as Hlc. rewrite Hc in Hlc. simpl in Hlc.
  destruct (retrieve_cons _ _ _ Hwf Hc) as (b1 & Hr1 & Hwf1 & HC1 & Hc1).
  destruct (retrieve_cons _ _ _ Hwf1 Hc1) as (b2 & Hr2 & Hwf2 & HC2 & Hc2).
  destruct self as [inB outB dev bIn bOut ty hv n n1 ck d s rc].
  simpl in Hb, Hhv. subst bIn hv.
  assert (Hsearch :
    exists self',
      checkForPacketHeaderAvailable
        (mkPacketTool inB outB dev (Stream b) bOut ty false n n1 ck d s rc)
        = (Ok tt, self') /\
      inbound self'
        = (if first =? 0xaa then from_sync rest else from_sync (second :: rest)) /\
      resyncCount self' = rc + 1 /\
      headerValid self' = false).
  { unfold checkForPacketHeaderAvailable, add_pktChecksum.
    step_available.
    destruct (Z.ltb_spec (available b) 7) as [Hlt | _]; [lia |].
    step_modify. step_retrieve Hr1.
    destruct (Z.eqb_spec first 0xaa) as [-> | Hne]; cbn [negb].
    - step_modify. step_retrieve Hr2.
      destruct (Z.eqb_spec second 0x55) as [-> | Hne2]; cbn [negb]; [tauto |].
      match goal with
      | |- context [resync ?st] =>
          destruct (resync_spec st b2 eq_refl Hwf2) as (b' & Hres & _ & _ & Hc')
      end.
      rewrite Hres. eexists. split; [reflexivity |]. flat.
      unfold inbound. flat. rewrite Hc', Hc2. auto.
    - match goal with
      | |- context [resync ?st] =>
          destruct (resync_spec st b1 eq_refl Hwf1) as (b' & Hres & _ & _ & Hc')
      end.
      rewrite Hres. eexists. split; [reflexivity |]. flat.
      unfold inbound. flat. rewrite Hc', Hc1. auto. }
  destruct Hsearch as (self' & Hsearch & Hin & Hrc & Hhv').
  exists self'. split; [exact Hsearch |]. split; [| auto].
  unfold checkForPacketReady. rewrite bind_get. flat. cbn [negb].
  rewrite (bind_Ok _ _ _ _ _ Hsearch), bind_get, Hhv'. reflexivity.
Qed.

Lemma header_search_resyncs_on_bad_sync_witness :
  let b := snd (append_all [0xaa; 0xaa; 0x55; 0; 2; 2; 0; 0; 0xfd]
                  (circularBuffer.init 50)) in
  let self := snd (setStreams (Stream b) None (packetTool.init 0)) in
  exists self',
    checkForPacketHeaderAvailable self = (Ok tt, self') /\
    checkForPacketReady self = (Ok false, self') /\
    inbound self'
      = (if 0xaa =? 0xaa then from_sync [0x55; 0; 2; 2; 0; 0; 0xfd]
         else from_sync (0xaa :: [0x55; 0; 2; 2; 0; 0; 0xfd])) /\
    resyncCount self' = resyncCount self + 1 /\
    headerValid self' = false.
Proof.
  apply (header_search_resyncs_on_bad_sync
           (snd (setStreams
                   (Stream (snd (append_all [0xaa; 0xaa; 0x55; 0; 2; 2; 0; 0; 0xfd]
                                   (circularBuffer.init 50))))
                   None (packetTool.init 0)))
           (snd (append_all [0xaa; 0xaa; 0x55; 0; 2; 2; 0; 0; 0xfd]
                   (circularBuffer.init 50)))
           0xaa 0xaa [0x55; 0; 2; 2; 0; 0; 0xfd]).
  - reflexivity.
  - apply wf_append_all, wf_init. lia.
  - reflexivity.
  - vm_compute. reflexivity.
  - simpl. lia.
  - right. lia.
Defined.

(** X17.  A header whose type byte is not a member of [PacketTypeEnum] raises
    [ValueError] out of the header search and out of [checkForPacketReady],
    whatever the rest of the frame is: the two sync bytes, the two
    identifiers and the type byte are gone from the stream, the two length
    bytes and what follows stay, and no header is held. *)
Theorem header_search_raises_on_undefined_type (self : PacketTool) (b : CircularBuffer)
    (dest source code : Z) (rest : list Z) :
  byteIn self = Stream b -> wf b ->
  headerValid self = false ->
  contents b = 0xaa :: 0x55 :: dest :: source :: code :: rest ->
  (2 <= length rest)%nat ->
  ~ (0 <= code <= 3 \/ 11 <= code <= 16) ->
  exists self',
    checkForPacketHeaderAvailable self = (Raise ValueError, self') /\
    checkForPacketReady self = (Raise ValueError, self') /\
    inbound self' = rest /\
    headerValid self' = false /\
    pktType self' = pktType self.
Proof.
  intros Hb Hwf Hhv Hc Hlen Hcode.
  assert (Hundef : of_value code = Raise ValueError).
  { unfold of_value, members. cbn [List.find packetTypeEnum.value].
    repeat match goal with
           | |- context [?a =? code] => destruct (Z.eqb_spec a code); [lia |]
           end.
    reflexivity. }
  pose proof (length_contents b) as Hlc. rewrite Hc in Hlc. simpl in Hlc.
  destruct (retrieve_cons _ _ _ Hwf Hc) as (b1 & Hr1 & Hwf1 & HC1 & Hc1).
  destruct (retrieve_cons _ _ _ Hwf1 Hc1) as (b2 & Hr2 & Hwf2 & HC2 & Hc2).
  destruct (retrieve_cons _ _ _ Hwf2 Hc2) as (b3 & Hr3 & Hwf3 & HC3 & Hc3).
  destruct (retrieve_cons _ _ _ Hwf3 Hc3) as (b4 & Hr4 & Hwf4 & HC4 & Hc4).
  destruct (retrieve_cons _ _ _ Hwf4 Hc4) as (b5 & Hr5 & Hwf5 & HC5 & Hc5).
  destruct self as [inB outB dev bIn bOut ty hv n n1 ck d s rc].
  simpl in Hb, Hhv. subst bIn hv.
  assert (Hsearch :
    exists self',
      checkForPacketHeaderAvailable
        (mkPacketTool inB outB dev (Stream b) bOut ty false n n1 ck d s rc)
        = (Raise ValueError, self') /\
      inbound self' = rest /\ headerValid self' = false /\ pktType self' = ty).
  { unfold checkForPacketHeaderAvailable, add_pktChecksum.
    step_available.
    destruct (Z.ltb_spec (available b) 7) as [Hlt | _]; [lia |].
    step_modify. step_retrieve Hr1. rewrite Z.eqb_refl; cbn [negb].
    step_modify. step_retrieve Hr2. rewrite Z.eqb_refl; cbn [negb].
    step_modify. step_retrieve Hr3. do 2 step_modify.
    step_retrieve Hr4. do 2 step_modify.
    step_retrieve Hr5. step_modify.
    unfold bind at 1. rewrite Hundef.
    eexists. split; [reflexivity |]. flat. unfold inbound. flat. auto. }
  destruct Hsearch as (self' & Hsearch & Hin & Hhv' & Hty).
  exists self'. split; [exact Hsearch |]. split; [| auto].
  unfold checkForPacketReady. rewrite bind_get. flat. cbn [negb].
  now rewrite (bind_Raise _ _ _ _ _ Hsearch).
Qed.

Lemma header_search_raises_on_undefined_type_witness :
  let b := snd (append_all [0xaa; 0x55; 0; 2; 9; 0; 0; 0xf6] (circularBuffer.init 50)) in
  let self := snd (setStreams (Stream b) None (packetTool.init 0)) in
  exists self',
    checkForPacketHeaderAvailable self = (Raise ValueError, self') /\
    checkForPacketReady self = (Raise ValueError, self') /\
    inbound self' = [0; 0; 0xf6] /\
    headerValid self' = false /\
    pktType self' = pktType self.
Proof.
  apply (header_search_raises_on_undefined_type
           (snd (setStreams
                   (Stream (snd (append_all [0xaa; 0x55; 0; 2; 9; 0; 0; 0xf6]
                                   (circularBuffer.init 50))))
                   None (packetTool.init 0)))
           (snd (append_all [0xaa; 0x55; 0; 2; 9; 0; 0; 0xf6] (circularBuffer.init 50)))
           0 2 9 [0; 0; 0xf6]).
  - reflexivity.
  - apply wf_append_all, wf_init. lia.
  - reflexivity.
  - vm_compute. reflexivity.
  - simpl. lia.
  - lia.
Defined.

(** One call of [checkForPacketReady] on a stream that holds exactly one
    whole frame with a defined type code. *)
Lemma checkForPacketReady_whole_frame (self : PacketTool) (b : CircularBuffer)
    (dest source code msb lsb checksum : Z) (payload : list Z) (t : PacketTypeEnum) :
  byteIn self = Stream b -> wf b ->
  headerValid self = false ->
  contents b = 0xaa :: 0x55 :: dest :: source :: code :: msb :: lsb
               :: payload ++ [checksum] ->
  of_value code = Ok t ->
  Z.of_nat (length payload) = 256 * (msb mod 256) + lsb mod 256 ->
  (length payload + 1 <= length (inBuffer self))%nat ->
  exists self',
    checkForPacketReady self =
      (Ok ((dest =? thisDeviceIdentifier self) && (sumZ (contents b) mod 256 =? 0)),
       self') /\
    (exists b', byteIn self' = Stream b' /\ wf b' /\ contents b' = []) /\
    headerValid self' = false /\
    getPktType self' = t /\
    numPktDataBytes self' = Z.of_nat (length payload) /\
    destDeviceIdentifierFromReceivedPkt self' = dest /\
    sourceDeviceIdentifierFromReceivedPkt self' = source /\
    take (length payload) (inBuffer self') = payload.
Proof.
  intros Hb Hwf Hhv Hc Ht Hlen Hin.
  destruct self as [inB outB dev bIn bOut ty hv np n1 ck d s rc].
  simpl in Hb, Hhv, Hin. subst bIn hv.
  destruct (checkForPacketHeaderAvailable_header
              (mkPacketTool inB outB dev (Stream b) bOut ty false np n1 ck d s rc)
              b dest source code msb lsb (payload ++ [checksum]) t
              eq_refl Hwf Hc Ht)
    as (b2 & Hheader & Hwf2 & HC2 & Hc2).
  rewrite be16_combine, <- Hlen in Hheader.
  cbn [inBuffer outBuffer thisDeviceIdentifier byteOut resyncCount] in Hheader.
  match type of Hheader with _ = (_, ?st) => set (held := st) in * end.
  assert (Hav2 : available b2 = Z.of_nat (length payload) + 1).
  { rewrite (available_length_contents b2 Hwf2), Hc2, length_app. simpl. lia. }
  destruct (checkForPacketReady_tail_spec held b2 eq_refl Hwf2)
    as (b3 & Hwf3 & HC3 & Hc3 & Htail).
  { unfold held; flat; lia. }
  { unfold held; flat; lia. }
  { unfold held; flat. lia. }
  cbv zeta in Htail.
  replace (Z.min (available b2) (numDataBytesPlusChecksumByte held + 1))
    with (Z.of_nat (length (payload ++ [checksum]))) in Hc3, Htail
    by (unfold held; flat; rewrite length_app; simpl; lia).
  replace (Z.to_nat (numDataBytesPlusChecksumByte held))
    with (length (payload ++ [checksum])) in Htail
    by (unfold held; flat; rewrite length_app; simpl; lia).
  rewrite Nat2Z.id, Hc2 in Hc3, Htail.
  rewrite drop_all in Hc3. rewrite firstn_all in Htail.
  assert (Hsum : pktChecksum held + sumZ (payload ++ [checksum]) = sumZ (contents b)).
  { rewrite Hc. unfold held, sumZ; flat. simpl foldr. lia. }
  rewrite Hsum, land_ff in Htail.
  eexists. split.
  - unfold checkForPacketReady. rewrite bind_get. flat. cbn [negb].
    rewrite (bind_Ok _ _ _ _ _ Hheader), bind_get.
    replace (headerValid held) with true by reflexivity. cbn [negb].
    exact Htail.
  - unfold held; flat.
    assert (Hpayload : take (length payload)
                         ((payload ++ [checksum])
                          ++ drop (length (payload ++ [checksum])) inB) = payload).
    { rewrite <- app_assoc. apply take_app_length. }
    destruct (dest =? dev); unfold getPktType; flat;
      (split; [exists b3; auto |]); repeat split; exact Hpayload.
Qed.

(** X18.  The acceptance rule.  When the stream holds exactly one whole frame
    with a defined type code, one call of [checkForPacketReady] takes all
    of it and returns [True] exactly when the destination byte is this
    device's identifier and the bytes of the frame add up to a multiple of
    256.  Accepted or not, the frame is gone from the stream and no header
    stays held: the next call finds nothing and returns [False], so a
    rejected frame is never delivered later. *)
Theorem whole_frame_accepted_iff_addressed_and_closed (self : PacketTool)
    (b : CircularBuffer) (dest source code msb lsb checksum : Z) (payload : list Z)
    (t : PacketTypeEnum) :
  byteIn self = Stream b -> wf b ->
  headerValid self = false ->
  contents b = 0xaa :: 0x55 :: dest :: source :: code :: msb :: lsb
               :: payload ++ [checksum] ->
  of_value code = Ok t ->
  Z.of_nat (length payload) = 256 * (msb mod 256) + lsb mod 256 ->
  (length payload + 1 <= length (inBuffer self))%nat ->
  exists (accepted : bool) (self' : PacketTool),
    checkForPacketReady self = (Ok accepted, self') /\
    (accepted = true <->
     dest = thisDeviceIdentifier self /\ sumZ (contents b) mod 256 = 0) /\
    inbound self' = [] /\
    headerValid self' = false /\
    getPktType self' = t /\
    numPktDataBytes self' = Z.of_nat (length payload) /\
    take (length payload) (inBuffer self') = payload /\
    checkForPacketReady self' = (Ok false, self').
Proof.
  intros Hb Hwf Hhv Hc Ht Hlen Hin.
  destruct (checkForPacketReady_whole_frame self b dest source code msb lsb checksum
              payload t Hb Hwf Hhv Hc Ht Hlen Hin)
    as (self' & Hready & (b' & Hb' & Hwf' & Hc') & Hhv' & Hty & Hnp & _ & _ & Hpl).
  eexists. exists self'. split; [exact Hready |]. split.
  - rewrite andb_true_iff, Z.eqb_eq, Z.eqb_eq. reflexivity.
  - split; [unfold inbound; now rewrite Hb' |].
    split; [exact Hhv' |]. split; [exact Hty |]. split; [exact Hnp |].
    split; [exact Hpl |].
    apply (checkForPacketReady_waits self' b' Hb').
    rewrite Hhv'. rewrite (proj1 (contents_nil b' Hwf') Hc'). lia.
Qed.

Lemma whole_frame_accepted_iff_addressed_and_closed_witness :
  let b := snd (append_all [0xaa; 0x55; 0; 2; 2; 0; 1; 7; 0xf5] (circularBuffer.init 50)) in
  let self := snd (setStreams (Stream b) None (packetTool.init 0)) in
  exists (accepted : bool) (self' : PacketTool),
    checkForPacketReady self = (Ok accepted, self') /\
    (accepted = true <->
     0 = thisDeviceIdentifier self /\ sumZ (contents b) mod 256 = 0) /\
    inbound self' = [] /\
    headerValid self' = false /\
    getPktType self' = GET_DEVICE_INFO /\
    numPktDataBytes self' = Z.of_nat (length [7]) /\
    take (length [7]) (inBuffer self') = [7] /\
    checkForPacketReady self' = (Ok false, self').
Proof.
  apply (whole_frame_accepted_iff_addressed_and_closed
           (snd (setStreams
                   (Stream (snd (append_all [0xaa; 0x55; 0; 2; 2; 0; 1; 7; 0xf5]
                                   (circularBuffer.init 50))))
                   None (packetTool.init 0)))
           (snd (append_all [0xaa; 0x55; 0; 2; 2; 0; 1; 7; 0xf5] (circularBuffer.init 50)))
           0 2 2 0 1 0xf5 [7] GET_DEVICE_INFO).
  - reflexivity.
  - apply wf_append_all, wf_init. lia.
  - reflexivity.
  - vm_compute. reflexivity.
  - reflexivity.
  - reflexivity.
  - vm_compute. lia.
Defined.

(** X19.  With a header held and the payload and checksum available,
    [checkForPacketReady] takes [min (available, n + 1)] values, where [n]
    is [numDataBytesPlusChecksumByte]: the [n] values of the packet and,
    when there is one, the value behind them, which is lost to the next
    header search.  Only the first [n] count for the checksum; the result
    is [True] exactly when the held destination is this device and the
    running sum closes to a multiple of 256.  No header stays held. *)
Theorem held_header_takes_packet_and_one_more (self : PacketTool) (b : CircularBuffer) :
  byteIn self = Stream b -> wf b ->
  headerValid self = true ->
  let n := numDataBytesPlusChecksumByte self in
  let m := Z.min (available b) (n + 1) in
  0 <= n -> n <= available b ->
  m <= Z.of_nat (length (inBuffer self)) ->
  exists (accepted : bool) (self' : PacketTool),
    checkForPacketReady self = (Ok accepted, self') /\
    inbound self' = drop (Z.to_nat m) (contents b) /\
    take (Z.to_nat m) (inBuffer self') = take (Z.to_nat m) (contents b) /\
    headerValid self' = false /\
    (accepted = true <->
     destDeviceIdentifierFromReceivedPkt self = thisDeviceIdentifier self /\
     (pktChecksum self + sumZ (take (Z.to_nat n) (contents b))) mod 256 = 0).
Proof.
  intros Hb Hwf Hhv n m Hn Havail Hlen.
  destruct (checkForPacketReady_tail_spec self b Hb Hwf Hn Havail Hlen)
    as (b' & Hwf' & HC' & Hc' & Htail).
  cbv zeta in Htail. fold n in Htail. fold m in Htail, Hc'.
  rewrite land_ff in Htail.
  eexists. eexists. split.
  - unfold checkForPacketReady. rewrite bind_get, Hb, Hhv. cbn [negb]. exact Htail.
  - assert (Htake : take (Z.to_nat m)
                      (take (Z.to_nat m) (contents b) ++ drop (Z.to_nat m) (inBuffer self))
                    = take (Z.to_nat m) (contents b)).
    { rewrite take_app_le; [rewrite take_take, Nat.min_id; reflexivity |].
      rewrite length_take, length_contents.
      pose proof (available_range b Hwf). unfold m. lia. }
    split; [| split; [| split]].
    + destruct (destDeviceIdentifierFromReceivedPkt self =? thisDeviceIdentifier self);
        unfold inbound; destruct self; cbn [byteIn set_inBuffer set_byteIn set_headerValid
                                            set_pktChecksum]; exact Hc'.
    + destruct (destDeviceIdentifierFromReceivedPkt self =? thisDeviceIdentifier self);
        destruct self; cbn [inBuffer set_inBuffer set_byteIn set_headerValid
                            set_pktChecksum]; exact Htake.
    + destruct (destDeviceIdentifierFromReceivedPkt self =? thisDeviceIdentifier self);
        destruct self; reflexivity.
    + rewrite andb_true_iff, Z.eqb_eq, Z.eqb_eq. reflexivity.
Qed.

Lemma held_header_takes_packet_and_one_more_witness :
  let b0 := snd (append_all [0xaa; 0x55; 0; 2; 2; 0; 0] (circularBuffer.init 50)) in
  let waiting :=
    snd (checkForPacketReady (snd (setStreams (Stream b0) None (packetTool.init 0)))) in
  let self := snd (on_byteIn (append_all [0xfd; 0xaa; 0x55]) waiting) in
  let b := snd (append_all [0xfd; 0xaa; 0x55] (snd (retrieve_n 7 b0))) in
  exists (accepted : bool) (self' : PacketTool),
    checkForPacketReady self = (Ok accepted, self') /\
    inbound self'
      = drop (Z.to_nat (Z.min (available b) (numDataBytesPlusChecksumByte self + 1)))
          (contents b) /\
    take (Z.to_nat (Z.min (available b) (numDataBytesPlusChecksumByte self + 1)))
      (inBuffer self')
      = take (Z.to_nat (Z.min (available b) (numDataBytesPlusChecksumByte self + 1)))
          (contents b) /\
    headerValid self' = false /\
    (accepted = true <->
     destDeviceIdentifierFromReceivedPkt self = thisDeviceIdentifier self /\
     (pktChecksum self
      + sumZ (take (Z.to_nat (numDataBytesPlusChecksumByte self)) (contents b)))
       mod 256 = 0).
Proof.
  apply (held_header_takes_packet_and_one_more
           (snd (on_byteIn (append_all [0xfd; 0xaa; 0x55])
                   (snd (checkForPacketReady
                           (snd (setStreams
                                   (Stream (snd (append_all [0xaa; 0x55; 0; 2; 2; 0; 0]
                                                   (circularBuffer.init 50))))
                                   None (packetTool.init 0)))))))
           (snd (append_all [0xfd; 0xaa; 0x55]
                   (snd (retrieve_n 7 (snd (append_all [0xaa; 0x55; 0; 2; 2; 0; 0]
                                              (circularBuffer.init 50)))))))).
  - vm_compute. reflexivity.
  - apply wf_append_all.
    assert (Hn : forall k b, wf b -> wf (snd (retrieve_n k b))).
    { induction k as [| k IH]; intros b Hwf; [exact Hwf |].
      simpl. unfold bind. pose proof (wf_retrieve b Hwf) as H1.
      destruct (retrieve b) as [[v | e |] b1]; simpl in H1; try exact H1.
      pose proof (IH b1 H1) as H2.
      destruct (retrieve_n k b1) as [[vs | e |] b2]; exact H2. }
    apply Hn, wf_append_all, wf_init. lia.
  - vm_compute. reflexivity.
  - vm_compute. discriminate.
  - vm_compute. discriminate.
  - vm_compute. discriminate.
Defined.

Lemma from_sync_skips (garbage frame : list Z) :
  Forall (fun v => v <> 0xaa) garbage ->
  from_sync (garbage ++ 0xaa :: frame) = 0xaa :: frame.
Proof.
  induction garbage as [| g garbage IH]; intros Hg; [reflexivity |].
  inversion Hg as [| ? ? Hne Hrest]; subst. simpl.
  destruct (Z.eqb_spec g 0xaa); [contradiction |]. now apply IH.
Qed.

(** The header search on a stream whose first value is not [0xAA]. *)
Lemma header_search_skips_garbage (self : PacketTool) (b : CircularBuffer)
    (first : Z) (rest : list Z) :
  byteIn self = Stream b -> wf b ->
  headerValid self = false ->
  contents b = first :: rest ->
  (6 <= length rest)%nat ->
  first <> 0xaa ->
  exists b',
    checkForPacketReady self =
      (Ok false,
       set_byteIn (Stream b')
         (set_resyncCount (resyncCount self + 1) (set_pktChecksum 0 self))) /\
    wf b' /\ contents b' = from_sync rest.
Proof.
  intros Hb Hwf Hhv Hc Hlen Hne.
  pose proof (length_contents b) as Hlc. rewrite Hc in Hlc. simpl in Hlc.
  destruct (retrieve_cons _ _ _ Hwf Hc) as (b1 & Hr1 & Hwf1 & HC1 & Hc1).
  destruct self as [inB outB dev bIn bOut ty hv n n1 ck d s rc].
  simpl in Hb, Hhv. subst bIn hv.
  destruct (resync_spec
              (mkPacketTool inB outB dev (Stream b1) bOut ty false n n1 0 d s rc)
              b1 eq_refl Hwf1) as (b' & Hres & Hwf' & _ & Hc').
  exists b'. split; [| split; [exact Hwf' | now rewrite Hc', Hc1]].
  assert (Hsearch :
    checkForPacketHeaderAvailable
      (mkPacketTool inB outB dev (Stream b) bOut ty false n n1 ck d s rc)
    = (Ok tt, mkPacketTool inB outB dev (Stream b') bOut ty false n n1 0 d s (rc + 1))).
  { unfold checkForPacketHeaderAvailable, add_pktChecksum.
    step_available.
    destruct (Z.ltb_spec (available b) 7) as [Hlt | _]; [lia |].
    step_modify. step_retrieve Hr1.
    destruct (Z.eqb_spec first 0xaa) as [-> | _]; [contradiction |]. cbn [negb].
    unfold set_byteIn, set_pktChecksum; flat.
    rewrite Hres. reflexivity. }
  unfold checkForPacketReady. rewrite bind_get. flat. cbn [negb].
  rewrite (bind_Ok _ _ _ _ _ Hsearch), bind_get. reflexivity.
Qed.

(** X20.  Recovery from misalignment.  Garbage without any [0xAA] in front of a
    well-formed frame addressed to this device costs one call: the first
    [checkForPacketReady] returns [False], counts one resync and leaves the
    stream at the frame; the second returns [True] with the frame's type
    and payload. *)
Theorem garbage_before_frame_is_skipped (self : PacketTool) (b : CircularBuffer)
    (garbage payload : list Z) (source code msb lsb checksum : Z) (t : PacketTypeEnum) :
  let frame := 0xaa :: 0x55 :: thisDeviceIdentifier self :: source :: code :: msb :: lsb
               :: payload ++ [checksum] in
  byteIn self = Stream b -> wf b ->
  headerValid self = false ->
  garbage <> [] ->
  Forall (fun v => v <> 0xaa) garbage ->
  contents b = garbage ++ frame ->
  of_value code = Ok t ->
  Z.of_nat (length payload) = 256 * (msb mod 256) + lsb mod 256 ->
  (length payload + 1 <= length (inBuffer self))%nat ->
  sumZ frame mod 256 = 0 ->
  exists self1 self2,
    checkForPacketReady self = (Ok false, self1) /\
    resyncCount self1 = resyncCount self + 1 /\
    inbound self1 = frame /\
    checkForPacketReady self1 = (Ok true, self2) /\
    getPktType self2 = t /\
    numPktDataBytes self2 = Z.of_nat (length payload) /\
    take (length payload) (inBuffer self2) = payload /\
    inbound self2 = [].
Proof.
  intros frame Hb Hwf Hhv Hne Hgarbage Hc Ht Hlen Hin Hsum.
  destruct garbage as [| g garbage]; [contradiction |].
  inversion Hgarbage as [| ? ? Hg Hrest]; subst.
  destruct (header_search_skips_garbage self b g (garbage ++ frame) Hb Hwf Hhv Hc)
    as (b1 & Hfirst & Hwf1 & Hc1).
  { rewrite length_app. unfold frame. simpl. lia. }
  { exact Hg. }
  unfold frame in Hc1 at 1. rewrite (from_sync_skips _ _ Hrest) in Hc1. fold frame in Hc1.
  set (self1 := set_byteIn (Stream b1)
                  (set_resyncCount (resyncCount self + 1) (set_pktChecksum 0 self))) in *.
  destruct (checkForPacketReady_whole_frame self1 b1 (thisDeviceIdentifier self)
              source code msb lsb checksum payload t)
    as (self2 & Hsecond & (b2 & Hb2 & _ & Hc2) & _ & Hty & Hnp & _ & _ & Hpl);
    try (destruct self; simpl in *; (reflexivity || assumption)).
  rewrite Hc1, Hsum in Hsecond.
  replace (thisDeviceIdentifier self =? thisDeviceIdentifier self1) with true in Hsecond
    by (symmetry; destruct self; apply Z.eqb_refl).
  exists self1, self2.
  split; [exact Hfirst |]. split; [destruct self; reflexivity |].
  split; [unfold inbound; destruct self; exact Hc1 |].
  split; [exact Hsecond |]. split; [exact Hty |]. split; [exact Hnp |].
  split; [exact Hpl |]. unfold inbound. now rewrite Hb2.
Qed.

Lemma garbage_before_frame_is_skipped_witness :
  let b := snd (append_all [1; 2; 3; 0xaa; 0x55; 0; 2; 2; 0; 1; 7; 0xf5]
                  (circularBuffer.init 50)) in
  let self := snd (setStreams (Stream b) None (packetTool.init 0)) in
  let frame := 0xaa :: 0x55 :: thisDeviceIdentifier self :: 2 :: 2 :: 0 :: 1
               :: [7] ++ [0xf5] in
  exists self1 self2,
    checkForPacketReady self = (Ok false, self1) /\
    resyncCount self1 = resyncCount self + 1 /\
    inbound self1 = frame /\
    checkForPacketReady self1 = (Ok true, self2) /\
    getPktType self2 = GET_DEVICE_INFO /\
    numPktDataBytes self2 = Z.of_nat (length [7]) /\
    take (length [7]) (inBuffer self2) = [7] /\
    inbound self2 = [].
Proof.
  apply (garbage_before_frame_is_skipped
           (snd (setStreams
                   (Stream (snd (append_all [1; 2; 3; 0xaa; 0x55; 0; 2; 2; 0; 1; 7; 0xf5]
                                   (circularBuffer.init 50))))
                   None (packetTool.init 0)))
           (snd (append_all [1; 2; 3; 0xaa; 0x55; 0; 2; 2; 0; 1; 7; 0xf5]
                   (circularBuffer.init 50)))
           [1; 2; 3] [7] 2 2 0 1 0xf5 GET_DEVICE_INFO).
  - reflexivity.
  - apply wf_append_all, wf_init. lia.
  - reflexivity.
  - discriminate.
  - repeat constructor; lia.
  - vm_compute. reflexivity.
  - reflexivity.
  - reflexivity.
  - vm_compute. lia.
  - reflexivity.
Defined.

(** ** The motor controller's speed message *)

Lemma calcPacketChecksum_loop_positive msgBytes : forall idx cheChecksum,
  0 < idx ->
  controllerHandler.calcPacketChecksum_loop msgBytes idx cheChecksum
  = cheChecksum + sumZ msgBytes.
Proof.
  induction msgBytes as [| c rest IH]; intros idx acc Hidx; simpl.
  - lia.
  - destruct (Z.gtb_spec idx 0); [| lia].
    rewrite IH by lia. lia.
Qed.

Lemma calcPacketChecksum_loop_start msgBytes :
  controllerHandler.calcPacketChecksum_loop msgBytes 0 0 = sumZ (tail msgBytes).
Proof.
  destruct msgBytes as [| c rest]; [reflexivity |].
  simpl. rewrite calcPacketChecksum_loop_positive by lia. lia.
Qed.

Lemma calcPacketChecksum_value (msgBytes : list Z) :
  controllerHandler.calcPacketChecksum msgBytes
    = 255 - sumZ (tail msgBytes) mod 256 /\
  is_byte (controllerHandler.calcPacketChecksum msgBytes) /\
  (sumZ (tail msgBytes) + controllerHandler.calcPacketChecksum msgBytes) mod 256 = 255.
Proof.
  unfold controllerHandler.calcPacketChecksum. cbv zeta.
  rewrite calcPacketChecksum_loop_start, land_ff.
  pose proof (Z.mod_pos_bound (sumZ (tail msgBytes)) 256 ltac:(lia)) as Hb.
  split; [reflexivity |]. split; [unfold is_byte; lia |].
  replace (sumZ (tail msgBytes) + (255 - sumZ (tail msgBytes) mod 256))
    with (255 + (sumZ (tail msgBytes) - sumZ (tail msgBytes) mod 256)) by lia.
  rewrite <- Zplus_mod_idemp_r, Zminus_mod_idemp_r, Z.sub_diag.
  reflexivity.
Qed.

(** X21.  [calcPacketChecksum] leaves the first byte of the message out, returns
    a byte, and that byte brings the sum of the other bytes to 255 modulo
    256. *)
Theorem calcPacketChecksum_complements_tail (msgBytes : list Z) :
  controllerHandler.calcPacketChecksum msgBytes
    = 255 - sumZ (tail msgBytes) mod 256 /\
  is_byte (controllerHandler.calcPacketChecksum msgBytes) /\
  (sumZ (tail msgBytes) + controllerHandler.calcPacketChecksum msgBytes) mod 256 = 255.
Proof. exact (calcPacketChecksum_value msgBytes). Qed.

Lemma low_byte_of_negative v :
  Z.land (0x100 - Z.land (-1 * v) 0xff) 0xff = v mod 256.
Proof.
  rewrite !land_ff.
  replace (-1 * v) with (- v) by lia.
  pose proof (Z.mod_pos_bound (- v) 256 ltac:(lia)) as Hb.
  pose proof (Z.div_mod (- v) 256 ltac:(lia)) as Hn.
  destruct (Z.eq_dec (- v mod 256) 0) as [E | E].
  - rewrite E. change ((256 - 0) mod 256) with 0.
    apply Z.mod_unique with (q := - (- v / 256)); lia.
  - rewrite (Z.mod_small (256 - - v mod 256)) by lia.
    apply Z.mod_unique with (q := - (- v / 256) - 1); lia.
Qed.

(** X22.  The speed message is the fixed start [7E 3B 2A], then for the right and
    for the left speed a high byte ([FF] for a negative speed, 0 otherwise)
    and the low eight bits of the speed, then the checksum byte.  Every
    item is a byte, and the bytes after the first, checksum included, add
    up to 255 modulo 256.  For speeds from -256 to 255 each pair is the
    speed as a big-endian 16-bit two's-complement number. *)
Theorem formMagniSpeedMessage_layout (leftSpeed rightSpeed : Z) :
  let high v := if v <? 0 then 0xff else 0 in
  let body := [0x7e; 0x3b; 0x2a; high rightSpeed; rightSpeed mod 256;
               high leftSpeed; leftSpeed mod 256] in
  controllerHandler.formMagniSpeedMessage leftSpeed rightSpeed
    = body ++ [controllerHandler.calcPacketChecksum body] /\
  Forall is_byte (controllerHandler.formMagniSpeedMessage leftSpeed rightSpeed) /\
  sumZ (tail (controllerHandler.formMagniSpeedMessage leftSpeed rightSpeed)) mod 256
    = 255 /\
  (-256 <= rightSpeed <= 255 ->
   int16_be (high rightSpeed) (rightSpeed mod 256) = rightSpeed) /\
  (-256 <= leftSpeed <= 255 ->
   int16_be (high leftSpeed) (leftSpeed mod 256) = leftSpeed).
Proof.
  intros high body.
  assert (Hform : controllerHandler.formMagniSpeedMessage leftSpeed rightSpeed
                  = body ++ [controllerHandler.calcPacketChecksum body]).
  { unfold controllerHandler.formMagniSpeedMessage, body, high. cbv zeta.
    destruct (rightSpeed <? 0); destruct (leftSpeed <? 0);
      cbn [insert list_insert]; rewrite ?low_byte_of_negative, ?land_ff; reflexivity. }
  pose proof (Z.mod_pos_bound rightSpeed 256 ltac:(lia)) as Hr.
  pose proof (Z.mod_pos_bound leftSpeed 256 ltac:(lia)) as Hl.
  destruct (calcPacketChecksum_value body) as (_ & Hbyte & Hsum).
  split; [exact Hform |]. split; [| split; [| split]].
  - rewrite Hform. apply Forall_app. split;
      [| apply List.Forall_cons; [exact Hbyte | apply List.Forall_nil]].
    unfold body, high.
    repeat apply List.Forall_cons; try apply List.Forall_nil; unfold is_byte; try lia;
      match goal with |- context [?v <? 0] => destruct (v <? 0) end; lia.
  - rewrite Hform.
    replace (tail (body ++ [controllerHandler.calcPacketChecksum body]))
      with (tail body ++ [controllerHandler.calcPacketChecksum body]) by reflexivity.
    rewrite sumZ_app. unfold sumZ at 2. cbn [foldr]. rewrite Z.add_0_r. exact Hsum.
  - intros Hrange. unfold int16_be, high.
    destruct (Z.ltb_spec rightSpeed 0).
    + assert (rightSpeed mod 256 = rightSpeed + 256)
        by (symmetry; apply Z.mod_unique with (q := -1); lia).
      destruct (Z.ltb_spec (256 * 255 + rightSpeed mod 256) 32768); lia.
    + rewrite Z.mod_small by lia.
      destruct (Z.ltb_spec (256 * 0 + rightSpeed) 32768); lia.
  - intros Hrange. unfold int16_be, high.
    destruct (Z.ltb_spec leftSpeed 0).
    + assert (leftSpeed mod 256 = leftSpeed + 256)
        by (symmetry; apply Z.mod_unique with (q := -1); lia).
      destruct (Z.ltb_spec (256 * 255 + leftSpeed mod 256) 32768); lia.
    + rewrite Z.mod_small by lia.
      destruct (Z.ltb_spec (256 * 0 + leftSpeed) 32768); lia.
Qed.

Lemma formMagniSpeedMessage_layout_witness :
  controllerHandler.formMagniSpeedMessage (-3) 200
    = [0x7e; 0x3b; 0x2a; 0; 200; 0xff; 253; 0xd6] /\
  int16_be 0 (200 mod 256) = 200 /\
  int16_be 0xff ((-3) mod 256) = -3.
Proof.
  destruct (formMagniSpeedMessage_layout (-3) 200) as (Hform & _ & _ & Hright & Hleft).
  split; [rewrite Hform; vm_compute; reflexivity |].
  split; [apply Hright; lia | apply Hleft; lia].
Defined.

(** ** Disconnecting a link that has a client socket *)

(** X23.  On a link that has accepted a connection at some time, [disconnect]
    always resets the receive buffer and clears the [connected] flag; an
    [OSError] from [shutdown] is swallowed; the call returns 0 unless
    [close] raises [OSError], which is turned into [SocketBroken].  The
    socket is closed afterwards in either case. *)
Theorem disconnect_closes_client_socket (self : ethernetLink.EthernetLink)
    (sock : pysocket.Socket) :
  ethernetLink.clientSocket self = Some sock ->
  exists sock',
    ethernetLink.disconnect self =
      (if negb (pysocket.isClosed sock) && pysocket.closeError sock
       then Raise SocketBroken else Ok 0,
       ethernetLink.mkEthernetLink false
         (snd (circularBuffer.reset (ethernetLink.receiveBuf self))) (Some sock')) /\
    pysocket.isClosed sock' = true /\
    pysocket.sent sock' = pysocket.sent sock /\
    available (snd (circularBuffer.reset (ethernetLink.receiveBuf self))) = 0.
Proof.
  intros Hsock.
  destruct self as [conn buf cs]. simpl in Hsock. subst cs.
  destruct sock as [sent counts peer cerr closed].
  destruct peer, cerr, closed; eexists; (split; [reflexivity |]); simpl; auto.
Qed.

Lemma disconnect_closes_client_socket_witness :
  exists sock',
    ethernetLink.disconnect
      (snd (ethernetLink.connectToRemoteIfRequestPending
              (Some (pysocket.mkSocket [] [] true false false)) ethernetLink.init)) =
      (if negb (pysocket.isClosed (pysocket.mkSocket [] [] true false false))
          && pysocket.closeError (pysocket.mkSocket [] [] true false false)
       then Raise SocketBroken else Ok 0,
       ethernetLink.mkEthernetLink false
         (snd (circularBuffer.reset
                 (ethernetLink.receiveBuf
                    (snd (ethernetLink.connectToRemoteIfRequestPending
                            (Some (pysocket.mkSocket [] [] true false false))
                            ethernetLink.init)))))
         (Some sock')) /\
    pysocket.isClosed sock' = true /\
    pysocket.sent sock' = pysocket.sent (pysocket.mkSocket [] [] true false false) /\
    available
      (snd (circularBuffer.reset
              (ethernetLink.receiveBuf
                 (snd (ethernetLink.connectToRemoteIfRequestPending
                         (Some (pysocket.mkSocket [] [] true false false))
                         ethernetLink.init))))) = 0.
Proof.
  apply (disconnect_closes_client_socket
           (snd (ethernetLink.connectToRemoteIfRequestPending
                   (Some (pysocket.mkSocket [] [] true false false)) ethernetLink.init))
           (pysocket.mkSocket [] [] true false false)).
  reflexivity.
Defined.

(** X24.  Once a link with a client socket has been disconnected, whether that
    call returned or raised, a further [disconnect] returns 0 and changes
    nothing: the shutdown of the closed socket fails and is tolerated, and
    closing a closed socket does nothing. *)
Theorem disconnect_again_is_a_no_op (self : ethernetLink.EthernetLink)
    (sock : pysocket.Socket) :
  ethernetLink.clientSocket self = Some sock ->
  ethernetLink.disconnect (snd (ethernetLink.disconnect self))
  = (Ok 0, snd (ethernetLink.disconnect self)).
Proof.
  intros Hsock.
  destruct self as [conn buf cs]. simpl in Hsock. subst cs.
  destruct sock as [sent counts peer cerr closed].
  destruct peer, cerr, closed; reflexivity.
Qed.

Lemma disconnect_again_is_a_no_op_witness :
  ethernetLink.disconnect
    (snd (ethernetLink.disconnect
            (snd (ethernetLink.connectToRemoteIfRequestPending
                    (Some (pysocket.mkSocket [] [] true true false)) ethernetLink.init))))
  = (Ok 0,
     snd (ethernetLink.disconnect
            (snd (ethernetLink.connectToRemoteIfRequestPending
                    (Some (pysocket.mkSocket [] [] true true false)) ethernetLink.init)))).
Proof.
  apply (disconnect_again_is_a_no_op
           (snd (ethernetLink.connectToRemoteIfRequestPending
                   (Some (pysocket.mkSocket [] [] true true false)) ethernetLink.init))
           (pysocket.mkSocket [] [] true true false)).
  reflexivity.
Defined.
